(** * DeviantArt-Downloader: the fetch-and-checkpoint engine of [downloader.py]

    A shallow embedding of [src/downloader.py].  Python values that come
    from JSON are kept as a small universe [pyval]; the remote services
    are oracles indexed by the number of calls made so far, and the
    file system is an oracle that says which directories can be made
    and which files can be opened for writing; every function of the
    script is a computation in a state-and-exception monad over a
    [World] that holds the ledger table, the files, the progress file,
    the disk and the trace of outbound effects. *)

From Stdlib Require Import ZArith String List Lia Bool DecimalString.
From stdpp Require Import base tactics option list strings gmap.

Local Open Scope string_scope.
Local Open Scope Z_scope.
Local Open Scope list_scope.

(** ** Python values *)

(** What [r.json()] and [json.load] produce (numbers are integers). *)
#[warnings="-register-all"]
Inductive pyval : Type :=
| PNone
| PBool (b : bool)
| PInt (n : Z)
| PStr (s : string)
| PList (items : list pyval)
| PDict (fields : list (string * pyval)).

(** The exceptions the script can meet. *)
Inductive exn : Type :=
| RuntimeError (max_retries : Z) (url : string)
    (* RuntimeError(f"Failed after {MAX_RETRIES} retries: {url}") *)
| HTTPError (status : Z)            (* raise_for_status() *)
| RequestException                  (* connection error, timeout *)
| KeyError (key : string)
| TypeError
| ValueError
| AttributeError
| IndexError
| FileNotFoundError (path : string)
| OSError (msg : string)            (* any other failure of the file system *)
| InterfaceError                    (* sqlite3: unsupported parameter type *)
| OverflowError                     (* sqlite3: integer beyond 64 bits *)
| OperationalError (msg : string).  (* sqlite3 *)

Inductive Result (A : Type) : Type :=
| Ok (a : A)
| Raise (e : exn).
Arguments Ok {A} a.
Arguments Raise {A} e.

Module Py.

(** [bool(v)] *)
Definition truthy (v : pyval) : bool :=
  match v with
  | PNone => false
  | PBool b => b
  | PInt n => negb (Z.eqb n 0)
  | PStr s => negb (String.eqb s "")
  | PList l => match l with [] => false | _ => true end
  | PDict d => match d with [] => false | _ => true end
  end.

Fixpoint lookup (k : string) (d : list (string * pyval)) : option pyval :=
  match d with
  | [] => None
  | (k', v) :: d' => if String.eqb k k' then Some v else lookup k d'
  end.

(** [v[k]] for a string key *)
Definition getitem (v : pyval) (k : string) : Result pyval :=
  match v with
  | PDict d => match lookup k d with Some x => Ok x | None => Raise (KeyError k) end
  | _ => Raise TypeError
  end.

(** [v.get(k, default)] *)
Definition get (v : pyval) (k : string) (default : pyval) : Result pyval :=
  match v with
  | PDict d => Ok (match lookup k d with Some x => x | None => default end)
  | _ => Raise AttributeError
  end.

(** [len(v)] *)
Definition len (v : pyval) : Result Z :=
  match v with
  | PStr s => Ok (Z.of_nat (String.length s))
  | PList l => Ok (Z.of_nat (List.length l))
  | PDict d => Ok (Z.of_nat (List.length d))
  | _ => Raise TypeError
  end.

(** [v[0]] *)
Definition first (v : pyval) : Result pyval :=
  match v with
  | PList (x :: _) => Ok x
  | PList [] => Raise IndexError
  | PStr (String c _) => Ok (PStr (String c ""))
  | PStr EmptyString => Raise IndexError
  | PDict _ => Raise (KeyError "0")
  | _ => Raise TypeError
  end.

(** [for x in v] *)
Definition iter (v : pyval) : Result (list pyval) :=
  match v with
  | PList l => Ok l
  | PDict d => Ok (map (fun kv => PStr (fst kv)) d)
  | PStr s => Ok (map (fun c => PStr (String c "")) (list_ascii_of_string s))
  | _ => Raise TypeError
  end.

Fixpoint strs (xs : list pyval) : option (list string) :=
  match xs with
  | [] => Some []
  | PStr s :: rest =>
      match strs rest with Some l => Some (s :: l) | None => None end
  | _ :: _ => None
  end.

(** [sep.join(xs)]: every element has to be a [str] *)
Definition join (sep : string) (xs : list pyval) : Result string :=
  match strs xs with
  | Some l => Ok (String.concat sep l)
  | None => Raise TypeError
  end.

(** [needle in hay] on strings *)
Fixpoint substring (needle hay : string) : bool :=
  String.prefix needle hay ||
  match hay with
  | EmptyString => false
  | String _ hay' => substring needle hay'
  end.

(** [k in v] for a string [k] *)
Definition contains (k : string) (v : pyval) : Result bool :=
  match v with
  | PDict d => Ok (match lookup k d with Some _ => true | None => false end)
  | PList l =>
      Ok (existsb (fun x => match x with PStr s => String.eqb s k | _ => false end) l)
  | PStr s => Ok (substring k s)
  | _ => Raise TypeError
  end.

(** [isinstance(v, list)] *)
Definition is_list (v : pyval) : bool :=
  match v with PList _ => true | _ => false end.

(** [v is False] *)
Definition is_False (v : pyval) : bool :=
  match v with PBool false => true | _ => false end.

(** [list(v.keys())] *)
Definition keys (v : pyval) : Result (list pyval) :=
  match v with
  | PDict d => Ok (map (fun kv => PStr (fst kv)) d)
  | _ => Raise AttributeError
  end.

End Py.

#[export] Instance Result_ret : MRet Result := @Ok.
#[export] Instance Result_bind : MBind Result :=
  fun A B k r => match r with Ok a => k a | Raise e => Raise e end.

(** A list comprehension whose element expression may raise. *)
Fixpoint comprehension {A B} (f : A -> Result B) (xs : list A) : Result (list B) :=
  match xs with
  | [] => Ok []
  | x :: xs' =>
      match f x with
      | Ok y => match comprehension f xs' with
                | Ok ys => Ok (y :: ys)
                | Raise e => Raise e
                end
      | Raise e => Raise e
      end
  end.

(** [os.path.join(a, b)] *)
Definition path_join (a b : string) : string :=
  if String.prefix "/" b then b
  else if String.eqb a "" || String.eqb (substring (String.length a - 1) 1 a) "/"
       then a +:+ b
       else a +:+ "/" +:+ b.

(** The newline character, as in ["\n"]. *)
Definition nl : string := String (Ascii.ascii_of_nat 10) "".

(** ** Configuration (the module-level constants read from the environment) *)

Record Config : Type := {
  CLIENT_ID : string;
  CLIENT_SECRET : string;
  USERNAME : string;
  SAVE_DIR : string;
  MAX_RETRIES : Z;
  RATE_LIMIT_SLEEP : Z;
  FORCE_RECHECK : bool;
  DOWNLOAD_SUBSCRIPTIONS : bool
}.
(* SLEEP_TIME is a float.  A pause of SLEEP_TIME seconds is kept symbolic
   ([SleepTime] below) and taken to be a length [time.sleep] accepts. *)

(** ** The remote services *)

Definition Params : Type := list (string * pyval).

Record Request : Type := {
  req_url : string;
  req_token : string;          (* headers = {"Authorization": f"Bearer {token}"} *)
  req_params : Params
}.

(** A response of the API; its body is JSON. *)
Record Response : Type := {
  status_code : Z;
  json : pyval                 (* r.json() *)
}.

(** [r.ok]: [raise_for_status] would not raise. *)
Definition ok (status : Z) : bool := negb ((400 <=? status) && (status <? 600)).

Inductive HttpReply : Type :=
| Responds (r : Response)
| Fails.                       (* the call raises a RequestException *)

(** The credential exchange answers with a status and, in its JSON
    object, the access token. *)
Inductive TokenReply : Type :=
| TokenResponds (status : Z) (access_token : string)
| TokenFails.

Inductive AssetReply : Type :=
| AssetResponds (status : Z) (content : string)
| AssetFails.

(** One [f.write] call. *)
Inductive Chunk : Type :=
| Fmt (label : string) (v : pyval) (suffix : string)   (* f"{label}{v}{suffix}" *)
| Text (s : string)
| Bytes (content : string).

(** The behaviour of the outside world: the reply to the n-th call of
    each kind.  It is fixed for a run; the counters live in the [World]. *)
Record Network : Type := {
  api : nat -> Request -> HttpReply;         (* requests.get in deviantart_get *)
  token_endpoint : nat -> TokenReply;        (* requests.post in get_access_token *)
  asset_host : nat -> pyval -> AssetReply;   (* requests.get(content["src"]) *)
  tagger : nat -> list Chunk -> HttpReply    (* requests.post to the autotagger *)
}.

(** ** Effects *)

Inductive Delay : Type :=
| Seconds (n : Z)
| SleepTime.                   (* SLEEP_TIME *)

Inductive Level : Type := DEBUG | INFO | WARNING | ERROR.

Inductive LogMsg : Type :=
| MsgAddedColumn
| MsgColumnExists
| MsgAlterFailed (e : exn)
| MsgAuthenticated
| MsgRateLimited (wait_time : Z)
| MsgTokenExpired
| MsgRequestFailed (status : Z)
| MsgRequestException (e : exn)
| MsgProgressLoadFailed
| MsgProgressSaveFailed (e : exn)
| MsgFetchingArtists
| MsgFetched (batch total : nat)
| MsgKnownSubscription (title deviation_id : pyval)
| MsgAlreadyDownloaded (deviation_id : pyval)
| MsgDetectedSubscription (title deviation_id : pyval)
| MsgDownloadAnyway
| MsgMetadataFailed (deviation_id : pyval) (e : exn)
| MsgImageFailed (title : pyval) (e : exn)
| MsgTaggerFailed (img_path : string) (e : exn)
| MsgSaved (deviation_id title artist : pyval) (ntags : nat)
| MsgFound (n : nat)
| MsgProcessing (idx : Z) (total : nat) (artist : pyval)
| MsgNoResults (artist : pyval) (offset : pyval)
| MsgArtistError (artist : pyval) (e : exn).

Inductive Event : Type :=
| EvGet (rq : Request)
| EvTokenPost
| EvAssetGet (src : pyval)
| EvTaggerPost (img_path : string)
| EvSleep (d : Delay)
| EvLog (lvl : Level) (msg : LogMsg).

(** ** The ledger table, the files and the progress file *)

(** A value stored in a column: NULL, INTEGER or TEXT. *)
Inductive sqlval : Type :=
| SqlNull
| SqlInt (n : Z)
| SqlText (s : string).

(** Binding a Python value as a statement parameter. *)
Definition sql_bind (v : pyval) : Result sqlval :=
  match v with
  | PNone => Ok SqlNull
  | PBool b => Ok (SqlInt (if b then 1 else 0))
  | PInt n =>
      if (- 2 ^ 63 <=? n) && (n <? 2 ^ 63) then Ok (SqlInt n)
      else Raise OverflowError
  | PStr s => Ok (SqlText s)
  | PList _ | PDict _ => Raise InterfaceError
  end.

Definition decimal (n : Z) : string :=
  DecimalString.NilZero.string_of_int (Z.to_int n).

(** TEXT affinity, which all the columns filled in by the script have:
    an integer is stored, and compared, as its decimal text; [None] is
    NULL. *)
Definition text_affinity (v : sqlval) : option string :=
  match v with
  | SqlNull => None
  | SqlInt n => Some (decimal n)
  | SqlText s => Some s
  end.

(** A row of the [downloads] table. *)
Record Row : Type := {
  deviationid : option string;      (* TEXT PRIMARY KEY *)
  artist : option string;           (* TEXT *)
  title : option string;            (* TEXT *)
  url : option string;              (* TEXT *)
  tags : option string;             (* TEXT *)
  is_premium : Z;                   (* INTEGER DEFAULT 0 *)
  downloaded_at : nat               (* DEFAULT CURRENT_TIMESTAMP: a logical clock *)
}.

(** What is in [progress.json]: no file, a file that cannot be read or
    parsed, or a file that [json.load] parses, to any JSON value. *)
Inductive ProgressFile : Type :=
| NoFile
| Unreadable
| Parsed (v : pyval).

(** The file that holds an object with the two keys of the checkpoint
    (either of them possibly missing); with both keys, what
    [json.dump] of [save_progress] writes. *)
Definition Saved (last_artist_index : option Z) (last_offset : option pyval)
    : ProgressFile :=
  Parsed (PDict (match last_artist_index with
                 | Some i => [("last_artist_index", PInt i)]
                 | None => []
                 end
                 ++ match last_offset with
                    | Some o => [("last_offset", o)]
                    | None => []
                    end)).

(** The file system as the script meets it.  At a time (the number of
    events so far) and for a path: the exception that
    [os.makedirs(path, exist_ok=True)] raises, if any, and the
    exception that [open(path, mode)] raises for a [mode] that writes
    ("w", "wb", "a"), if any; and the same for [PROGRESS_FILE]. *)
Record Disk : Type := {
  makedirs_error : nat -> string -> option exn;
  open_error : nat -> string -> option exn;
  progress_error : nat -> option exn
}.

Record World : Type := {
  n_api : nat;
  n_token : nat;
  n_asset : nat;
  n_tagger : nat;
  events : list Event;              (* most recent first *)
  downloads : list Row;             (* in insertion order *)
  files : gmap string (list Chunk);
  progress_file : ProgressFile;
  disk : Disk
}.

Definition with_events (f : list Event -> list Event) (w : World) : World :=
  {| n_api := n_api w; n_token := n_token w; n_asset := n_asset w;
     n_tagger := n_tagger w; events := f (events w); downloads := downloads w;
     files := files w; progress_file := progress_file w;
     disk := disk w |}.

Definition with_downloads (f : list Row -> list Row) (w : World) : World :=
  {| n_api := n_api w; n_token := n_token w; n_asset := n_asset w;
     n_tagger := n_tagger w; events := events w; downloads := f (downloads w);
     files := files w; progress_file := progress_file w;
     disk := disk w |}.

Definition with_files (f : gmap string (list Chunk) -> gmap string (list Chunk))
    (w : World) : World :=
  {| n_api := n_api w; n_token := n_token w; n_asset := n_asset w;
     n_tagger := n_tagger w; events := events w; downloads := downloads w;
     files := f (files w); progress_file := progress_file w;
     disk := disk w |}.

Definition with_progress_file (p : ProgressFile) (w : World) : World :=
  {| n_api := n_api w; n_token := n_token w; n_asset := n_asset w;
     n_tagger := n_tagger w; events := events w; downloads := downloads w;
     files := files w; progress_file := p; disk := disk w |}.

Definition tick_api (w : World) : World :=
  {| n_api := S (n_api w); n_token := n_token w; n_asset := n_asset w;
     n_tagger := n_tagger w; events := events w; downloads := downloads w;
     files := files w; progress_file := progress_file w;
     disk := disk w |}.

Definition tick_token (w : World) : World :=
  {| n_api := n_api w; n_token := S (n_token w); n_asset := n_asset w;
     n_tagger := n_tagger w; events := events w; downloads := downloads w;
     files := files w; progress_file := progress_file w;
     disk := disk w |}.

Definition tick_asset (w : World) : World :=
  {| n_api := n_api w; n_token := n_token w; n_asset := S (n_asset w);
     n_tagger := n_tagger w; events := events w; downloads := downloads w;
     files := files w; progress_file := progress_file w;
     disk := disk w |}.

Definition tick_tagger (w : World) : World :=
  {| n_api := n_api w; n_token := n_token w; n_asset := n_asset w;
     n_tagger := S (n_tagger w); events := events w; downloads := downloads w;
     files := files w; progress_file := progress_file w;
     disk := disk w |}.

(** ** The monad of the script

    A computation takes the world and either diverges ([None]: a
    [while] loop that was given too little fuel) or ends with a value
    or an exception, and the world it leaves. *)

Definition M (A : Type) : Type := World -> option (Result A * World).

Definition ret {A} (a : A) : M A := fun w => Some (Ok a, w).
Definition raise {A} (e : exn) : M A := fun w => Some (Raise e, w).
Definition diverge {A} : M A := fun _ => None.

Definition bind {A B} (m : M A) (k : A -> M B) : M B :=
  fun w =>
    match m w with
    | None => None
    | Some (Ok a, w') => k a w'
    | Some (Raise e, w') => Some (Raise e, w')
    end.

(** [try: body except: handler] *)
Definition try_except {A} (body : M A) (handler : exn -> M A) : M A :=
  fun w =>
    match body w with
    | None => None
    | Some (Ok a, w') => Some (Ok a, w')
    | Some (Raise e, w') => handler e w'
    end.

(** A pure step that may raise. *)
Definition lift {A} (r : Result A) : M A :=
  match r with Ok a => ret a | Raise e => raise e end.

Definition get_world : M World := fun w => Some (Ok w, w).
Definition modify (f : World -> World) : M unit := fun w => Some (Ok tt, f w).

#[export] Instance M_ret : MRet M := @ret.
#[export] Instance M_bind : MBind M := fun A B k m => bind m k.

Definition emit (e : Event) : M unit := modify (with_events (cons e)).
Definition logging (lvl : Level) (msg : LogMsg) : M unit := emit (EvLog lvl msg).

(** [time.sleep]: a negative length is a [ValueError]. *)
Definition time_sleep (d : Delay) : M unit :=
  match d with
  | Seconds n => if n <? 0 then raise ValueError else emit (EvSleep d)
  | SleepTime => emit (EvSleep d)
  end.

(** [os.makedirs(path, exist_ok=True)] *)
Definition os_makedirs (path : string) : M unit :=
  w ← get_world;
  match makedirs_error (disk w) (length (events w)) path with
  | Some e => raise e
  | None => mret tt
  end.

(** [open(path, mode)] for a [mode] that writes. *)
Definition open_for_writing (path : string) : M unit :=
  w ← get_world;
  match open_error (disk w) (length (events w)) path with
  | Some e => raise e
  | None => mret tt
  end.

(** Events in the order they happened. *)
Definition trace (w : World) : list Event := rev (events w).


(** ** Database setup

    [init_db] runs once, when the module is loaded, on whatever the
    file at [DB_PATH] holds: no [downloads] table yet, a table created
    before the [is_premium] column existed, or the current table. *)

Module Schema.

Record LegacyRow : Type := {
  l_deviationid : option string;
  l_artist : option string;
  l_title : option string;
  l_url : option string;
  l_tags : option string;
  l_downloaded_at : nat
}.

Inductive Database : Type :=
| Fresh
| Legacy (rows : list LegacyRow)
| Current (rows : list Row).

Definition upgrade (r : LegacyRow) : Row :=
  {| deviationid := l_deviationid r; artist := l_artist r; title := l_title r;
     url := l_url r; tags := l_tags r; is_premium := 0;
     downloaded_at := l_downloaded_at r |}.

(** [ALTER TABLE downloads ADD COLUMN is_premium INTEGER DEFAULT 0] *)
Definition alter_table_add_is_premium (db : Database) : Result Database :=
  match db with
  | Fresh => Raise (OperationalError "no such table: downloads")
  | Legacy rows => Ok (Current (map upgrade rows))
  | Current _ => Raise (OperationalError "duplicate column name: is_premium")
  end.

(** [CREATE TABLE IF NOT EXISTS downloads (...)] *)
Definition create_table_if_not_exists (db : Database) : Database :=
  match db with
  | Fresh => Current []
  | _ => db
  end.

Definition Log : Type := list (Level * LogMsg).

(** The result, and the log lines in the order written. *)
Definition add_is_premium_column_if_missing (db : Database)
    : Result Database * Log :=
  match alter_table_add_is_premium db with
  | Ok db' => (Ok db', [(INFO, MsgAddedColumn)])
  | Raise (OperationalError msg) =>
      if Py.substring "duplicate column name" msg then
        (Ok db, [(INFO, MsgColumnExists)])
      else
        (Raise (OperationalError msg),
         [(ERROR, MsgAlterFailed (OperationalError msg))])
  | Raise e => (Raise e, [])
  end.

Definition init_db (db : Database) : Result Database * Log :=
  match add_is_premium_column_if_missing db with
  | (Ok db', log) => (Ok (create_table_if_not_exists db'), log)
  | (Raise e, log) => (Raise e, log)
  end.

End Schema.

(** ** Database: the [downloads] table *)

Definition has_key (k : string) (r : Row) : bool :=
  match deviationid r with
  | Some k' => String.eqb k k'
  | None => false
  end.

(** [SELECT ... WHERE deviationid = ?]: NULL equals nothing. *)
Definition select_row (key : option string) (t : list Row) : option Row :=
  match key with
  | Some k => find (has_key k) t
  | None => None
  end.

(** [INSERT OR IGNORE]: the row is dropped when its key is taken. *)
Definition insert_or_ignore (r : Row) (t : list Row) : list Row :=
  match select_row (deviationid r) t with
  | Some _ => t
  | None => t ++ [r]
  end.

Definition is_downloaded (deviation_id : pyval) : M bool :=
  key ← lift (sql_bind deviation_id);
  w ← get_world;
  mret (match select_row (text_affinity key) (downloads w) with
        | Some _ => true
        | None => false
        end).

Definition mark_subscription (deviation_id artist title url : pyval) : M unit :=
  key ← lift (sql_bind deviation_id);
  a ← lift (sql_bind artist);
  t ← lift (sql_bind title);
  u ← lift (sql_bind url);
  w ← get_world;
  modify (with_downloads (insert_or_ignore
    {| deviationid := text_affinity key; artist := text_affinity a;
       title := text_affinity t; url := text_affinity u;
       tags := Some ""; is_premium := 1;
       downloaded_at := length (events w) |})).

Definition is_subscription (deviation_id : pyval) : M bool :=
  key ← lift (sql_bind deviation_id);
  w ← get_world;
  mret (match select_row (text_affinity key) (downloads w) with
        | Some row => is_premium row =? 1
        | None => false
        end).

Definition mark_downloaded (deviation_id artist title url : pyval)
    (tags : list pyval) : M unit :=
  joined ← lift (Py.join nl tags);
  key ← lift (sql_bind deviation_id);
  a ← lift (sql_bind artist);
  t ← lift (sql_bind title);
  u ← lift (sql_bind url);
  w ← get_world;
  modify (with_downloads (insert_or_ignore
    {| deviationid := text_affinity key; artist := text_affinity a;
       title := text_affinity t; url := text_affinity u;
       tags := Some joined; is_premium := 0;
       downloaded_at := length (events w) |})).

(** ** Load/save progress checkpoint *)

(** [{"last_artist_index": 0, "last_offset": 0}] *)
Definition fresh_progress : pyval :=
  PDict [("last_artist_index", PInt 0); ("last_offset", PInt 0)].

(** [json.dump] of an integer and a JSON value does not raise; when
    [open(PROGRESS_FILE, "w")] raises, the file is as it was and the
    [except] branch logs the warning. *)
Definition save_progress (last_artist_index : Z) (last_offset : pyval) : M unit :=
  w ← get_world;
  match progress_error (disk w) (length (events w)) with
  | Some e => logging WARNING (MsgProgressSaveFailed e)
  | None =>
      modify (with_progress_file (Saved (Some last_artist_index) (Some last_offset)))
  end.

Section Downloader.

Variable cfg : Config.
Variable net : Network.

(** ** Authentication *)

Definition get_access_token : M string :=
  w ← get_world;
  emit EvTokenPost;;
  modify tick_token;;
  match token_endpoint net (n_token w) with
  | TokenFails => raise RequestException
  | TokenResponds status token =>
      if ok status then
        logging INFO MsgAuthenticated;;
        mret token
      else raise (HTTPError status)          (* r.raise_for_status() *)
  end.

(** ** Rate-limited GET with refresh *)

Definition requests_get (rq : Request) : M Response :=
  w ← get_world;
  emit (EvGet rq);;
  modify tick_api;;
  match api net (n_api w) rq with
  | Responds r => mret r
  | Fails => raise RequestException
  end.

(** [except (HTTPError, RequestException)] *)
Definition is_request_exception (e : exn) : bool :=
  match e with
  | HTTPError _ | RequestException => true
  | _ => false
  end.

(** How one pass through the body of the [while] ends: [return], or
    back to the loop test with the current [retries] and [token]. *)
Inductive Ctl : Type :=
| Return (data : pyval)
| Continue (retries : Z) (token : string).

Definition attempt (url : string) (params : Params) (retries : Z)
    (token : string) : M Ctl :=
  try_except
    (r ← requests_get {| req_url := url; req_token := token; req_params := params |};
     if status_code r =? 429 then
       let wait_time := RATE_LIMIT_SLEEP cfg * (retries + 1) in
       logging WARNING (MsgRateLimited wait_time);;
       time_sleep (Seconds wait_time);;
       mret (Continue (retries + 1) token)
     else if status_code r =? 401 then
       logging WARNING MsgTokenExpired;;
       token ← get_access_token;
       mret (Continue (retries + 1) token)
     else if negb (ok (status_code r)) then
       logging ERROR (MsgRequestFailed (status_code r));;
       time_sleep SleepTime;;
       mret (Continue (retries + 1) token)
     else
       mret (Return (json r)))
    (fun e =>
       if is_request_exception e then
         logging ERROR (MsgRequestException e);;
         time_sleep SleepTime;;
         mret (Continue (retries + 1) token)
       else raise e).

(** The [while retries < MAX_RETRIES] loop.  [fuel] bounds the number of
    passes; [deviantart_get] gives it as much as the loop can use. *)
Fixpoint deviantart_get_loop (fuel : nat) (url : string) (params : Params)
    (retries : Z) (token : string) : M pyval :=
  if retries <? MAX_RETRIES cfg then
    match fuel with
    | O => diverge
    | S fuel' =>
        c ← attempt url params retries token;
        match c with
        | Return data => mret data
        | Continue retries' token' =>
            deviantart_get_loop fuel' url params retries' token'
        end
    end
  else raise (RuntimeError (MAX_RETRIES cfg) url).

Definition deviantart_get (url : string) (token : string) (params : Params)
    : M pyval :=
  deviantart_get_loop (Z.to_nat (MAX_RETRIES cfg)) url params 0 token.

Definition load_progress : M pyval :=
  w ← get_world;
  if FORCE_RECHECK cfg then mret fresh_progress
  else
    match progress_file w with
    | NoFile => mret fresh_progress
    | Parsed v => mret v
    | Unreadable =>
        logging WARNING MsgProgressLoadFailed;;
        mret fresh_progress
    end.

(** ** Fetch followed artists *)

Definition friends_url : string :=
  "https://www.deviantart.com/api/v1/oauth2/user/friends/" +:+ USERNAME cfg.

(** [f['user']['username']] *)
Definition username_of (f : pyval) : Result pyval :=
  user ← Py.getitem f "user";
  Py.getitem user "username".

(** The [while True] loop.  The service decides how many pages there
    are, so the number of passes is bounded by [fuel]; running out of
    it stands for a run that does not end. *)
Fixpoint followed_artists_loop (fuel : nat) (token : string) (offset : pyval)
    (artists : list pyval) : M (list pyval) :=
  match fuel with
  | O => diverge
  | S fuel' =>
      let params := [("access_token", PStr token); ("offset", offset);
                     ("limit", PInt 24)] in
      data ← deviantart_get friends_url token params;
      results ← lift (Py.get data "results" (PList []));
      fs ← lift (Py.iter results);
      batch ← lift (comprehension username_of fs);
      let artists := artists ++ batch in
      logging INFO (MsgFetched (length batch) (length artists));;
      has_more ← lift (Py.get data "has_more" PNone);
      if negb (Py.truthy has_more) then mret artists
      else
        offset ← lift (Py.get data "next_offset" (PInt 0));
        time_sleep SleepTime;;
        followed_artists_loop fuel' token offset artists
  end.

Definition get_followed_artists (fuel : nat) (token : string) : M (list pyval) :=
  logging INFO MsgFetchingArtists;;
  followed_artists_loop fuel token (PInt 0) [].

(** ** Save deviation *)

Definition metadata_url : string :=
  "https://www.deviantart.com/api/v1/oauth2/deviation/metadata".

(** The [is_premium] expression: an [or] chain, left to right. *)
Definition is_premium_of (deviation content : pyval) : Result bool :=
  premium_content ← Py.get deviation "premium_content" PNone;
  if Py.truthy premium_content then Ok true
  else
    premium_folder_data ← Py.get deviation "premium_folder_data" PNone;
    if Py.truthy premium_folder_data then Ok true
    else
      is_downloadable ← Py.get deviation "is_downloadable" PNone;
      if Py.is_False is_downloadable then Ok true
      else if negb (Py.truthy content) then Ok true
      else
        src ← Py.get content "src" PNone;
        Ok (negb (Py.truthy src)).

(** [tags] out of the metadata reply. *)
Definition tags_of (metadata : pyval) : Result (list pyval) :=
  present ← Py.contains "metadata" metadata;
  if (present : bool) then
    entries ← Py.getitem metadata "metadata";
    n ← Py.len entries;
    if 0 <? n then
      entry ← Py.first entries;
      ts ← Py.get entry "tags" (PList []);
      ts ← Py.iter ts;
      comprehension (fun t => Py.getitem t "tag_name") ts
    else Ok []
  else Ok [].

(** [str(v)] of a scalar, as an f-string prints it.  A list or a dict
    never gets here as an identifier: the ledger lookups reject it. *)
Definition str (v : pyval) : string :=
  match v with
  | PNone => "None"
  | PBool b => if b then "True" else "False"
  | PInt n => decimal n
  | PStr s => s
  | PList _ => "[...]"
  | PDict _ => "{...}"
  end.

(** [f.write(...)] on a file that was opened "w" or "wb": the file
    holds what was written.  Whether the file can be opened is asked
    of the disk first, by [open_for_writing]. *)
Definition write_file (path : string) (chunks : list Chunk) : M unit :=
  modify (with_files (insert path chunks)).

(** [f.write(...)] on a file that was opened "a". *)
Definition append_file (path : string) (chunks : list Chunk) : M unit :=
  modify (with_files (fun fs =>
    insert path ((match fs !! path with Some old => old | None => [] end) ++ chunks) fs)).

(** [with open(txt_path, "w")]: the three header lines, then the tags;
    when joining the tags raises, the header is already on disk. *)
Definition write_sidecar (txt_path : string) (title artist url : pyval)
    (tags : list pyval) : M unit :=
  let header := [Fmt "title: " title nl; Fmt "artist: " artist nl;
                 Fmt "url: " url (nl +:+ nl)] in
  open_for_writing txt_path;;
  write_file txt_path header;;
  joined ← lift (Py.join nl tags);
  write_file txt_path (header ++ [Text (joined +:+ nl)]).

Definition save_image (img_path : string) (title content : pyval) : M unit :=
  try_except
    (src ← lift (Py.getitem content "src");
     w ← get_world;
     emit (EvAssetGet src);;
     modify tick_asset;;
     match asset_host net (n_asset w) src with
     | AssetFails => raise RequestException
     | AssetResponds status bytes =>
         if ok status then
           open_for_writing img_path;;
           write_file img_path [Bytes bytes]
         else raise (HTTPError status)
     end)
    (fun e => logging WARNING (MsgImageFailed title e)).

Definition ai_tags_of (tagger_output : pyval) : Result (list pyval) :=
  if Py.is_list tagger_output && Py.truthy tagger_output then
    entry ← Py.first tagger_output;
    ts ← Py.get entry "tags" (PDict []);
    Py.keys ts
  else Ok [].

Definition run_tagger (img_path txt_path : string) : M unit :=
  try_except
    (w ← get_world;
     match files w !! img_path return M unit with
     | None => raise (FileNotFoundError img_path)
     | Some img_file =>
         emit (EvTaggerPost img_path);;
         modify tick_tagger;;
         match tagger net (n_tagger w) img_file with
         | Fails => raise RequestException
         | Responds response =>
             if ok (status_code response) then
               ai_tags ← lift (ai_tags_of (json response));
               match ai_tags with
               | [] => mret tt
               | _ =>
                   open_for_writing txt_path;;
                   append_file txt_path [Text (nl +:+ "# AI tags" +:+ nl)];;
                   joined ← lift (Py.join nl ai_tags);
                   append_file txt_path [Text (joined +:+ nl)]
               end
             else raise (HTTPError (status_code response))
         end
     end)
    (fun e => logging WARNING (MsgTaggerFailed img_path e)).

(** Everything after the classification step of [save_deviation]. *)
Definition fetch_and_store (token : string) (artist deviation_id title content url : pyval)
    : M unit :=
  let params := [("access_token", PStr token); ("deviationids[]", deviation_id);
                 ("mature_content", PStr "true")] in
  metadata ← try_except (deviantart_get metadata_url token params)
               (fun e => logging ERROR (MsgMetadataFailed deviation_id e);;
                         mret (PDict []));
  tags ← lift (tags_of metadata);
  artist_name ← lift (match artist with PStr s => Ok s | _ => Raise TypeError end);
  let artist_dir := path_join (SAVE_DIR cfg) artist_name in
  os_makedirs artist_dir;;
  let txt_path := path_join artist_dir (str deviation_id +:+ ".txt") in
  let img_path := path_join artist_dir (str deviation_id +:+ ".jpg") in
  write_sidecar txt_path title artist url tags;;
  save_image img_path title content;;
  run_tagger img_path txt_path;;
  mark_downloaded deviation_id artist title url tags;;
  logging INFO (MsgSaved deviation_id title artist (length tags)).

Definition save_deviation (token : string) (artist deviation : pyval) : M unit :=
  deviation_id ← lift (Py.getitem deviation "deviationid");
  title ← lift (Py.get deviation "title" (PStr "untitled"));
  content ← lift (Py.get deviation "content" (PDict []));
  url ← lift (Py.get deviation "url" PNone);
  known ← is_subscription deviation_id;
  if (known : bool) then logging DEBUG (MsgKnownSubscription title deviation_id)
  else
    seen ← is_downloaded deviation_id;
    if (seen : bool) then logging DEBUG (MsgAlreadyDownloaded deviation_id)
    else
      is_premium ← lift (is_premium_of deviation content);
      if (is_premium : bool) then
        logging INFO (MsgDetectedSubscription title deviation_id);;
        mark_subscription deviation_id artist title url;;
        if negb (DOWNLOAD_SUBSCRIPTIONS cfg) then mret tt
        else
          logging WARNING MsgDownloadAnyway;;
          fetch_and_store token artist deviation_id title content url
      else
        fetch_and_store token artist deviation_id title content url.

(** ** Main *)

Definition gallery_url : string :=
  "https://www.deviantart.com/api/v1/oauth2/gallery/all".

(** [for deviation in results: save_deviation(...); time.sleep(SLEEP_TIME)] *)
Fixpoint for_deviations (token : string) (artist : pyval) (results : list pyval)
    : M unit :=
  match results with
  | [] => mret tt
  | deviation :: rest =>
      save_deviation token artist deviation;;
      time_sleep SleepTime;;
      for_deviations token artist rest
  end.

(** The [while has_more] loop of one artist, entered with [has_more]
    true; [fuel] bounds the number of pages. *)
Fixpoint gallery_loop (fuel : nat) (token : string) (idx : Z) (artist : pyval)
    (current_offset : pyval) : M unit :=
  match fuel with
  | O => diverge
  | S fuel' =>
      let params := [("username", artist); ("access_token", PStr token);
                     ("offset", current_offset); ("limit", PInt 24)] in
      data ← deviantart_get gallery_url token params;
      results ← lift (Py.get data "results" (PList []));
      if negb (Py.truthy results) then
        logging INFO (MsgNoResults artist current_offset)
      else
        deviations ← lift (Py.iter results);
        for_deviations token artist deviations;;
        has_more ← lift (Py.get data "has_more" (PBool false));
        current_offset ← lift (Py.get data "next_offset" (PInt 0));
        save_progress idx current_offset;;
        if Py.truthy has_more then gallery_loop fuel' token idx artist current_offset
        else mret tt
  end.

(** [artists[start:]] for an integer [start] *)
Definition slice_from {A} (start : Z) (l : list A) : list A :=
  if start <? 0 then drop (Z.to_nat (Z.of_nat (length l) + start)) l
  else drop (Z.to_nat start) l.

(** [operator.index(v)]: an integer, a [bool] counting as one. *)
Definition index_of (v : pyval) : Result Z :=
  match v with
  | PInt n => Ok n
  | PBool b => Ok (if b then 1 else 0)
  | _ => Raise TypeError
  end.

(** [artists[start:]] for any value: the bound of a slice is [None] or
    has an index. *)
Definition slice_from_value {A} (start : pyval) (l : list A) : Result (list A) :=
  match start with
  | PNone => Ok l
  | _ => n ← index_of start; Ok (slice_from n l)
  end.

(** The [for idx, artist in enumerate(...)] loop; [start_offset] is the
    variable of that name, which the body resets when a walk ends
    without an exception. *)
Fixpoint for_artists (fuel : nat) (token : string) (total : nat)
    (start_artist_idx : Z) (start_offset : pyval) (idx : Z)
    (artists : list pyval) : M unit :=
  match artists with
  | [] => mret tt
  | artist :: rest =>
      logging INFO (MsgProcessing idx total artist);;
      start_offset ←
        try_except
          (let offset_to_use :=
             if idx =? start_artist_idx then start_offset else PInt 0 in
           gallery_loop fuel token idx artist offset_to_use;;
           mret (PInt 0))
          (fun e => logging ERROR (MsgArtistError artist e);;
                    mret start_offset);
      for_artists fuel token total start_artist_idx start_offset (idx + 1) rest
  end.

Definition main (fuel : nat) : M unit :=
  token ← get_access_token;
  artists ← get_followed_artists fuel token;
  logging INFO (MsgFound (length artists));;
  progress ← load_progress;
  start_artist_idx ← lift (Py.get progress "last_artist_index" (PInt 0));
  start_offset ← lift (Py.get progress "last_offset" (PInt 0));
  sliced ← lift (slice_from_value start_artist_idx artists);
  start ← lift (index_of start_artist_idx);      (* enumerate(..., start=...) *)
  for_artists fuel token (length artists) start start_offset start sliced;;
  save_progress 0 (PInt 0).

End Downloader.

(** * Observations on a run *)

(** The requests sent by [deviantart_get], oldest first. *)
Fixpoint requests (tr : list Event) : list Request :=
  match tr with
  | [] => []
  | EvGet rq :: tr' => rq :: requests tr'
  | _ :: tr' => requests tr'
  end.

(** How often the credential exchange was called. *)
Fixpoint token_posts (tr : list Event) : nat :=
  match tr with
  | [] => O
  | EvTokenPost :: tr' => S (token_posts tr')
  | _ :: tr' => token_posts tr'
  end.

(** The parsed body [deviantart_get] returns for a reply, if it is one
    it returns for: a response that is neither 429 nor 401 and is [ok]. *)
Definition success_body (reply : HttpReply) : option pyval :=
  match reply with
  | Responds r =>
      if (status_code r =? 429) || (status_code r =? 401) || negb (ok (status_code r))
      then None
      else Some (json r)
  | Fails => None
  end.

(** None of the requests [rqs], sent as API calls number [n], [n+1], ...,
    met a reply that [deviantart_get] returns for. *)
Definition failures (net : Network) (n : nat) (rqs : list Request) : Prop :=
  forall j rq, rqs !! j = Some rq -> success_body (api net (j + n) rq) = None.

(** The world after [chron] has happened (oldest first), with [a] more
    API calls and [t] more credential exchanges counted. *)
Definition advance (a t : nat) (chron : list Event) (w : World) : World :=
  {| n_api := a + n_api w; n_token := t + n_token w; n_asset := n_asset w;
     n_tagger := n_tagger w; events := rev chron ++ events w;
     downloads := downloads w; files := files w;
     progress_file := progress_file w;
     disk := disk w |}.

(** The events of a call of [deviantart_get] that meets [n] replies
    with status 429 in a row, entered with the counter at [retries]. *)
Fixpoint backoff_run (cfg : Config) (rq : Request) (retries : Z) (n : nat)
    : list Event :=
  match n with
  | O => []
  | S n' =>
      EvGet rq
      :: EvLog WARNING (MsgRateLimited (RATE_LIMIT_SLEEP cfg * (retries + 1)))
      :: EvSleep (Seconds (RATE_LIMIT_SLEEP cfg * (retries + 1)))
      :: backoff_run cfg rq (retries + 1) n'
  end.

(** The pauses of [tr], oldest first. *)
Fixpoint sleeps (tr : list Event) : list Delay :=
  match tr with
  | [] => []
  | EvSleep d :: tr' => d :: sleeps tr'
  | _ :: tr' => sleeps tr'
  end.

(** For each request of [tr], in order: the pause slept immediately
    before it, if the event before it is a pause ([prev] is the event
    before [tr]). *)
Fixpoint waits_before_aux (prev : option Event) (tr : list Event)
    : list (option Delay) :=
  match tr with
  | [] => []
  | e :: tr' =>
      match e with
      | EvGet _ =>
          match prev with
          | Some (EvSleep d) => Some d
          | _ => None
          end :: waits_before_aux (Some e) tr'
      | _ => waits_before_aux (Some e) tr'
      end
  end.

(** The pause slept immediately before attempt [k] of a call whose
    events are [tr]; the first attempt is attempt 1. *)
Definition wait_before (k : nat) (tr : list Event) : option Delay :=
  match k with
  | O => None
  | S i =>
      match waits_before_aux None tr !! i with
      | Some (Some d) => Some d
      | _ => None
      end
  end.

(** The first pause of [tr] that comes before any request. *)
Fixpoint pause_until_request (tr : list Event) : option Delay :=
  match tr with
  | [] => None
  | EvGet _ :: _ => None
  | EvSleep d :: _ => Some d
  | _ :: tr' => pause_until_request tr'
  end.

(** For each request of [tr], in order: the pause slept after it, before
    the next request. *)
Fixpoint waits_after (tr : list Event) : list (option Delay) :=
  match tr with
  | [] => []
  | EvGet _ :: tr' => pause_until_request tr' :: waits_after tr'
  | _ :: tr' => waits_after tr'
  end.

(** The pause slept after attempt [k], the first attempt being attempt 1. *)
Definition wait_after (k : nat) (tr : list Event) : option Delay :=
  match k with
  | O => None
  | S i =>
      match waits_after tr !! i with
      | Some (Some d) => Some d
      | _ => None
      end
  end.

(** The requests sent after the first credential exchange of [tr]. *)
Fixpoint requests_after_refresh (tr : list Event) : list Request :=
  match tr with
  | [] => []
  | EvTokenPost :: tr' => requests tr'
  | _ :: tr' => requests_after_refresh tr'
  end.

(** Once a token was acquired, every later request of the run carries
    the token of the request that follows the exchange. *)
Definition token_kept (tr : list Event) : Prop :=
  match requests_after_refresh tr with
  | [] => True
  | q :: qs => Forall (fun q' => req_token q' = req_token q) qs
  end.

(** *** The ledger *)

(** The rows filed under an identifier. *)
Definition rows_of (id : string) (t : list Row) : list Row :=
  filter (fun r => has_key id r = true) t.

(** What PRIMARY KEY promises of the table: at most one row for an
    identifier. *)
Definition primary_key (t : list Row) : Prop :=
  forall id, (length (rows_of id t) <= 1)%nat.

(** A call of one of the two recording functions, by its arguments
    after the identifier. *)
Inductive Recording : Type :=
| Downloaded (artist title url : pyval) (tags : list pyval)
| Restricted (artist title url : pyval).

Definition record (deviation_id : string) (c : Recording) : M unit :=
  match c with
  | Downloaded artist title url tags =>
      mark_downloaded (PStr deviation_id) artist title url tags
  | Restricted artist title url =>
      mark_subscription (PStr deviation_id) artist title url
  end.

(** The row a recording call inserts at time [now]; [None] when an
    argument cannot be bound. *)
Definition row_from (deviation_id : string) (c : Recording) (now : nat)
    : option Row :=
  match c with
  | Downloaded a t u tags =>
      match Py.join nl tags, sql_bind a, sql_bind t, sql_bind u with
      | Ok joined, Ok a', Ok t', Ok u' =>
          Some {| deviationid := Some deviation_id; artist := text_affinity a';
                  title := text_affinity t'; url := text_affinity u';
                  tags := Some joined; is_premium := 0;
                  downloaded_at := now |}
      | _, _, _, _ => None
      end
  | Restricted a t u =>
      match sql_bind a, sql_bind t, sql_bind u with
      | Ok a', Ok t', Ok u' =>
          Some {| deviationid := Some deviation_id; artist := text_affinity a';
                  title := text_affinity t'; url := text_affinity u';
                  tags := Some ""; is_premium := 1;
                  downloaded_at := now |}
      | _, _, _ => None
      end
  end.

(** *** Properties of computations *)

(** Whenever [m] ends, with a value or an exception, the world it
    leaves is related to the one it started from. *)
Definition preserves {A} (R : World -> World -> Prop) (m : M A) : Prop :=
  forall w r w', m w = Some (r, w') -> R w w'.

(** [m] ends from every world. *)
Definition total {A} (m : M A) : Prop :=
  forall w, exists r w', m w = Some (r, w').

(** [m] lets no exception out. *)
Definition never_raises {A} (m : M A) : Prop :=
  forall w r w', m w = Some (r, w') -> exists a, r = Ok a.

(** Rows on file stay on file, unchanged. *)
Definition ledger_kept (w w' : World) : Prop :=
  forall key row,
    select_row key (downloads w) = Some row ->
    select_row key (downloads w') = Some row.

(** [w'] is [w] after some more events, each of them allowed. *)
Definition emits (allowed : Event -> Prop) (w w' : World) : Prop :=
  exists new, events w' = new ++ events w /\ Forall allowed new.

(** The requests for a page of a gallery, oldest first. *)
Fixpoint page_requests (tr : list Event) : list Request :=
  match tr with
  | [] => []
  | EvGet q :: tr' =>
      if String.eqb (req_url q) gallery_url then q :: page_requests tr'
      else page_requests tr'
  | _ :: tr' => page_requests tr'
  end.

(** Anything but a request for a page of a gallery. *)
Definition not_a_page (e : Event) : Prop :=
  match e with
  | EvGet q => req_url q <> gallery_url
  | _ => True
  end.

(** *** The walk over the creators *)

(** The parameters of a request for a page of a gallery. *)
Definition gallery_params (token : string) (artist offset : pyval) : Params :=
  [("username", artist); ("access_token", PStr token); ("offset", offset);
   ("limit", PInt 24)].

(** The body of the [while has_more] loop after the page was fetched. *)
Definition after_fetch (cfg : Config) (net : Network) (fuel : nat) (token : string)
    (idx : Z) (artist current_offset data : pyval) : M unit :=
  results ← lift (Py.get data "results" (PList []));
  if negb (Py.truthy results) then
    logging INFO (MsgNoResults artist current_offset)
  else
    deviations ← lift (Py.iter results);
    for_deviations cfg net token artist deviations;;
    has_more ← lift (Py.get data "has_more" (PBool false));
    current_offset ← lift (Py.get data "next_offset" (PInt 0));
    save_progress idx current_offset;;
    if Py.truthy has_more then gallery_loop cfg net fuel token idx artist current_offset
    else mret tt.

(** The walk of one creator as the run controller frames it: the
    announcement, then the pages from [offset] on, any exception being
    logged and dropped. *)
Definition walk_one (cfg : Config) (net : Network) (fuel : nat) (token : string)
    (total : nat) (step : Z * pyval * pyval) : M unit :=
  let '(idx, artist, offset) := step in
  logging INFO (MsgProcessing idx total artist);;
  try_except (gallery_loop cfg net fuel token idx artist offset)
    (fun e => logging ERROR (MsgArtistError artist e)).

(** The walks of a list of (index, creator, starting offset), in order. *)
Fixpoint walks (cfg : Config) (net : Network) (fuel : nat) (token : string)
    (total : nat) (plan : list (Z * pyval * pyval)) : M unit :=
  match plan with
  | [] => mret tt
  | step :: rest =>
      walk_one cfg net fuel token total step;;
      walks cfg net fuel token total rest
  end.

(** What a resumed run has to do: the creators from index [idx] on,
    the first of them from [offset], the others from 0. *)
Fixpoint resume_plan (idx : Z) (offset : pyval) (artists : list pyval)
    : list (Z * pyval * pyval) :=
  match artists with
  | [] => []
  | artist :: rest => (idx, artist, offset) :: resume_plan (idx + 1) (PInt 0) rest
  end.

(** The indices of the creators announced in [tr], oldest first. *)
Fixpoint processed (tr : list Event) : list Z :=
  match tr with
  | [] => []
  | EvLog _ (MsgProcessing idx _ _) :: tr' => idx :: processed tr'
  | _ :: tr' => processed tr'
  end.

(** ** Scenarios *)

(** The defaults of the configuration block. *)
Definition default_config : Config :=
  {| CLIENT_ID := "client"; CLIENT_SECRET := "secret"; USERNAME := "me";
     SAVE_DIR := "./downloads"; MAX_RETRIES := 5; RATE_LIMIT_SLEEP := 30;
     FORCE_RECHECK := false; DOWNLOAD_SUBSCRIPTIONS := false |}.

(** The defaults, with the download of restricted items switched on. *)
Definition download_anyway : Config :=
  {| CLIENT_ID := "client"; CLIENT_SECRET := "secret"; USERNAME := "me";
     SAVE_DIR := "./downloads"; MAX_RETRIES := 5; RATE_LIMIT_SLEEP := 30;
     FORCE_RECHECK := false; DOWNLOAD_SUBSCRIPTIONS := true |}.

(** The number of path separators (character 47) of a path. *)
Fixpoint separators (path : string) : nat :=
  match path with
  | EmptyString => O
  | String c rest => ((if Ascii.eqb c (Ascii.ascii_of_nat 47) then 1 else 0) + separators rest)%nat
  end.

(** The disk of a working directory in which [./downloads] exists and
    is empty, for creators whose names have no path separator: every
    directory can be made, and a file can be created in [./downloads]
    and in a directory directly under it, and nowhere else. *)
Definition fresh_disk : Disk :=
  {| makedirs_error := fun _ _ => None;
     open_error := fun _ path =>
       if String.prefix "./downloads/" path && (separators path <=? 3)%nat then None
       else Some (FileNotFoundError path);
     progress_error := fun _ => None |}.

Definition empty_world : World :=
  {| n_api := 0; n_token := 0; n_asset := 0; n_tagger := 0; events := [];
     downloads := []; files := ∅; progress_file := NoFile; disk := fresh_disk |}.

Definition reply (status : Z) (body : pyval) : HttpReply :=
  Responds {| status_code := status; json := body |}.

(** A service that is rate limiting for good. *)
Definition always_429 : Network :=
  {| api := fun _ _ => reply 429 PNone;
     token_endpoint := fun _ => TokenResponds 200 "fresh";
     asset_host := fun _ _ => AssetFails;
     tagger := fun _ _ => Fails |}.

Definition friend (name : string) : pyval :=
  PDict [("user", PDict [("username", PStr name)])].

(** The token has expired: the first call is answered 401; after that
    the friends list comes in two pages. *)
Definition expired_token : Network :=
  {| api := fun n _ =>
       match n with
       | O => reply 401 PNone
       | 1%nat => reply 200 (PDict [("results", PList [friend "alice"]);
                                    ("has_more", PBool true);
                                    ("next_offset", PInt 24)])
       | _ => reply 200 (PDict [("results", PList [friend "bob"]);
                                ("has_more", PBool false);
                                ("next_offset", PNone)])
       end;
     token_endpoint := fun _ => TokenResponds 200 "fresh";
     asset_host := fun _ _ => AssetFails;
     tagger := fun _ _ => Fails |}.

(** A premium item without a content body. *)
Definition premium_item : list (string * pyval) :=
  [("deviationid", PStr "d1"); ("title", PStr "first"); ("premium_content", PBool true)].

(** The row of a restricted item of alice's, filed at time 0. *)
Definition restricted_row : Row :=
  {| deviationid := Some "d1"; artist := Some "alice"; title := Some "first";
     url := None; tags := Some ""; is_premium := 1; downloaded_at := 0 |}.

(** The friends list starts with an empty page that says there is more. *)
Definition empty_first_page : Network :=
  {| api := fun n _ =>
       match n with
       | O => reply 200 (PDict [("results", PList []); ("has_more", PBool true);
                                ("next_offset", PInt 24)])
       | _ => reply 200 (PDict [("results", PList [friend "bob"]);
                                ("has_more", PBool false);
                                ("next_offset", PNone)])
       end;
     token_endpoint := fun _ => TokenResponds 200 "fresh";
     asset_host := fun _ _ => AssetFails;
     tagger := fun _ _ => Fails |}.

(** A gallery of one page with one item, behind any friends list. *)
Definition one_page : Network :=
  {| api := fun _ q =>
       if String.eqb (req_url q) gallery_url then
         reply 200 (PDict [("results", PList [PDict premium_item]);
                           ("has_more", PBool false); ("next_offset", PNone)])
       else reply 200 (PDict [("results", PList []); ("has_more", PBool false)]);
     token_endpoint := fun _ => TokenResponds 200 "fresh";
     asset_host := fun _ _ => AssetFails;
     tagger := fun _ _ => Fails |}.

(** The request for the first page of the friends list of [me]. *)
Definition friends_page (token : string) : Request :=
  {| req_url := friends_url default_config; req_token := token;
     req_params := [("access_token", PStr token); ("offset", PInt 0);
                    ("limit", PInt 24)] |}.

(** The request for the first page of a gallery. *)
Definition gallery_page (token artist : string) : Request :=
  {| req_url := gallery_url; req_token := token;
     req_params := [("username", PStr artist); ("access_token", PStr token);
                    ("offset", PInt 0); ("limit", PInt 24)] |}.

(** The empty world after one request that was answered. *)
Definition after_request (q : Request) : World :=
  advance 1 0 [EvGet q] empty_world.

(** Four creators are followed; their galleries are empty. *)
Definition four_friends : Network :=
  {| api := fun _ q =>
       if String.eqb (req_url q) gallery_url then
         reply 200 (PDict [("results", PList []); ("has_more", PBool false)])
       else reply 200 (PDict [("results",
                               PList [friend "alice"; friend "bob"; friend "carol";
                                      friend "dave"]);
                              ("has_more", PBool false)]);
     token_endpoint := fun _ => TokenResponds 200 "fresh";
     asset_host := fun _ _ => AssetFails;
     tagger := fun _ _ => Fails |}.

(** The defaults, with FORCE_RECHECK switched on. *)
Definition force_recheck : Config :=
  {| CLIENT_ID := "client"; CLIENT_SECRET := "secret"; USERNAME := "me";
     SAVE_DIR := "./downloads"; MAX_RETRIES := 5; RATE_LIMIT_SLEEP := 30;
     FORCE_RECHECK := true; DOWNLOAD_SUBSCRIPTIONS := false |}.

(** A run was interrupted at creator 2, offset 10. *)
Definition interrupted : World :=
  with_progress_file (Saved (Some 2) (Some (PInt 10))) empty_world.

(** The interrupted run's successor after the credential exchange ... *)
Definition authenticated : World :=
  advance 0 1 [EvTokenPost; EvLog INFO MsgAuthenticated] interrupted.

(** ... and after the enumeration of the four creators. *)
Definition enumerated : World :=
  advance 1 0 [EvLog INFO MsgFetchingArtists; EvGet (friends_page "fresh");
               EvLog INFO (MsgFetched 4 4)] authenticated.

(** One creator, alice, whose gallery is one page with one free item. *)
Definition free_item : pyval :=
  PDict [("deviationid", PStr "d1"); ("title", PStr "first");
         ("url", PStr "http://x/d1"); ("premium_content", PBool false);
         ("content", PDict [("src", PStr "http://x/img")])].

Definition alice_one_item : Network :=
  {| api := fun _ q =>
       if String.eqb (req_url q) gallery_url then
         reply 200 (PDict [("results", PList [free_item]); ("has_more", PBool false);
                           ("next_offset", PNone)])
       else if String.eqb (req_url q) metadata_url then
         reply 200 (PDict [("metadata",
                            PList [PDict [("tags",
                                           PList [PDict [("tag_name", PStr "cat")]])]])])
       else reply 200 (PDict [("results", PList [friend "alice"]);
                              ("has_more", PBool false)]);
     token_endpoint := fun _ => TokenResponds 200 "fresh";
     asset_host := fun _ _ => AssetResponds 200 "IMG";
     tagger := fun _ _ => Fails |}.

(** ** More scenarios *)

(** A row from before the [is_premium] column. *)
Definition legacy_row : Schema.LegacyRow :=
  {| Schema.l_deviationid := Some "d0"; Schema.l_artist := Some "alice";
     Schema.l_title := Some "old"; Schema.l_url := None; Schema.l_tags := Some "";
     Schema.l_downloaded_at := 0 |}.


(** A reply that [deviantart_get] meets with its plain retry: no
    response at all, or a status that is not [ok] and is neither 429
    nor 401. *)
Definition plain_failure (reply : HttpReply) : bool :=
  match reply with
  | Responds r =>
      negb (status_code r =? 429) && negb (status_code r =? 401)
      && negb (ok (status_code r))
  | Fails => true
  end.

(** The events of passes that each send [rq], log an error and sleep
    [SLEEP_TIME], one pass for each of [msgs]. *)
Definition plain_retries (rq : Request) (msgs : list LogMsg) : list Event :=
  concat (map (fun msg => [EvGet rq; EvLog ERROR msg; EvSleep SleepTime]) msgs).

(** The events of passes that each send a request that is answered
    with 401 and exchange the credentials: the first request carries
    [token], the next ones the tokens [granted]. *)
Fixpoint refresh_run (url : string) (params : Params) (token : string)
    (granted : list string) : list Event :=
  match granted with
  | [] => []
  | token' :: granted' =>
      [EvGet {| req_url := url; req_token := token; req_params := params |};
       EvLog WARNING MsgTokenExpired; EvTokenPost; EvLog INFO MsgAuthenticated]
      ++ refresh_run url params token' granted'
  end.


(** The table, the files and the checkpoint are as they were. *)
Definition store_kept (w w' : World) : Prop :=
  downloads w' = downloads w /\ files w' = files w
  /\ progress_file w' = progress_file w.

(** What the enumeration of the followed creators may do: ask for a
    page of the friends list, exchange the credentials, sleep and log. *)
Definition enumeration_event (cfg : Config) (e : Event) : Prop :=
  match e with
  | EvGet q => req_url q = friends_url cfg
  | EvAssetGet _ | EvTaggerPost _ => False
  | _ => True
  end.

(** What the handling of one item may do: of the API, it only asks for
    the item's metadata. *)
Definition item_event (e : Event) : Prop :=
  match e with
  | EvGet q => req_url q = metadata_url
  | _ => True
  end.


(** *** The pages of the friends list *)

(** The request for the page of the friends list at [offset]. *)
Definition friends_request (cfg : Config) (token : string) (offset : pyval)
    : Request :=
  {| req_url := friends_url cfg; req_token := token;
     req_params := [("access_token", PStr token); ("offset", offset);
                    ("limit", PInt 24)] |}.

(** What [get_followed_artists] reads off a reply: the names [batch],
    whether there is [more], and the offset of the [next] page. *)
Definition is_page (data : pyval) (batch : list pyval) (more : bool)
    (next : pyval) : Prop :=
  exists results fs has_more,
    Py.get data "results" (PList []) = Ok results
    /\ Py.iter results = Ok fs
    /\ comprehension username_of fs = Ok batch
    /\ Py.get data "has_more" PNone = Ok has_more
    /\ Py.truthy has_more = more
    /\ Py.get data "next_offset" (PInt 0) = Ok next.

(** From API call number [n] on, the service answers the request for
    the page at [offset] at once, with the first of [pages] (names and
    next offset), and so on along the offsets; only the last page says
    that there is no more. *)
Fixpoint serves (cfg : Config) (net : Network) (token : string) (n : nat)
    (offset : pyval) (pages : list (list pyval * pyval)) : Prop :=
  match pages with
  | [] => True
  | (batch, next) :: rest =>
      (exists data,
          success_body (api net n (friends_request cfg token offset)) = Some data
          /\ is_page data batch (match rest with [] => false | _ => true end) next)
      /\ serves cfg net token (S n) next rest
  end.

(** The requests for [pages], the first one at [offset]. *)
Fixpoint friends_requests (cfg : Config) (token : string) (offset : pyval)
    (pages : list (list pyval * pyval)) : list Request :=
  match pages with
  | [] => []
  | (_, next) :: rest =>
      friends_request cfg token offset :: friends_requests cfg token next rest
  end.

(** Two creators are followed; the friends list comes one name a page. *)
Definition two_pages : Network :=
  {| api := fun n _ =>
       match n with
       | O => reply 200 (PDict [("results", PList [friend "alice"]);
                                ("has_more", PBool true); ("next_offset", PInt 24)])
       | _ => reply 200 (PDict [("results", PList [friend "bob"]);
                                ("has_more", PBool false); ("next_offset", PNone)])
       end;
     token_endpoint := fun _ => TokenResponds 200 "fresh";
     asset_host := fun _ _ => AssetFails;
     tagger := fun _ _ => Fails |}.

(** The friends list never says that it is complete. *)
Definition endless_friends : Network :=
  {| api := fun _ _ =>
       reply 200 (PDict [("results", PList [friend "alice"]);
                         ("has_more", PBool true); ("next_offset", PInt 0)]);
     token_endpoint := fun _ => TokenResponds 200 "fresh";
     asset_host := fun _ _ => AssetFails;
     tagger := fun _ _ => Fails |}.


(** *** The handling of one item *)

(** [save_deviation] after the four fields were read off the item. *)
Definition classify_and_store (cfg : Config) (net : Network) (token : string)
    (artist deviation deviation_id title content url : pyval) : M unit :=
  known ← is_subscription deviation_id;
  if (known : bool) then logging DEBUG (MsgKnownSubscription title deviation_id)
  else
    seen ← is_downloaded deviation_id;
    if (seen : bool) then logging DEBUG (MsgAlreadyDownloaded deviation_id)
    else
      is_premium ← lift (is_premium_of deviation content);
      if (is_premium : bool) then
        logging INFO (MsgDetectedSubscription title deviation_id);;
        mark_subscription deviation_id artist title url;;
        if negb (DOWNLOAD_SUBSCRIPTIONS cfg) then mret tt
        else
          logging WARNING MsgDownloadAnyway;;
          fetch_and_store cfg net token artist deviation_id title content url
      else
        fetch_and_store cfg net token artist deviation_id title content url.

(** [deviation.get(k, default)] on the fields of an item. *)
Definition field (fields : list (string * pyval)) (k : string) (default : pyval)
    : pyval :=
  match Py.lookup k fields with Some x => x | None => default end.

(** A gallery page on which the second item has no identifier. *)
Definition nameless_item : pyval :=
  PDict [("title", PStr "second"); ("url", PStr "http://x/d2")].

Definition page_with_nameless_item : Network :=
  {| api := fun _ q =>
       if String.eqb (req_url q) gallery_url then
         reply 200 (PDict [("results", PList [free_item; nameless_item; free_item]);
                           ("has_more", PBool false); ("next_offset", PNone)])
       else reply 200 (PDict []);
     token_endpoint := fun _ => TokenResponds 200 "fresh";
     asset_host := fun _ _ => AssetFails;
     tagger := fun _ _ => Fails |}.

(** Nothing answers: the API and the asset host fail every time. *)
Definition all_down : Network :=
  {| api := fun _ _ => Fails;
     token_endpoint := fun _ => TokenFails;
     asset_host := fun _ _ => AssetFails;
     tagger := fun _ _ => Fails |}.


(** The credential exchange that does not grant a token: no response,
    or a status that is not [ok]. *)
Definition token_refused (r : TokenReply) : bool :=
  match r with
  | TokenFails => true
  | TokenResponds status _ => negb (ok status)
  end.

(** The token has expired and the credential exchange is down; the
    service then answers with the old token after all. *)
Definition refresh_down : Network :=
  {| api := fun n _ =>
       match n with
       | O => reply 401 PNone
       | _ => reply 200 (PDict [("results", PList [])])
       end;
     token_endpoint := fun _ => TokenFails;
     asset_host := fun _ _ => AssetFails;
     tagger := fun _ _ => Fails |}.


(** *** The start of the walk over the creators *)

(** What [main] makes of the loaded progress value and the list of the
    creators: the index the walk starts at, the offset of its first
    creator, and the creators that are left.  The lookups raise on a
    value that is no object, the slice and [enumerate] on an index that
    is no integer. *)
Definition start_position (progress : pyval) (artists : list pyval)
    : Result (Z * pyval * list pyval) :=
  start_artist_idx ← Py.get progress "last_artist_index" (PInt 0);
  start_offset ← Py.get progress "last_offset" (PInt 0);
  sliced ← slice_from_value start_artist_idx artists;
  start ← index_of start_artist_idx;
  Ok (start, start_offset, sliced).

(** A progress file [main] can start from: no file, a file that cannot
    be read or parsed, or an object whose [last_artist_index], when
    present, is an integer (or a [bool]). *)
Definition checkpoint_usable (f : ProgressFile) : bool :=
  match f with
  | NoFile | Unreadable => true
  | Parsed (PDict d) =>
      match Py.lookup "last_artist_index" d with
      | None | Some (PInt _) | Some (PBool _) => true
      | Some _ => false
      end
  | Parsed _ => false
  end.



(** * Verification *)

Ltac munfold :=
  unfold mbind, M_bind, mret, M_ret, bind, ret, raise, lift, try_except,
    get_world, modify, logging, time_sleep, emit in *.

Lemma advance_advance a1 t1 c1 a2 t2 c2 w :
  advance a2 t2 c2 (advance a1 t1 c1 w) = advance (a1 + a2) (t1 + t2) (c1 ++ c2) w.
Proof.
  unfold advance; cbn. f_equal; try lia.
  rewrite rev_app_distr, app_assoc. reflexivity.
Qed.

Lemma trace_advance a t chron w : trace (advance a t chron w) = trace w ++ chron.
Proof. unfold trace, advance; cbn. rewrite rev_app_distr, rev_involutive. reflexivity. Qed.

Lemma requests_app tr1 tr2 : requests (tr1 ++ tr2) = requests tr1 ++ requests tr2.
Proof.
  induction tr1 as [|e tr1 IH]; [reflexivity|].
  destruct e; cbn; rewrite ?IH; reflexivity.
Qed.

Lemma token_posts_app tr1 tr2 : token_posts (tr1 ++ tr2) = (token_posts tr1 + token_posts tr2)%nat.
Proof.
  induction tr1 as [|e tr1 IH]; [reflexivity|].
  destruct e; cbn; rewrite ?IH; reflexivity.
Qed.

Section DeviantartGet.

Variable cfg : Config.
Variable net : Network.
Variable url : string.
Variable params : Params.

Let rq (token : string) : Request :=
  {| req_url := url; req_token := token; req_params := params |}.

Hypothesis rate_nonneg : 0 <= RATE_LIMIT_SLEEP cfg.

(** One pass through the loop body, by the reply it meets. *)
Lemma attempt_429 retries token w r :
  api net (n_api w) (rq token) = Responds r ->
  status_code r = 429 ->
  0 <= retries ->
  attempt cfg net url params retries token w =
    Some (Ok (Continue (retries + 1) token),
          advance 1 0 [EvGet (rq token);
                       EvLog WARNING (MsgRateLimited (RATE_LIMIT_SLEEP cfg * (retries + 1)));
                       EvSleep (Seconds (RATE_LIMIT_SLEEP cfg * (retries + 1)))] w).
Proof.
  intros H Hs Hn. unfold attempt, requests_get. munfold. cbn.
  fold (rq token). rewrite H, Hs. cbn.
  destruct (Z.ltb_spec (RATE_LIMIT_SLEEP cfg * (retries + 1)) 0); [nia|].
  destruct w; reflexivity.
Qed.

Lemma attempt_401_granted retries token w r status token' :
  api net (n_api w) (rq token) = Responds r ->
  status_code r = 401 ->
  token_endpoint net (n_token w) = TokenResponds status token' ->
  ok status = true ->
  attempt cfg net url params retries token w =
    Some (Ok (Continue (retries + 1) token'),
          advance 1 1 [EvGet (rq token); EvLog WARNING MsgTokenExpired;
                       EvTokenPost; EvLog INFO MsgAuthenticated] w).
Proof.
  intros H Hs Ht Hok. unfold attempt, requests_get, get_access_token. munfold. cbn.
  fold (rq token). rewrite H, Hs. cbn. rewrite Ht, Hok. cbn.
  destruct w; reflexivity.
Qed.

Lemma attempt_success retries token w body :
  success_body (api net (n_api w) (rq token)) = Some body ->
  attempt cfg net url params retries token w =
    Some (Ok (Return body), advance 1 0 [EvGet (rq token)] w).
Proof.
  unfold success_body. intros H.
  unfold attempt, requests_get. munfold. cbn. fold (rq token).
  destruct (api net (n_api w) (rq token)) as [r|]; [|discriminate]. cbn.
  destruct (status_code r =? 429); [discriminate|].
  destruct (status_code r =? 401); [discriminate|].
  destruct (ok (status_code r)); [|discriminate]. cbn in *.
  injection H as <-. destruct w; reflexivity.
Qed.

(** Whatever the reply, a pass sends one request and ends without an
    exception: it returns the body of a successful reply, and goes
    back to the loop test with [retries + 1] after any other. *)
Lemma attempt_spec retries token w :
  0 <= retries ->
  exists c t chron,
    attempt cfg net url params retries token w = Some (Ok c, advance 1 t chron w)
    /\ requests chron = [rq token]
    /\ match success_body (api net (n_api w) (rq token)) with
       | Some body => c = Return body
       | None => exists token', c = Continue (retries + 1) token'
       end.
Proof.
  intros Hn.
  destruct (success_body (api net (n_api w) (rq token))) as [body|] eqn:Hsb.
  { exists (Return body), O, [EvGet (rq token)].
    split; [apply attempt_success; assumption|]. split; reflexivity. }
  unfold success_body in Hsb.
  unfold attempt, requests_get, get_access_token. munfold. cbn. fold (rq token).
  destruct (api net (n_api w) (rq token)) as [r|]; cbn.
  - destruct (status_code r =? 429) eqn:E429; cbn.
    { destruct (Z.ltb_spec (RATE_LIMIT_SLEEP cfg * (retries + 1)) 0); [nia|].
      eexists _, O, [EvGet (rq token); _; _].
      split; [destruct w; reflexivity|]. split; [reflexivity|]. eauto. }
    destruct (status_code r =? 401) eqn:E401; cbn.
    { destruct (token_endpoint net (n_token w)) as [status token'|]; cbn.
      - destruct (ok status); cbn.
        + eexists _, 1%nat, [EvGet (rq token); _; _; _].
          split; [destruct w; reflexivity|]. split; [reflexivity|]. eauto.
        + eexists _, 1%nat, [EvGet (rq token); _; _; _; _].
          split; [destruct w; reflexivity|]. split; [reflexivity|]. eauto.
      - eexists _, 1%nat, [EvGet (rq token); _; _; _; _].
        split; [destruct w; reflexivity|]. split; [reflexivity|]. eauto. }
    cbn in Hsb. destruct (ok (status_code r)); [discriminate|]. cbn.
    eexists _, O, [EvGet (rq token); _; _].
    split; [destruct w; reflexivity|]. split; [reflexivity|]. eauto.
  - eexists _, O, [EvGet (rq token); _; _].
    split; [destruct w; reflexivity|]. split; [reflexivity|]. eauto.
Qed.

Lemma advance_0 w : advance 0 0 [] w = w.
Proof. destruct w; reflexivity. Qed.

Lemma failures_nil n : failures net n [].
Proof. intros j q H. rewrite lookup_nil in H. discriminate. Qed.

Lemma failures_cons n rq0 rqs :
  success_body (api net n rq0) = None ->
  failures net (S n) rqs ->
  failures net n (rq0 :: rqs).
Proof.
  intros H0 H [|j] q Hj; cbn in Hj.
  - injection Hj as <-. exact H0.
  - replace (S j + n)%nat with (j + S n)%nat by lia. apply H; assumption.
Qed.

(** The loop, from any value of the counter: it ends within the
    attempts that are left, with the body of the first successful
    reply or, when all of them failed, with the [RuntimeError]. *)
Lemma deviantart_get_loop_spec fuel : forall retries token w,
  0 <= retries ->
  (Z.to_nat (MAX_RETRIES cfg - retries) <= fuel)%nat ->
  exists r a t chron,
    deviantart_get_loop cfg net fuel url params retries token w
      = Some (r, advance a t chron w)
    /\ length (requests chron) = a
    /\ (a <= Z.to_nat (MAX_RETRIES cfg - retries))%nat
    /\ Forall (fun q => req_url q = url /\ req_params q = params) (requests chron)
    /\ match r with
       | Ok body =>
           exists pre last,
             requests chron = pre ++ [last]
             /\ failures net (n_api w) pre
             /\ success_body (api net (length pre + n_api w) last) = Some body
       | Raise e =>
           e = RuntimeError (MAX_RETRIES cfg) url
           /\ a = Z.to_nat (MAX_RETRIES cfg - retries)
           /\ failures net (n_api w) (requests chron)
       end.
Proof.
  induction fuel as [|fuel IH]; intros retries token w Hn Hfuel.
  - assert (MAX_RETRIES cfg <= retries) by lia.
    cbn. destruct (Z.ltb_spec retries (MAX_RETRIES cfg)); [lia|].
    exists (Raise (RuntimeError (MAX_RETRIES cfg) url)), O, O, [].
    rewrite advance_0. repeat split; auto using failures_nil; cbn; lia.
  - cbn. destruct (Z.ltb_spec retries (MAX_RETRIES cfg)) as [Hlt|Hge].
    2:{ exists (Raise (RuntimeError (MAX_RETRIES cfg) url)), O, O, [].
        rewrite advance_0. repeat split; auto using failures_nil; cbn; lia. }
    destruct (attempt_spec retries token w Hn) as (c & t & chron & Hatt & Hrq & Hc).
    munfold. rewrite Hatt.
    destruct (success_body (api net (n_api w) (rq token))) as [body|] eqn:Hsb.
    + subst c. exists (Ok body), 1%nat, t, chron.
      rewrite Hrq. repeat split; cbn; auto; try lia.
      exists [], (rq token). repeat split; auto using failures_nil.
    + destruct Hc as (token' & ->).
      destruct (IH (retries + 1) token' (advance 1 t chron w)) as
        (r & a & t' & chron' & Hloop & Hlen & Hle & Hall & Hres); [lia|lia|].
      rewrite Hloop, advance_advance.
      exists r, (1 + a)%nat, (t + t')%nat, (chron ++ chron').
      rewrite requests_app, Hrq. cbn [app length].
      split; [reflexivity|]. split; [lia|]. split; [lia|].
      split; [constructor; auto|].
      destruct r as [body|e].
      * destruct Hres as (pre & last & Hpre & Hfail & Hlast).
        exists (rq token :: pre), last. rewrite Hpre. split; [reflexivity|].
        split; [apply failures_cons; assumption|].
        cbn [length]. cbn in Hlast.
        replace (S (length pre) + n_api w)%nat with (length pre + S (n_api w))%nat by lia.
        exact Hlast.
      * destruct Hres as (-> & -> & Hfail).
        split; [reflexivity|]. split; [lia|].
        apply failures_cons; assumption.
Qed.

End DeviantartGet.

(** ** Bounded retries (C10) *)

(** C10. Whatever the replies are (successes, 429s, 401s, other
    statuses, transport exceptions), [deviantart_get] ends: it sends at
    most [MAX_RETRIES] requests, all for the same URL and parameters;
    each reply that is not a success, a 401 with its token refresh
    included, uses up one of them; the call returns the parsed body of
    the first successful reply, or raises the [RuntimeError] once
    [MAX_RETRIES] requests have all failed. *)
Theorem deviantart_get_bounded cfg net url token params w :
  0 <= RATE_LIMIT_SLEEP cfg ->
  exists r a t chron,
    deviantart_get cfg net url token params w = Some (r, advance a t chron w)
    /\ length (requests chron) = a
    /\ (a <= Z.to_nat (MAX_RETRIES cfg))%nat
    /\ Forall (fun q => req_url q = url /\ req_params q = params) (requests chron)
    /\ match r with
       | Ok body =>
           exists pre last,
             requests chron = pre ++ [last]
             /\ failures net (n_api w) pre
             /\ success_body (api net (length pre + n_api w) last) = Some body
       | Raise e =>
           e = RuntimeError (MAX_RETRIES cfg) url
           /\ a = Z.to_nat (MAX_RETRIES cfg)
           /\ failures net (n_api w) (requests chron)
       end.
Proof.
  intros Hrate. unfold deviantart_get.
  destruct (deviantart_get_loop_spec cfg net url params Hrate
              (Z.to_nat (MAX_RETRIES cfg)) 0 token w)
    as (r & a & t & chron & H); [lia|lia|].
  rewrite Z.sub_0_r in H. exists r, a, t, chron. exact H.
Qed.

Lemma deviantart_get_bounded_witness :
  exists r a t chron,
    deviantart_get default_config always_429 "u" "t0" [] empty_world
      = Some (r, advance a t chron empty_world)
    /\ length (requests chron) = a
    /\ (a <= Z.to_nat (MAX_RETRIES default_config))%nat
    /\ Forall (fun q => req_url q = "u" /\ req_params q = []) (requests chron)
    /\ match r with
       | Ok body =>
           exists pre last,
             requests chron = pre ++ [last]
             /\ failures always_429 (n_api empty_world) pre
             /\ success_body (api always_429 (length pre + n_api empty_world) last)
                = Some body
       | Raise e =>
           e = RuntimeError (MAX_RETRIES default_config) "u"
           /\ a = Z.to_nat (MAX_RETRIES default_config)
           /\ failures always_429 (n_api empty_world) (requests chron)
       end.
Proof.
  apply (deviantart_get_bounded default_config always_429 "u" "t0" [] empty_world).
  vm_compute. discriminate.
Defined.

(** ** Rate limiting for good (C2) *)

Section AlwaysRateLimited.

Variable cfg : Config.
Variable net : Network.
Variable url : string.
Variable params : Params.

Hypothesis rate_nonneg : 0 <= RATE_LIMIT_SLEEP cfg.
Hypothesis all_429 : forall n q, exists r, api net n q = Responds r /\ status_code r = 429.

Lemma deviantart_get_loop_429 fuel : forall retries token w,
  0 <= retries ->
  (Z.to_nat (MAX_RETRIES cfg - retries) <= fuel)%nat ->
  deviantart_get_loop cfg net fuel url params retries token w =
    Some (Raise (RuntimeError (MAX_RETRIES cfg) url),
          advance (Z.to_nat (MAX_RETRIES cfg - retries)) 0
            (backoff_run cfg
               {| req_url := url; req_token := token; req_params := params |}
               retries (Z.to_nat (MAX_RETRIES cfg - retries))) w).
Proof.
  induction fuel as [|fuel IH]; intros retries token w Hn Hfuel.
  - replace (Z.to_nat (MAX_RETRIES cfg - retries)) with O by lia.
    cbn. destruct (Z.ltb_spec retries (MAX_RETRIES cfg)); [lia|].
    rewrite advance_0. reflexivity.
  - cbn. destruct (Z.ltb_spec retries (MAX_RETRIES cfg)) as [Hlt|Hge].
    2:{ replace (Z.to_nat (MAX_RETRIES cfg - retries)) with O by lia.
        cbn. rewrite advance_0. reflexivity. }
    destruct (all_429 (n_api w)
                {| req_url := url; req_token := token; req_params := params |})
      as (r & Hr & Hs).
    munfold. rewrite (attempt_429 cfg net url params rate_nonneg retries token w r Hr Hs Hn).
    rewrite IH by lia. rewrite advance_advance.
    replace (Z.to_nat (MAX_RETRIES cfg - retries))
      with (S (Z.to_nat (MAX_RETRIES cfg - (retries + 1)))) by lia.
    reflexivity.
Qed.

Lemma requests_backoff_run rq retries n :
  requests (backoff_run cfg rq retries n) = repeat rq n.
Proof.
  revert retries. induction n as [|n IH]; intros retries; cbn; [reflexivity|].
  rewrite IH. reflexivity.
Qed.

Lemma sleeps_backoff_run rq n : forall retries,
  sleeps (backoff_run cfg rq retries n)
    = map (fun k => Seconds (RATE_LIMIT_SLEEP cfg * (retries + Z.of_nat k))) (seq 1 n).
Proof.
  induction n as [|n IH]; intros retries; [reflexivity|].
  cbn [backoff_run sleeps seq map]. rewrite IH. f_equal.
  rewrite <- (seq_shift n 1), map_map. apply map_ext. intros k. do 2 f_equal.
  rewrite Nat2Z.inj_succ. lia.
Qed.

Lemma waits_before_backoff_run rq n : forall retries prev,
  waits_before_aux prev (backoff_run cfg rq retries (S n)) =
    match prev with Some (EvSleep d) => Some d | _ => None end
    :: map (fun i => Some (Seconds (RATE_LIMIT_SLEEP cfg * (retries + 1 + Z.of_nat i))))
         (seq 0 n).
Proof.
  induction n as [|n IH]; intros retries prev.
  - reflexivity.
  - change (backoff_run cfg rq retries (S (S n)))
      with (EvGet rq
            :: EvLog WARNING (MsgRateLimited (RATE_LIMIT_SLEEP cfg * (retries + 1)))
            :: EvSleep (Seconds (RATE_LIMIT_SLEEP cfg * (retries + 1)))
            :: backoff_run cfg rq (retries + 1) (S n)).
    cbn [waits_before_aux]. rewrite IH. f_equal.
    cbn [seq map]. f_equal.
    + do 3 f_equal. lia.
    + rewrite <- seq_shift, map_map. apply map_ext. intros i. do 3 f_equal. lia.
Qed.

Lemma wait_before_backoff_run rq n k :
  (1 < k <= n)%nat ->
  wait_before k (backoff_run cfg rq 0 n)
    = Some (Seconds (RATE_LIMIT_SLEEP cfg * (Z.of_nat k - 1))).
Proof.
  intros Hk. unfold wait_before. destruct n as [|n]; [lia|].
  rewrite waits_before_backoff_run. destruct k as [|[|k]]; [lia|lia|].
  rewrite lookup_cons.
  match goal with |- context [map ?f ?l] => change (map f l) with (f <$> l) end.
  rewrite list_lookup_fmap, lookup_seq_lt by lia. cbn.
  do 3 f_equal. lia.
Qed.

Lemma wait_before_first rq retries n : wait_before 1 (backoff_run cfg rq retries n) = None.
Proof. destruct n; reflexivity. Qed.

Lemma waits_after_backoff_run rq n : forall retries,
  waits_after (backoff_run cfg rq retries n)
    = map (fun k => Some (Seconds (RATE_LIMIT_SLEEP cfg * (retries + Z.of_nat k))))
        (seq 1 n).
Proof.
  induction n as [|n IH]; intros retries; [reflexivity|].
  cbn [backoff_run waits_after pause_until_request seq map]. rewrite IH. f_equal.
  rewrite <- (seq_shift n 1), map_map. apply map_ext. intros k. do 3 f_equal.
  rewrite Nat2Z.inj_succ. lia.
Qed.

Lemma wait_after_backoff_run rq n k :
  (1 <= k <= n)%nat ->
  wait_after k (backoff_run cfg rq 0 n) = Some (Seconds (RATE_LIMIT_SLEEP cfg * Z.of_nat k)).
Proof.
  intros Hk. unfold wait_after. destruct k as [|k]; [lia|].
  rewrite waits_after_backoff_run.
  match goal with |- context [map ?f ?l] => change (map f l) with (f <$> l) end.
  rewrite list_lookup_fmap, lookup_seq_lt by lia. cbn [fmap option_fmap option_map].
  rewrite Z.add_0_l. reflexivity.
Qed.

End AlwaysRateLimited.

(** C2, as amended. When every reply is a 429, [deviantart_get] sends
    exactly [MAX_RETRIES] requests and then raises the [RuntimeError]
    that names the URL.  The run is request, warning, pause of
    [RATE_LIMIT_SLEEP * 1], request, warning, pause of
    [RATE_LIMIT_SLEEP * 2], and so on, the last pause being followed
    by the error: the pause slept after attempt [k] is
    [RATE_LIMIT_SLEEP * k], for [k] from 1 to [MAX_RETRIES]; nothing
    is slept before attempt 1, and the pause slept before a later
    attempt [k] is [RATE_LIMIT_SLEEP * (k - 1)]. *)
Theorem deviantart_get_always_429 cfg net url token params w :
  0 <= RATE_LIMIT_SLEEP cfg ->
  (forall n q, exists r, api net n q = Responds r /\ status_code r = 429) ->
  let rq := {| req_url := url; req_token := token; req_params := params |} in
  let attempts := Z.to_nat (MAX_RETRIES cfg) in
  let chron := backoff_run cfg rq 0 attempts in
  deviantart_get cfg net url token params w
    = Some (Raise (RuntimeError (MAX_RETRIES cfg) url), advance attempts 0 chron w)
  /\ requests chron = repeat rq attempts
  /\ (0 <= MAX_RETRIES cfg -> Z.of_nat (length (requests chron)) = MAX_RETRIES cfg)
  /\ sleeps chron
     = map (fun k => Seconds (RATE_LIMIT_SLEEP cfg * Z.of_nat k)) (seq 1 attempts)
  /\ (forall k, (1 <= k <= attempts)%nat ->
        wait_after k chron = Some (Seconds (RATE_LIMIT_SLEEP cfg * Z.of_nat k)))
  /\ wait_before 1 chron = None
  /\ (forall k, (1 < k <= attempts)%nat ->
        wait_before k chron
          = Some (Seconds (RATE_LIMIT_SLEEP cfg * (Z.of_nat k - 1)))).
Proof.
  intros Hrate H429 rq attempts chron. subst rq attempts chron.
  split; [|split; [|split; [|split; [|split; [|split]]]]].
  - unfold deviantart_get.
    rewrite (deviantart_get_loop_429 cfg net url params Hrate H429) by lia.
    rewrite Z.sub_0_r. reflexivity.
  - apply requests_backoff_run.
  - intros Hmax. rewrite requests_backoff_run, repeat_length. lia.
  - apply sleeps_backoff_run.
  - intros k Hk. apply wait_after_backoff_run. exact Hk.
  - apply wait_before_first.
  - intros k Hk. apply wait_before_backoff_run. exact Hk.
Qed.

Lemma deviantart_get_always_429_witness :
  let rq := {| req_url := "u"; req_token := "t0"; req_params := [] |} in
  let attempts := Z.to_nat (MAX_RETRIES default_config) in
  let chron := backoff_run default_config rq 0 attempts in
  deviantart_get default_config always_429 "u" "t0" [] empty_world
    = Some (Raise (RuntimeError (MAX_RETRIES default_config) "u"),
            advance attempts 0 chron empty_world)
  /\ requests chron = repeat rq attempts
  /\ (0 <= MAX_RETRIES default_config ->
      Z.of_nat (length (requests chron)) = MAX_RETRIES default_config)
  /\ sleeps chron
     = map (fun k => Seconds (RATE_LIMIT_SLEEP default_config * Z.of_nat k))
         (seq 1 attempts)
  /\ (forall k, (1 <= k <= attempts)%nat ->
        wait_after k chron = Some (Seconds (RATE_LIMIT_SLEEP default_config * Z.of_nat k)))
  /\ wait_before 1 chron = None
  /\ (forall k, (1 < k <= attempts)%nat ->
        wait_before k chron
          = Some (Seconds (RATE_LIMIT_SLEEP default_config * (Z.of_nat k - 1)))).
Proof.
  apply (deviantart_get_always_429 default_config always_429 "u" "t0" [] empty_world).
  - vm_compute. discriminate.
  - intros n q. eexists. split; reflexivity.
Defined.

(** C2, as stated, fails on the pauses: under the defaults (five
    attempts, 30 seconds) nothing is slept before attempt 1, and what is
    slept before attempt 2 is 30 seconds, not 60. *)
Lemma wait_before_attempt_is_one_step_behind :
  exists w',
    deviantart_get default_config always_429 "u" "t0" [] empty_world
      = Some (Raise (RuntimeError 5 "u"), w')
    /\ length (requests (trace w')) = 5%nat
    /\ wait_before 1 (trace w') = None
    /\ wait_before 2 (trace w') = Some (Seconds 30)
    /\ ~ (forall k, (1 <= k <= 5)%nat ->
            wait_before k (trace w')
              = Some (Seconds (RATE_LIMIT_SLEEP default_config * Z.of_nat k))).
Proof.
  eexists. split; [vm_compute; reflexivity|].
  split; [vm_compute; reflexivity|]. split; [vm_compute; reflexivity|].
  split; [vm_compute; reflexivity|].
  intros H. specialize (H 2%nat ltac:(lia)). vm_compute in H. discriminate H.
Qed.

(** ** Token refresh (C1) *)

(** C1, as amended. When the first reply to a call of [deviantart_get]
    is a 401, the credential exchange grants a token and the second
    reply is a success, the call invokes [get_access_token] exactly
    once, sends exactly one more request, which carries the new token,
    and returns the parsed body of that second reply.  The new token
    is a local of the call: the body is all that is returned. *)
Theorem deviantart_get_refreshes_once cfg net url token params w r1 status token' body :
  2 <= MAX_RETRIES cfg ->
  api net (n_api w) {| req_url := url; req_token := token; req_params := params |}
    = Responds r1 ->
  status_code r1 = 401 ->
  token_endpoint net (n_token w) = TokenResponds status token' ->
  ok status = true ->
  success_body
    (api net (S (n_api w)) {| req_url := url; req_token := token'; req_params := params |})
    = Some body ->
  let first := {| req_url := url; req_token := token; req_params := params |} in
  let retry := {| req_url := url; req_token := token'; req_params := params |} in
  let chron := [EvGet first; EvLog WARNING MsgTokenExpired; EvTokenPost;
                EvLog INFO MsgAuthenticated; EvGet retry] in
  deviantart_get cfg net url token params w = Some (Ok body, advance 2 1 chron w)
  /\ token_posts chron = 1%nat
  /\ requests chron = [first; retry].
Proof.
  intros Hmax H1 Hs1 Htok Hok H2 first retry chron. subst first retry chron.
  split; [|split; reflexivity].
  unfold deviantart_get.
  destruct (Z.to_nat (MAX_RETRIES cfg)) as [|[|fuel]] eqn:E; try lia.
  cbn [deviantart_get_loop].
  destruct (Z.ltb_spec 0 (MAX_RETRIES cfg)); [|lia].
  munfold.
  rewrite (attempt_401_granted cfg net url params 0 token w r1 status token' H1 Hs1 Htok Hok).
  destruct (Z.ltb_spec (0 + 1) (MAX_RETRIES cfg)); [|lia].
  rewrite (attempt_success cfg net url params (0 + 1) token' _ body) by exact H2.
  rewrite advance_advance. reflexivity.
Qed.

Lemma deviantart_get_refreshes_once_witness :
  let first := {| req_url := "u"; req_token := "stale"; req_params := [] |} in
  let retry := {| req_url := "u"; req_token := "fresh"; req_params := [] |} in
  let chron := [EvGet first; EvLog WARNING MsgTokenExpired; EvTokenPost;
                EvLog INFO MsgAuthenticated; EvGet retry] in
  deviantart_get default_config expired_token "u" "stale" [] empty_world
    = Some (Ok (PDict [("results", PList [friend "alice"]); ("has_more", PBool true);
                       ("next_offset", PInt 24)]),
            advance 2 1 chron empty_world)
  /\ token_posts chron = 1%nat
  /\ requests chron = [first; retry].
Proof.
  apply (deviantart_get_refreshes_once default_config expired_token "u" "stale" []
           empty_world {| status_code := 401; json := PNone |} 200 "fresh").
  - vm_compute. discriminate.
  - reflexivity.
  - reflexivity.
  - reflexivity.
  - reflexivity.
  - reflexivity.
Defined.

(** C1, as stated, fails on its last clause: the caller does not see
    the new token.  [get_followed_artists] is called with a token that
    has expired; its first page costs one credential exchange and one
    retried request, and its second page is asked for with the old
    token again. *)
Lemma refreshed_token_is_not_kept :
  exists w',
    get_followed_artists default_config expired_token 2 "stale" empty_world
      = Some (Ok [PStr "alice"; PStr "bob"], w')
    /\ token_posts (trace w') = 1%nat
    /\ map req_token (requests (trace w')) = ["stale"; "fresh"; "stale"]
    /\ ~ token_kept (trace w').
Proof.
  eexists. split; [vm_compute; reflexivity|].
  split; [vm_compute; reflexivity|]. split; [vm_compute; reflexivity|].
  unfold token_kept. intros H. vm_compute in H.
  inversion H as [|? ? Hhd _]. discriminate Hhd.
Qed.

(** ** Opening the store (C9) *)

(** C9. [init_db] alters the table before it creates it.  On a file
    without a [downloads] table the ALTER raises an [OperationalError]
    that does not mention a duplicate column, which is logged and
    raised again: [init_db] fails and nothing is created.  A table that
    is already there is opened: one from before the column is upgraded
    with [is_premium = 0] on every row, a current one is left as it is.
    So [init_db] succeeds exactly when the table already exists. *)
Theorem init_db_needs_existing_table :
  Schema.init_db Schema.Fresh
    = (Raise (OperationalError "no such table: downloads"),
       [(ERROR, MsgAlterFailed (OperationalError "no such table: downloads"))])
  /\ (forall rows,
        Schema.init_db (Schema.Legacy rows)
          = (Ok (Schema.Current (map Schema.upgrade rows)), [(INFO, MsgAddedColumn)]))
  /\ (forall rows,
        Schema.init_db (Schema.Current rows)
          = (Ok (Schema.Current rows), [(INFO, MsgColumnExists)]))
  /\ (forall db,
        (exists db', fst (Schema.init_db db) = Ok db') <-> db <> Schema.Fresh).
Proof.
  split; [reflexivity|]. split; [reflexivity|]. split; [reflexivity|].
  intros db. split.
  - intros (db' & H) ->. discriminate H.
  - intros H. destruct db as [|rows|rows]; [contradiction| |]; eexists; reflexivity.
Qed.

(** ** The ledger (C3) *)

Lemma has_key_true id r : has_key id r = true <-> deviationid r = Some id.
Proof.
  unfold has_key. destruct (deviationid r) as [k|].
  - rewrite String.eqb_eq. split; congruence.
  - split; discriminate.
Qed.

Lemma find_none_rows_of id t : find (has_key id) t = None <-> rows_of id t = [].
Proof.
  unfold rows_of. induction t as [|r t IH]; cbn [find]; [tauto|].
  rewrite filter_cons. destruct (has_key id r) eqn:E.
  - rewrite decide_True by reflexivity. split; discriminate.
  - rewrite decide_False by discriminate. exact IH.
Qed.

Lemma find_some_rows_of id t r :
  find (has_key id) t = Some r -> exists rest, rows_of id t = r :: rest.
Proof.
  unfold rows_of. induction t as [|r0 t IH]; cbn [find]; [discriminate|].
  rewrite filter_cons. destruct (has_key id r0) eqn:E.
  - rewrite decide_True by reflexivity. intros [= ->]. eauto.
  - rewrite decide_False by discriminate. exact IH.
Qed.

Lemma find_app_some {A} (f : A -> bool) l1 l2 x :
  find f l1 = Some x -> find f (l1 ++ l2) = Some x.
Proof.
  induction l1 as [|a l1 IH]; cbn; [discriminate|].
  destruct (f a); auto.
Qed.

Lemma find_app_none {A} (f : A -> bool) l1 l2 :
  find f l1 = None -> find f (l1 ++ l2) = find f l2.
Proof.
  induction l1 as [|a l1 IH]; cbn; [reflexivity|].
  destruct (f a); [discriminate|auto].
Qed.

(** A row that is filed stays filed, unchanged, whatever is inserted. *)
Lemma insert_or_ignore_keeps r t key row :
  select_row key t = Some row ->
  select_row key (insert_or_ignore r t) = Some row.
Proof.
  unfold insert_or_ignore. destruct (select_row (deviationid r) t); [auto|].
  destruct key as [k|]; cbn; [|discriminate]. apply find_app_some.
Qed.

(** Inserting under an identifier files a row under it: the one that
    was there, or else the new one. *)
Lemma insert_or_ignore_select id r t :
  deviationid r = Some id ->
  select_row (Some id) (insert_or_ignore r t)
    = Some (match select_row (Some id) t with Some old => old | None => r end).
Proof.
  intros Hk. unfold insert_or_ignore. rewrite Hk.
  destruct (select_row (Some id) t) as [old|] eqn:E; [exact E|].
  cbn in *. rewrite find_app_none by exact E. cbn.
  rewrite (proj2 (has_key_true id r) Hk). reflexivity.
Qed.

(** A second insert under the same identifier changes nothing. *)
Lemma insert_or_ignore_twice id r r' t :
  deviationid r = Some id ->
  deviationid r' = Some id ->
  insert_or_ignore r' (insert_or_ignore r t) = insert_or_ignore r t.
Proof.
  intros Hk Hk'. unfold insert_or_ignore at 1. rewrite Hk'.
  rewrite (insert_or_ignore_select id r t Hk). reflexivity.
Qed.

Lemma rows_of_app id t1 t2 : rows_of id (t1 ++ t2) = rows_of id t1 ++ rows_of id t2.
Proof. unfold rows_of. apply filter_app. Qed.

Lemma rows_of_insert_or_ignore id r t :
  deviationid r = Some id ->
  primary_key t ->
  rows_of id (insert_or_ignore r t)
    = [match select_row (Some id) t with Some old => old | None => r end].
Proof.
  intros Hk Hpk. unfold insert_or_ignore. rewrite Hk.
  destruct (select_row (Some id) t) as [old|] eqn:E; cbn in E.
  - destruct (find_some_rows_of id t old E) as (rest & Hrows).
    specialize (Hpk id). rewrite Hrows in *. destruct rest; [reflexivity|].
    cbn in Hpk. lia.
  - rewrite rows_of_app, (proj1 (find_none_rows_of id t) E).
    unfold rows_of. rewrite filter_cons, decide_True by (apply has_key_true; exact Hk).
    reflexivity.
Qed.

(** A recording call whose arguments can be bound is one
    [INSERT OR IGNORE] of its row, and touches nothing else. *)
Lemma record_spec id c w r :
  row_from id c (length (events w)) = Some r ->
  record id c w = Some (Ok tt, with_downloads (insert_or_ignore r) w)
  /\ deviationid r = Some id.
Proof.
  destruct c as [a t u tags|a t u]; cbn [row_from record];
    unfold mark_downloaded, mark_subscription; munfold; cbn.
  - destruct (Py.join nl tags); [|discriminate].
    destruct (sql_bind a); [|discriminate].
    destruct (sql_bind t); [|discriminate].
    destruct (sql_bind u); [|discriminate]. cbn.
    intros [= <-]. split; reflexivity.
  - destruct (sql_bind a); [|discriminate].
    destruct (sql_bind t); [|discriminate].
    destruct (sql_bind u); [|discriminate]. cbn.
    intros [= <-]. split; reflexivity.
Qed.

(** C3. Two recording calls for the same identifier, of either kind
    and with any arguments that can be stored, leave exactly one row
    for the identifier; the second call changes nothing at all; and the
    row is the one the first call inserted, unless the identifier was
    on file before the first call, in which case that row is kept. *)
Theorem record_twice id c1 c2 w r1 r2 :
  primary_key (downloads w) ->
  row_from id c1 (length (events w)) = Some r1 ->
  row_from id c2 (length (events w)) = Some r2 ->
  exists w1,
    record id c1 w = Some (Ok tt, w1)
    /\ record id c2 w1 = Some (Ok tt, w1)
    /\ rows_of id (downloads w1)
       = [match select_row (Some id) (downloads w) with
          | Some old => old
          | None => r1
          end].
Proof.
  intros Hpk H1 H2.
  destruct (record_spec id c1 w r1 H1) as (E1 & Hk1).
  exists (with_downloads (insert_or_ignore r1) w). split; [exact E1|].
  assert (H2' : row_from id c2 (length (events (with_downloads (insert_or_ignore r1) w)))
                = Some r2) by exact H2.
  destruct (record_spec id c2 _ r2 H2') as (E2 & Hk2).
  split.
  - rewrite E2. do 2 f_equal. destruct w; unfold with_downloads; cbn. f_equal.
    apply (insert_or_ignore_twice id); assumption.
  - cbn. apply rows_of_insert_or_ignore; assumption.
Qed.

Lemma record_twice_witness :
  exists w1,
    record "d1" (Restricted (PStr "alice") (PStr "first") PNone) empty_world
      = Some (Ok tt, w1)
    /\ record "d1" (Downloaded (PStr "alice") (PStr "second") (PStr "u") [PStr "cat"]) w1
       = Some (Ok tt, w1)
    /\ rows_of "d1" (downloads w1)
       = [match select_row (Some "d1") (downloads empty_world) with
          | Some old => old
          | None => restricted_row
          end].
Proof.
  apply (record_twice "d1" (Restricted (PStr "alice") (PStr "first") PNone)
           (Downloaded (PStr "alice") (PStr "second") (PStr "u") [PStr "cat"])
           empty_world restricted_row
           {| deviationid := Some "d1"; artist := Some "alice";
              title := Some "second"; url := Some "u"; tags := Some "cat";
              is_premium := 0; downloaded_at := 0 |}).
  - intros id. cbn. lia.
  - reflexivity.
  - reflexivity.
Defined.

(** ** What a computation preserves *)

Section Preserves.

Variable R : World -> World -> Prop.
Hypothesis R_refl : forall w, R w w.
Hypothesis R_trans : forall w1 w2 w3, R w1 w2 -> R w2 w3 -> R w1 w3.

Lemma preserves_ret {A} (a : A) : preserves R (mret a).
Proof. intros w r w' [= _ <-]. apply R_refl. Qed.

Lemma preserves_raise {A} e : preserves R (@raise A e).
Proof. intros w r w' [= _ <-]. apply R_refl. Qed.

Lemma preserves_diverge {A} : preserves R (@diverge A).
Proof. intros w r w' [=]. Qed.

Lemma preserves_lift {A} (x : Result A) : preserves R (lift x).
Proof. destruct x; [apply preserves_ret|apply preserves_raise]. Qed.

Lemma preserves_get_world : preserves R get_world.
Proof. intros w r w' [= _ <-]. apply R_refl. Qed.

Lemma preserves_modify f : (forall w, R w (f w)) -> preserves R (modify f).
Proof. intros H w r w' [= _ <-]. apply H. Qed.

Lemma preserves_bind {A B} (m : M A) (k : A -> M B) :
  preserves R m -> (forall a, preserves R (k a)) -> preserves R (m ≫= k).
Proof.
  intros Hm Hk w r w'. unfold mbind, M_bind, bind.
  destruct (m w) as [[[a|e] w1]|] eqn:E; [|intros [= _ <-]|discriminate].
  - intros H. eapply R_trans; [eapply Hm; exact E|eapply Hk; exact H].
  - eapply Hm; exact E.
Qed.

Lemma preserves_try_except {A} (body : M A) handler :
  preserves R body -> (forall e, preserves R (handler e)) ->
  preserves R (try_except body handler).
Proof.
  intros Hm Hk w r w'. unfold try_except.
  destruct (body w) as [[[a|e] w1]|] eqn:E; [intros [= _ <-]| |discriminate].
  - eapply Hm; exact E.
  - intros H. eapply R_trans; [eapply Hm; exact E|eapply Hk; exact H].
Qed.

End Preserves.

(** Breaks a goal [preserves R m] down along the structure of [m]. *)
Ltac preserves_step :=
  lazymatch goal with
  | |- preserves _ (_ ≫= _) => apply preserves_bind; [assumption| |intros ?]
  | |- preserves _ (mret _) => apply preserves_ret; assumption
  | |- preserves _ (raise _) => apply preserves_raise; assumption
  | |- preserves _ diverge => apply preserves_diverge
  | |- preserves _ (lift _) => apply preserves_lift; assumption
  | |- preserves _ get_world => apply preserves_get_world; assumption
  | |- preserves _ (try_except _ _) =>
      apply preserves_try_except; [assumption| |intros ?]
  | |- preserves _ (if ?b then _ else _) => destruct b
  | |- preserves _ (match ?x with _ => _ end) => destruct x
  end.

Section PreservesDownloader.

Variable cfg : Config.
Variable net : Network.
Variable R : World -> World -> Prop.
Variable allowed : Event -> Prop.
Variable url_ok : string -> Prop.

Hypothesis R_refl : forall w, R w w.
Hypothesis R_trans : forall w1 w2 w3, R w1 w2 -> R w2 w3 -> R w1 w3.
Hypothesis R_emit : forall e w, allowed e -> R w (with_events (cons e) w).
Hypothesis R_tick_api : forall w, R w (tick_api w).
Hypothesis R_tick_token : forall w, R w (tick_token w).
Hypothesis R_tick_asset : forall w, R w (tick_asset w).
Hypothesis R_tick_tagger : forall w, R w (tick_tagger w).
Hypothesis R_files : forall f w, R w (with_files f w).
Hypothesis R_insert : forall r w, R w (with_downloads (insert_or_ignore r) w).
Hypothesis R_progress : forall p w, R w (with_progress_file p w).

Hypothesis allowed_get : forall q, url_ok (req_url q) -> allowed (EvGet q).
Hypothesis allowed_token : allowed EvTokenPost.
Hypothesis allowed_asset : forall src, allowed (EvAssetGet src).
Hypothesis allowed_tagger : forall p, allowed (EvTaggerPost p).
Hypothesis allowed_sleep : forall d, allowed (EvSleep d).
Hypothesis allowed_log : forall l m, allowed (EvLog l m).

Lemma preserves_emit e : allowed e -> preserves R (emit e).
Proof. intros H. apply preserves_modify. intros w. apply R_emit, H. Qed.

Lemma preserves_logging l m : preserves R (logging l m).
Proof. apply preserves_emit, allowed_log. Qed.

Lemma preserves_time_sleep d : preserves R (time_sleep d).
Proof.
  unfold time_sleep. destruct d as [n|].
  - destruct (n <? 0); [apply preserves_raise; assumption|].
    apply preserves_emit, allowed_sleep.
  - apply preserves_emit, allowed_sleep.
Qed.

Ltac pstep :=
  first
    [ apply preserves_logging
    | apply preserves_time_sleep
    | apply preserves_emit; auto
    | apply preserves_modify; auto
    | preserves_step ].

Lemma preserves_os_makedirs p : preserves R (os_makedirs p).
Proof. unfold os_makedirs. repeat pstep. Qed.

Lemma preserves_open_for_writing p : preserves R (open_for_writing p).
Proof. unfold open_for_writing. repeat pstep. Qed.

Lemma preserves_get_access_token : preserves R (get_access_token net).
Proof. unfold get_access_token. repeat pstep. Qed.

Lemma preserves_attempt url params retries token :
  url_ok url -> preserves R (attempt cfg net url params retries token).
Proof.
  intros Hurl. unfold attempt, requests_get.
  repeat first [apply preserves_get_access_token | pstep].
Qed.

Lemma preserves_deviantart_get_loop url params fuel : forall retries token,
  url_ok url -> preserves R (deviantart_get_loop cfg net fuel url params retries token).
Proof.
  induction fuel as [|fuel IH]; intros retries token Hurl; cbn [deviantart_get_loop].
  - repeat pstep.
  - repeat first [apply preserves_attempt; assumption | apply IH; assumption | pstep].
Qed.

Lemma preserves_deviantart_get url token params :
  url_ok url -> preserves R (deviantart_get cfg net url token params).
Proof. intros H. apply preserves_deviantart_get_loop, H. Qed.

Lemma preserves_is_subscription id : preserves R (is_subscription id).
Proof. unfold is_subscription. repeat pstep. Qed.

Lemma preserves_is_downloaded id : preserves R (is_downloaded id).
Proof. unfold is_downloaded. repeat pstep. Qed.

Lemma preserves_mark_subscription id a t u : preserves R (mark_subscription id a t u).
Proof. unfold mark_subscription. repeat pstep. Qed.

Lemma preserves_mark_downloaded id a t u tags :
  preserves R (mark_downloaded id a t u tags).
Proof. unfold mark_downloaded. repeat pstep. Qed.

Lemma preserves_save_progress i o : preserves R (save_progress i o).
Proof. unfold save_progress. repeat pstep. Qed.

Lemma preserves_load_progress : preserves R (load_progress cfg).
Proof. unfold load_progress. repeat pstep. Qed.

Lemma preserves_followed_artists_loop fuel : forall token offset artists,
  url_ok (friends_url cfg) ->
  preserves R (followed_artists_loop cfg net fuel token offset artists).
Proof.
  induction fuel as [|fuel IH]; intros token offset artists Hurl;
    cbn [followed_artists_loop].
  - repeat pstep.
  - repeat first [ apply preserves_deviantart_get; assumption
                 | apply IH; assumption | pstep ].
Qed.

Lemma preserves_get_followed_artists fuel token :
  url_ok (friends_url cfg) -> preserves R (get_followed_artists cfg net fuel token).
Proof.
  intros H. unfold get_followed_artists.
  repeat first [ apply preserves_followed_artists_loop; assumption | pstep ].
Qed.

Lemma preserves_write_sidecar p t a u tags : preserves R (write_sidecar p t a u tags).
Proof.
  unfold write_sidecar, write_file.
  repeat first [apply preserves_open_for_writing | pstep].
Qed.

Lemma preserves_save_image p t c : preserves R (save_image net p t c).
Proof.
  unfold save_image, write_file.
  repeat first [apply preserves_open_for_writing | pstep].
Qed.

Lemma preserves_run_tagger p q : preserves R (run_tagger net p q).
Proof.
  unfold run_tagger, append_file.
  repeat first [apply preserves_open_for_writing | pstep].
Qed.

Lemma preserves_fetch_and_store token a id t c u :
  url_ok metadata_url ->
  preserves R (fetch_and_store cfg net token a id t c u).
Proof.
  intros H. unfold fetch_and_store.
  repeat first [ apply preserves_deviantart_get; assumption
               | apply preserves_os_makedirs
               | apply preserves_write_sidecar | apply preserves_save_image
               | apply preserves_run_tagger | apply preserves_mark_downloaded
               | pstep ].
Qed.

Lemma preserves_save_deviation token artist deviation :
  url_ok metadata_url ->
  preserves R (save_deviation cfg net token artist deviation).
Proof.
  intros H. unfold save_deviation.
  repeat first [ apply preserves_fetch_and_store; assumption
               | apply preserves_is_subscription | apply preserves_is_downloaded
               | apply preserves_mark_subscription | pstep ].
Qed.

Lemma preserves_for_deviations token artist results :
  url_ok metadata_url ->
  preserves R (for_deviations cfg net token artist results).
Proof.
  intros H. induction results as [|d rest IH]; cbn [for_deviations].
  - repeat pstep.
  - repeat first [ apply preserves_save_deviation; assumption | exact IH | pstep ].
Qed.

Lemma preserves_gallery_loop fuel : forall token idx artist offset,
  url_ok metadata_url -> url_ok gallery_url ->
  preserves R (gallery_loop cfg net fuel token idx artist offset).
Proof.
  induction fuel as [|fuel IH]; intros token idx artist offset Hm Hg;
    cbn [gallery_loop].
  - repeat pstep.
  - repeat first [ apply preserves_deviantart_get; assumption
                 | apply preserves_for_deviations; assumption
                 | apply preserves_save_progress
                 | apply IH; assumption | pstep ].
Qed.

Lemma preserves_after_fetch fuel token idx artist offset data :
  url_ok metadata_url -> url_ok gallery_url ->
  preserves R (after_fetch cfg net fuel token idx artist offset data).
Proof.
  intros Hm Hg. unfold after_fetch.
  repeat first [ apply preserves_for_deviations; assumption
               | apply preserves_save_progress
               | apply preserves_gallery_loop; assumption | pstep ].
Qed.

Lemma preserves_for_artists fuel token total sidx artists : forall soff idx,
  url_ok metadata_url -> url_ok gallery_url ->
  preserves R (for_artists cfg net fuel token total sidx soff idx artists).
Proof.
  induction artists as [|a rest IH]; intros soff idx Hm Hg; cbn [for_artists].
  - repeat pstep.
  - repeat first [ apply preserves_gallery_loop; assumption
                 | apply IH; assumption | pstep ].
Qed.

Lemma preserves_main fuel :
  url_ok (friends_url cfg) -> url_ok metadata_url -> url_ok gallery_url ->
  preserves R (main cfg net fuel).
Proof.
  intros Hf Hm Hg. unfold main.
  repeat first [ apply preserves_get_access_token
               | apply preserves_get_followed_artists; assumption
               | apply preserves_load_progress
               | apply preserves_for_artists; assumption
               | apply preserves_save_progress | pstep ].
Qed.

End PreservesDownloader.

(** ** What always ends *)

Lemma total_ret {A} (a : A) : total (mret a).
Proof. intros w. eexists _, _. reflexivity. Qed.

Lemma total_raise {A} e : total (@raise A e).
Proof. intros w. eexists _, _. reflexivity. Qed.

Lemma total_lift {A} (x : Result A) : total (lift x).
Proof. destruct x; [apply total_ret|apply total_raise]. Qed.

Lemma total_get_world : total get_world.
Proof. intros w. eexists _, _. reflexivity. Qed.

Lemma total_modify f : total (modify f).
Proof. intros w. eexists _, _. reflexivity. Qed.

Lemma total_logging l m : total (logging l m).
Proof. apply total_modify. Qed.

Lemma total_time_sleep d : total (time_sleep d).
Proof.
  unfold time_sleep. destruct d as [n|]; [destruct (n <? 0)|];
    first [apply total_raise | apply total_modify].
Qed.

Lemma total_bind {A B} (m : M A) (k : A -> M B) :
  total m -> (forall a, total (k a)) -> total (m ≫= k).
Proof.
  intros Hm Hk w. unfold mbind, M_bind, bind.
  destruct (Hm w) as ([a|e] & w1 & ->); [apply Hk|].
  eexists _, _. reflexivity.
Qed.

Lemma total_try_except {A} (body : M A) handler :
  total body -> (forall e, total (handler e)) -> total (try_except body handler).
Proof.
  intros Hm Hk w. unfold try_except.
  destruct (Hm w) as ([a|e] & w1 & ->); [|apply Hk].
  eexists _, _. reflexivity.
Qed.

Ltac total_step :=
  lazymatch goal with
  | |- total (_ ≫= _) => apply total_bind; [|intros ?]
  | |- total (mret _) => apply total_ret
  | |- total (raise _) => apply total_raise
  | |- total (lift _) => apply total_lift
  | |- total get_world => apply total_get_world
  | |- total (modify _) => apply total_modify
  | |- total (emit _) => apply total_modify
  | |- total (logging _ _) => apply total_logging
  | |- total (time_sleep _) => apply total_time_sleep
  | |- total (try_except _ _) => apply total_try_except; [|intros ?]
  | |- total (if ?b then _ else _) => destruct b
  | |- total (match ?x with _ => _ end) => destruct x
  end.

Section Total.

Variable cfg : Config.
Variable net : Network.

Lemma total_get_access_token : total (get_access_token net).
Proof. unfold get_access_token. repeat total_step. Qed.

(** A pass through the loop body ends after one request, with or
    without an exception, and when it goes back to the loop test the
    counter has gone up by one. *)
Lemma attempt_shape url params retries token w :
  exists res t chron,
    attempt cfg net url params retries token w = Some (res, advance 1 t chron w)
    /\ requests chron
       = [{| req_url := url; req_token := token; req_params := params |}]
    /\ forall retries' token', res = Ok (Continue retries' token') ->
         retries' = retries + 1.
Proof.
  unfold attempt, requests_get, get_access_token. munfold. cbn.
  set (q := {| req_url := url; req_token := token; req_params := params |}).
  destruct (api net (n_api w) q) as [r|]; cbn.
  2:{ eexists _, O, [EvGet q; _; _]. split; [destruct w; reflexivity|].
      split; [reflexivity|]. intros ? ? [= <- _]. reflexivity. }
  destruct (status_code r =? 429); cbn.
  { destruct (RATE_LIMIT_SLEEP cfg * (retries + 1) <? 0); cbn.
    - eexists _, O, [EvGet q; _]. split; [destruct w; reflexivity|].
      split; [reflexivity|]. discriminate.
    - eexists _, O, [EvGet q; _; _]. split; [destruct w; reflexivity|].
      split; [reflexivity|]. intros ? ? [= <- _]. reflexivity. }
  destruct (status_code r =? 401); cbn.
  { destruct (token_endpoint net (n_token w)) as [st tok|]; cbn;
      [destruct (ok st); cbn|].
    - eexists _, 1%nat, [EvGet q; _; _; _]. split; [destruct w; reflexivity|].
      split; [reflexivity|]. intros ? ? [= <- _]. reflexivity.
    - eexists _, 1%nat, [EvGet q; _; _; _; _]. split; [destruct w; reflexivity|].
      split; [reflexivity|]. intros ? ? [= <- _]. reflexivity.
    - eexists _, 1%nat, [EvGet q; _; _; _; _]. split; [destruct w; reflexivity|].
      split; [reflexivity|]. intros ? ? [= <- _]. reflexivity. }
  destruct (ok (status_code r)); cbn.
  - eexists _, O, [EvGet q]. split; [destruct w; reflexivity|].
    split; [reflexivity|]. discriminate.
  - eexists _, O, [EvGet q; _; _]. split; [destruct w; reflexivity|].
    split; [reflexivity|]. intros ? ? [= <- _]. reflexivity.
Qed.

(** The loop ends whatever the configuration; its requests are all for
    the URL and the parameters of the call, and it does not return a
    body without having sent one. *)
Lemma deviantart_get_loop_shape url params fuel : forall retries token w,
  (Z.to_nat (MAX_RETRIES cfg - retries) <= fuel)%nat ->
  exists r a t chron,
    deviantart_get_loop cfg net fuel url params retries token w
      = Some (r, advance a t chron w)
    /\ Forall (fun q => req_url q = url /\ req_params q = params) (requests chron)
    /\ forall data, r = Ok data -> requests chron <> [].
Proof.
  induction fuel as [|fuel IH]; intros retries token w Hfuel; cbn [deviantart_get_loop];
    destruct (Z.ltb_spec retries (MAX_RETRIES cfg)); try lia;
    try (exists (Raise (RuntimeError (MAX_RETRIES cfg) url)), O, O, [];
         rewrite advance_0; split; [reflexivity|]; split; [constructor|discriminate]).
  destruct (attempt_shape url params retries token w) as (res & t & chron & Hatt & Hrq & Hcnt).
  munfold. rewrite Hatt.
  assert (Hall : Forall (fun q => req_url q = url /\ req_params q = params) (requests chron))
    by (rewrite Hrq; constructor; [split; reflexivity|constructor]).
  destruct res as [[data|retries' token']|e].
  - exists (Ok data), 1%nat, t, chron. split; [reflexivity|]. split; [exact Hall|].
    intros _ _. rewrite Hrq. discriminate.
  - rewrite (Hcnt retries' token' eq_refl).
    destruct (IH (retries + 1) token' (advance 1 t chron w)) as
      (r & a & t' & chron' & Hloop & Hall' & Hne); [lia|].
    rewrite Hloop, advance_advance.
    exists r, (1 + a)%nat, (t + t')%nat, (chron ++ chron').
    split; [reflexivity|]. rewrite requests_app.
    split; [apply Forall_app; split; assumption|].
    intros _ _. rewrite Hrq. discriminate.
  - exists (Raise e), 1%nat, t, chron. split; [reflexivity|]. split; [exact Hall|].
    discriminate.
Qed.

Lemma total_deviantart_get url token params :
  total (deviantart_get cfg net url token params).
Proof.
  intros w.
  destruct (deviantart_get_loop_shape url params (Z.to_nat (MAX_RETRIES cfg)) 0 token w)
    as (r & a & t & chron & H & _); [lia|].
  eexists _, _. exact H.
Qed.

Lemma total_save_deviation token artist deviation :
  total (save_deviation cfg net token artist deviation).
Proof.
  unfold save_deviation, fetch_and_store, is_subscription, is_downloaded,
    mark_subscription, mark_downloaded, write_sidecar, save_image, run_tagger,
    write_file, append_file, os_makedirs, open_for_writing.
  repeat first [apply total_deviantart_get | total_step].
Qed.

Lemma total_for_deviations token artist results :
  total (for_deviations cfg net token artist results).
Proof.
  induction results as [|d rest IH]; cbn [for_deviations];
    repeat first [apply total_save_deviation | exact IH | total_step].
Qed.

End Total.

(** ** Restricted is write-once (C4) *)

Lemma ledger_kept_refl w : ledger_kept w w.
Proof. intros key row H. exact H. Qed.

Lemma ledger_kept_trans w1 w2 w3 :
  ledger_kept w1 w2 -> ledger_kept w2 w3 -> ledger_kept w1 w3.
Proof. intros H12 H23 key row H. apply H23, H12, H. Qed.

Lemma ledger_kept_insert r w : ledger_kept w (with_downloads (insert_or_ignore r) w).
Proof. intros key row H. cbn. apply insert_or_ignore_keeps, H. Qed.

Ltac ledger_kept_side :=
  first [ exact ledger_kept_refl | exact ledger_kept_trans | exact ledger_kept_insert
        | intros; exact I
        | intros; intros ? ? ?; assumption ].

(** Whatever [save_deviation] does, it keeps the rows on file. *)
Lemma save_deviation_keeps_ledger cfg net token artist deviation :
  preserves ledger_kept (save_deviation cfg net token artist deviation).
Proof.
  apply (preserves_save_deviation cfg net ledger_kept (fun _ => True) (fun _ => True));
    ledger_kept_side.
Qed.

(** So does a whole run. *)
Lemma main_keeps_ledger cfg net fuel : preserves ledger_kept (main cfg net fuel).
Proof.
  apply (preserves_main cfg net ledger_kept (fun _ => True) (fun _ => True));
    ledger_kept_side.
Qed.

Lemma is_subscription_str id w :
  is_subscription (PStr id) w
    = Some (Ok (match select_row (Some id) (downloads w) with
                | Some row => is_premium row =? 1
                | None => false
                end), w).
Proof. reflexivity. Qed.

Lemma is_subscription_kept id w w' :
  ledger_kept w w' ->
  is_subscription (PStr id) w = Some (Ok true, w) ->
  is_subscription (PStr id) w' = Some (Ok true, w').
Proof.
  intros Hk. rewrite !is_subscription_str.
  destruct (select_row (Some id) (downloads w)) as [row|] eqn:E; [|discriminate].
  rewrite (Hk _ _ E). intros [= ->]. reflexivity.
Qed.

(** C4. Once [is_subscription] answers true for an identifier, it
    keeps answering true: after [save_deviation] on any payload, under
    any configuration ([DOWNLOAD_SUBSCRIPTIONS] included), and
    [save_deviation] always ends; after a whole run of [main]; and a
    payload that carries the identifier itself is skipped with a debug
    line and nothing else. *)
Theorem restricted_is_write_once cfg net id w :
  is_subscription (PStr id) w = Some (Ok true, w) ->
  (forall token artist deviation,
     exists r w',
       save_deviation cfg net token artist deviation w = Some (r, w')
       /\ is_subscription (PStr id) w' = Some (Ok true, w'))
  /\ (forall token artist fields,
        Py.lookup "deviationid" fields = Some (PStr id) ->
        save_deviation cfg net token artist (PDict fields) w
          = Some (Ok tt,
                  with_events
                    (cons (EvLog DEBUG
                             (MsgKnownSubscription
                                (match Py.lookup "title" fields with
                                 | Some t => t
                                 | None => PStr "untitled"
                                 end) (PStr id)))) w))
  /\ (forall fuel r w',
        main cfg net fuel w = Some (r, w') ->
        is_subscription (PStr id) w' = Some (Ok true, w')).
Proof.
  intros Hsub. split; [|split].
  - intros token artist deviation.
    destruct (total_save_deviation cfg net token artist deviation w) as (r & w' & E).
    exists r, w'. split; [exact E|].
    eapply is_subscription_kept; [|exact Hsub].
    eapply save_deviation_keeps_ledger; exact E.
  - intros token artist fields Hid.
    rewrite is_subscription_str in Hsub.
    destruct (select_row (Some id) (downloads w)) as [row|] eqn:E; [|discriminate].
    injection Hsub as Hp. cbn in E.
    unfold save_deviation, is_subscription. munfold. cbn. rewrite Hid. cbn.
    rewrite E, Hp. reflexivity.
  - intros fuel r w' E.
    eapply is_subscription_kept; [|exact Hsub].
    eapply main_keeps_ledger; exact E.
Qed.

Lemma restricted_is_write_once_witness :
  let w := with_downloads (fun _ => [restricted_row]) empty_world in
  (forall token artist deviation,
     exists r w',
       save_deviation download_anyway always_429 token artist deviation w = Some (r, w')
       /\ is_subscription (PStr "d1") w' = Some (Ok true, w'))
  /\ (forall token artist fields,
        Py.lookup "deviationid" fields = Some (PStr "d1") ->
        save_deviation download_anyway always_429 token artist (PDict fields) w
          = Some (Ok tt,
                  with_events
                    (cons (EvLog DEBUG
                             (MsgKnownSubscription
                                (match Py.lookup "title" fields with
                                 | Some t => t
                                 | None => PStr "untitled"
                                 end) (PStr "d1")))) w))
  /\ (forall fuel r w',
        main download_anyway always_429 fuel w = Some (r, w') ->
        is_subscription (PStr "d1") w' = Some (Ok true, w')).
Proof.
  apply (restricted_is_write_once download_anyway always_429 "d1"
           (with_downloads (fun _ => [restricted_row]) empty_world)).
  reflexivity.
Defined.

(** ** Restricted classification (C6) *)

(** C6. A payload that carries a truthy [premium_content] (whatever
    its content body, an absent one included), met while
    [DOWNLOAD_SUBSCRIPTIONS] is off and its identifier is not on file,
    is only flagged: [save_deviation] logs the detection, inserts one
    row with [is_premium = 1] and empty tags, and returns.  No request
    of any kind is sent, and no file is written. *)
Theorem premium_item_is_only_flagged cfg net token artist fields id premium w a t u :
  DOWNLOAD_SUBSCRIPTIONS cfg = false ->
  Py.lookup "deviationid" fields = Some (PStr id) ->
  Py.lookup "premium_content" fields = Some premium ->
  Py.truthy premium = true ->
  select_row (Some id) (downloads w) = None ->
  let title := match Py.lookup "title" fields with Some x => x | None => PStr "untitled" end in
  let url := match Py.lookup "url" fields with Some x => x | None => PNone end in
  sql_bind artist = Ok a ->
  sql_bind title = Ok t ->
  sql_bind url = Ok u ->
  let row := {| deviationid := Some id; artist := text_affinity a;
                title := text_affinity t; url := text_affinity u;
                tags := Some ""; is_premium := 1;
                downloaded_at := S (length (events w)) |} in
  exists w',
    save_deviation cfg net token artist (PDict fields) w = Some (Ok tt, w')
    /\ downloads w' = downloads w ++ [row]
    /\ rows_of id (downloads w') = [row]
    /\ files w' = files w
    /\ trace w' = trace w ++ [EvLog INFO (MsgDetectedSubscription title (PStr id))]
    /\ (n_api w', n_token w', n_asset w', n_tagger w')
       = (n_api w, n_token w, n_asset w, n_tagger w).
Proof.
  intros Hflag Hid Hprem Htruthy Hnew title url Ha Ht Hu row.
  assert (Hfind : find (has_key id) (downloads w) = None) by exact Hnew.
  eexists. split.
  - unfold save_deviation, is_subscription, is_downloaded, is_premium_of,
      mark_subscription.
    subst title url row. munfold. cbn. rewrite Hid, Hprem. cbn.
    rewrite Hfind. cbn. rewrite Hfind, Htruthy. cbn.
    rewrite Ha, Ht, Hu, Hflag. cbn. reflexivity.
  - assert (Hins : insert_or_ignore row (downloads w) = downloads w ++ [row]).
    { unfold insert_or_ignore. cbn [row deviationid select_row].
      rewrite Hfind. reflexivity. }
    cbn [downloads with_downloads with_events files n_api n_token n_asset n_tagger].
    fold row. rewrite Hins.
    split; [reflexivity|]. split; [|repeat split].
    rewrite rows_of_app, (proj1 (find_none_rows_of id _) Hfind).
    unfold rows_of. rewrite filter_cons, decide_True by (apply has_key_true; reflexivity).
    reflexivity.
Qed.

Lemma premium_item_is_only_flagged_witness :
  let row := {| deviationid := Some "d1"; artist := Some "alice";
                title := Some "first"; url := None; tags := Some "";
                is_premium := 1; downloaded_at := 1 |} in
  exists w',
    save_deviation default_config always_429 "t0" (PStr "alice")
      (PDict premium_item) empty_world = Some (Ok tt, w')
    /\ downloads w' = downloads empty_world ++ [row]
    /\ rows_of "d1" (downloads w') = [row]
    /\ files w' = files empty_world
    /\ trace w' = trace empty_world
                  ++ [EvLog INFO (MsgDetectedSubscription (PStr "first") (PStr "d1"))]
    /\ (n_api w', n_token w', n_asset w', n_tagger w')
       = (n_api empty_world, n_token empty_world, n_asset empty_world,
          n_tagger empty_world).
Proof.
  apply (premium_item_is_only_flagged default_config always_429 "t0" (PStr "alice")
           premium_item "d1" (PBool true) empty_world
           (SqlText "alice") (SqlText "first") SqlNull);
    reflexivity.
Defined.

(** ** Page exhaustion (C7) *)

Lemma emits_refl allowed w : emits allowed w w.
Proof. exists []. split; [reflexivity|constructor]. Qed.

Lemma emits_trans allowed w1 w2 w3 :
  emits allowed w1 w2 -> emits allowed w2 w3 -> emits allowed w1 w3.
Proof.
  intros (n1 & E1 & F1) (n2 & E2 & F2). exists (n2 ++ n1).
  split; [rewrite E2, E1, app_assoc; reflexivity|].
  apply Forall_app; split; assumption.
Qed.

Lemma emits_emit (allowed : Event -> Prop) e w :
  allowed e -> emits allowed w (with_events (cons e) w).
Proof. intros H. exists [e]. split; [reflexivity|]. constructor; [exact H|constructor]. Qed.

Lemma emits_same allowed w w' : events w' = events w -> emits allowed w w'.
Proof. intros H. exists []. split; [exact H|constructor]. Qed.

Ltac emits_side :=
  first [ exact (emits_refl _) | exact (emits_trans _) | exact (emits_emit _)
        | intros; exact I
        | intros; assumption
        | intros; apply emits_same; reflexivity ].

Lemma page_requests_app tr1 tr2 :
  page_requests (tr1 ++ tr2) = page_requests tr1 ++ page_requests tr2.
Proof.
  induction tr1 as [|e tr1 IH]; [reflexivity|].
  destruct e; cbn; rewrite ?IH; try reflexivity.
  destruct (String.eqb (req_url rq) gallery_url); rewrite ?IH; reflexivity.
Qed.

Lemma page_requests_none tr : Forall not_a_page tr -> page_requests tr = [].
Proof.
  induction 1 as [|e tr He _ IH]; [reflexivity|].
  destruct e; cbn; try exact IH.
  destruct (String.eqb_spec (req_url rq) gallery_url); [contradiction|exact IH].
Qed.

Lemma emits_no_page w w' :
  emits not_a_page w w' -> page_requests (trace w') = page_requests (trace w).
Proof.
  intros (new & E & F). unfold trace. rewrite E, rev_app_distr, page_requests_app.
  rewrite (page_requests_none (rev new)); [apply app_nil_r|].
  apply Forall_rev. exact F.
Qed.

Lemma metadata_is_not_gallery : metadata_url <> gallery_url.
Proof.
  intros H. apply String.eqb_eq in H. vm_compute in H. discriminate H.
Qed.

(** Processing the items of a page asks for no page. *)
Lemma for_deviations_asks_no_page cfg net token artist results :
  preserves (emits not_a_page) (for_deviations cfg net token artist results).
Proof.
  apply (preserves_for_deviations cfg net (emits not_a_page) not_a_page
           (fun u => u <> gallery_url));
    first [ exact metadata_is_not_gallery | emits_side ].
Qed.

Lemma trace_with_events e w : trace (with_events (cons e) w) = trace w ++ [e].
Proof. reflexivity. Qed.

(** The friends walker stops on a page that does not say [has_more]. *)
Lemma followed_artists_loop_stops cfg net fuel token offset artists w data w1 has_more :
  deviantart_get cfg net (friends_url cfg) token
    [("access_token", PStr token); ("offset", offset); ("limit", PInt 24)] w
    = Some (Ok data, w1) ->
  Py.get data "has_more" PNone = Ok has_more ->
  Py.truthy has_more = false ->
  exists r w',
    followed_artists_loop cfg net (S fuel) token offset artists w = Some (r, w')
    /\ requests (trace w') = requests (trace w1)
    /\ n_api w' = n_api w1.
Proof.
  intros Hget Hmore Hfalse. cbn [followed_artists_loop]. munfold. rewrite Hget.
  destruct data as [| | | | |d]; try discriminate Hmore. cbn in Hmore |- *.
  destruct (Py.iter _) as [fs|e]; [|eexists _, _; repeat split; reflexivity].
  cbn.
  destruct (comprehension username_of fs) as [batch|e];
    [|eexists _, _; repeat split; reflexivity].
  cbn. injection Hmore as Hmore. rewrite Hmore, Hfalse. cbn.
  eexists _, _. split; [reflexivity|]. split; [|reflexivity].
  rewrite trace_with_events, requests_app. apply app_nil_r.
Qed.

(** The gallery walker stops on an empty page. *)
Lemma gallery_loop_stops_on_empty cfg net fuel token idx artist offset w data w1 results :
  deviantart_get cfg net gallery_url token
    [("username", artist); ("access_token", PStr token); ("offset", offset);
     ("limit", PInt 24)] w
    = Some (Ok data, w1) ->
  Py.get data "results" (PList []) = Ok results ->
  Py.truthy results = false ->
  gallery_loop cfg net (S fuel) token idx artist offset w
    = Some (Ok tt, with_events (cons (EvLog INFO (MsgNoResults artist offset))) w1).
Proof.
  intros Hget Hres Hfalse. cbn [gallery_loop]. munfold. rewrite Hget.
  destruct data as [| | | | |d]; try discriminate Hres. cbn in Hres |- *.
  injection Hres as Hres. rewrite Hres, Hfalse. reflexivity.
Qed.

(** The gallery walker stops after the items of a page that does not
    say [has_more]. *)
Lemma gallery_loop_stops_on_last cfg net fuel token idx artist offset w data w1
    results has_more :
  deviantart_get cfg net gallery_url token
    [("username", artist); ("access_token", PStr token); ("offset", offset);
     ("limit", PInt 24)] w
    = Some (Ok data, w1) ->
  Py.get data "results" (PList []) = Ok results ->
  Py.truthy results = true ->
  Py.get data "has_more" (PBool false) = Ok has_more ->
  Py.truthy has_more = false ->
  exists r w',
    gallery_loop cfg net (S fuel) token idx artist offset w = Some (r, w')
    /\ page_requests (trace w') = page_requests (trace w1).
Proof.
  intros Hget Hres Htrue Hmore Hfalse. cbn [gallery_loop]. munfold. rewrite Hget.
  destruct data as [| | | | |d]; try discriminate Hres. cbn in Hres, Hmore |- *.
  injection Hres as Hres. injection Hmore as Hmore. rewrite Hres, Htrue. cbn.
  destruct (Py.iter results) as [deviations|e]; [|eexists _, _; split; reflexivity].
  cbn.
  destruct (total_for_deviations cfg net token artist deviations w1) as (r & w2 & Hfor).
  pose proof (emits_no_page w1 w2
                (for_deviations_asks_no_page cfg net token artist deviations _ _ _ Hfor))
    as Hpages.
  rewrite Hfor. destruct r as [[]|e]; [|eexists _, _; split; [reflexivity|exact Hpages]].
  rewrite Hmore. unfold save_progress. munfold. cbn.
  destruct (progress_error _ _); cbn; rewrite Hfalse;
    eexists _, _; (split; [reflexivity|]);
    rewrite ?trace_with_events, ?page_requests_app, ?app_nil_r; exact Hpages.
Qed.

(** What does hold of the two walkers.  Both stop, without asking for
    a further page, on a response that does not declare more results:
    the friends walker returns (or raises on a malformed batch) with no
    further request at all, and the gallery walker processes the items
    of the page and ends with no further page request.  The gallery
    walker also stops, at once, on an empty batch, whatever the
    response declares. *)
Theorem walkers_stop cfg net fuel token offset w data w1 :
  (forall artists has_more,
     deviantart_get cfg net (friends_url cfg) token
       [("access_token", PStr token); ("offset", offset); ("limit", PInt 24)] w
       = Some (Ok data, w1) ->
     Py.get data "has_more" PNone = Ok has_more ->
     Py.truthy has_more = false ->
     exists r w',
       followed_artists_loop cfg net (S fuel) token offset artists w = Some (r, w')
       /\ requests (trace w') = requests (trace w1)
       /\ n_api w' = n_api w1)
  /\ (forall idx artist results has_more,
        deviantart_get cfg net gallery_url token
          [("username", artist); ("access_token", PStr token); ("offset", offset);
           ("limit", PInt 24)] w
          = Some (Ok data, w1) ->
        Py.get data "results" (PList []) = Ok results ->
        Py.truthy results = true ->
        Py.get data "has_more" (PBool false) = Ok has_more ->
        Py.truthy has_more = false ->
        exists r w',
          gallery_loop cfg net (S fuel) token idx artist offset w = Some (r, w')
          /\ page_requests (trace w') = page_requests (trace w1))
  /\ (forall idx artist results,
        deviantart_get cfg net gallery_url token
          [("username", artist); ("access_token", PStr token); ("offset", offset);
           ("limit", PInt 24)] w
          = Some (Ok data, w1) ->
        Py.get data "results" (PList []) = Ok results ->
        Py.truthy results = false ->
        gallery_loop cfg net (S fuel) token idx artist offset w
          = Some (Ok tt, with_events (cons (EvLog INFO (MsgNoResults artist offset))) w1)
        /\ n_api (with_events (cons (EvLog INFO (MsgNoResults artist offset))) w1)
           = n_api w1).
Proof.
  split; [|split].
  - intros artists has_more. apply followed_artists_loop_stops.
  - intros idx artist results has_more. apply gallery_loop_stops_on_last.
  - intros idx artist results Hget Hres Hfalse. split; [|reflexivity].
    eapply gallery_loop_stops_on_empty; eassumption.
Qed.

Lemma walkers_stop_witness :
  (exists r w',
     followed_artists_loop default_config one_page 1 "t0" (PInt 0) [] empty_world
       = Some (r, w')
     /\ requests (trace w') = requests (trace (after_request (friends_page "t0")))
     /\ n_api w' = n_api (after_request (friends_page "t0")))
  /\ (exists r w',
        gallery_loop default_config one_page 1 "t0" 0 (PStr "alice") (PInt 0) empty_world
          = Some (r, w')
        /\ page_requests (trace w')
           = page_requests (trace (after_request (gallery_page "t0" "alice"))))
  /\ (gallery_loop default_config empty_first_page 1 "t0" 0 (PStr "alice") (PInt 0)
        empty_world
      = Some (Ok tt,
              with_events
                (cons (EvLog INFO (MsgNoResults (PStr "alice") (PInt 0))))
                (after_request (gallery_page "t0" "alice")))
      /\ n_api (with_events
                  (cons (EvLog INFO (MsgNoResults (PStr "alice") (PInt 0))))
                  (after_request (gallery_page "t0" "alice")))
         = n_api (after_request (gallery_page "t0" "alice"))).
Proof.
  split; [|split].
  - apply (proj1 (walkers_stop default_config one_page 0 "t0" (PInt 0) empty_world
                    (PDict [("results", PList []); ("has_more", PBool false)])
                    (after_request (friends_page "t0"))) [] (PBool false));
      reflexivity.
  - apply (proj1 (proj2 (walkers_stop default_config one_page 0 "t0" (PInt 0) empty_world
                    (PDict [("results", PList [PDict premium_item]);
                            ("has_more", PBool false); ("next_offset", PNone)])
                    (after_request (gallery_page "t0" "alice"))))
             0 (PStr "alice") (PList [PDict premium_item]) (PBool false));
      reflexivity.
  - apply (proj2 (proj2 (walkers_stop default_config empty_first_page 0 "t0" (PInt 0)
                    empty_world
                    (PDict [("results", PList []); ("has_more", PBool true);
                            ("next_offset", PInt 24)])
                    (after_request (gallery_page "t0" "alice"))))
             0 (PStr "alice") (PList []));
      reflexivity.
Defined.

(** C7. The friends walker does not stop on an empty batch, as the
    gallery walker does: here the first page of the list comes with an
    empty batch and [has_more] set, and [get_followed_artists] asks for
    the page at the next offset. *)
Lemma friends_walker_goes_past_an_empty_page :
  (forall q, success_body (api empty_first_page 0 q)
             = Some (PDict [("results", PList []); ("has_more", PBool true);
                            ("next_offset", PInt 24)]))
  /\ exists w',
       get_followed_artists default_config empty_first_page 2 "t0" empty_world
         = Some (Ok [PStr "bob"], w')
       /\ map (fun q => Py.lookup "offset" (req_params q)) (requests (trace w'))
          = [Some (PInt 0); Some (PInt 24)]
       /\ length (requests (trace w')) <> 1%nat.
Proof.
  split; [reflexivity|].
  eexists. split; [vm_compute; reflexivity|].
  split; [vm_compute; reflexivity|]. vm_compute. discriminate.
Qed.

(** ** The loop over the creators *)

Lemma never_raises_ret {A} (a : A) : never_raises (mret a).
Proof. intros w r w' [= <- _]. eauto. Qed.

Lemma never_raises_modify f : never_raises (modify f).
Proof. intros w r w' [= <- _]. eauto. Qed.

Lemma never_raises_logging l m : never_raises (logging l m).
Proof. apply never_raises_modify. Qed.

Lemma never_raises_bind {A B} (m : M A) (k : A -> M B) :
  never_raises m -> (forall a, never_raises (k a)) -> never_raises (m ≫= k).
Proof.
  intros Hm Hk w r w'. unfold mbind, M_bind, bind.
  destruct (m w) as [[[a|e] w1]|] eqn:E; [apply Hk| |discriminate].
  destruct (Hm _ _ _ E) as (a & [=]).
Qed.

(** A [try] whose handler lets nothing out lets nothing out. *)
Lemma never_raises_try_except {A} (body : M A) handler :
  (forall e, never_raises (handler e)) -> never_raises (try_except body handler).
Proof.
  intros Hk w r w'. unfold try_except.
  destruct (body w) as [[[a|e] w1]|]; [|apply Hk|discriminate].
  intros [= <- _]. eauto.
Qed.

Lemma never_raises_save_progress i o : never_raises (save_progress i o).
Proof.
  unfold save_progress. apply never_raises_bind; [intros w r w' [= <- _]; eauto|].
  intros w. destruct (progress_error _ _);
    [apply never_raises_logging|apply never_raises_modify].
Qed.

Lemma never_raises_load_progress cfg : never_raises (load_progress cfg).
Proof.
  unfold load_progress. apply never_raises_bind; [intros w r w' [= <- _]; eauto|].
  intros w. destruct (FORCE_RECHECK cfg); [apply never_raises_ret|].
  destruct (progress_file w); try apply never_raises_ret.
  apply never_raises_bind; [apply never_raises_logging|].
  intros _. apply never_raises_ret.
Qed.

(** The loop over the creators lets no exception out. *)
Lemma never_raises_for_artists cfg net fuel token total sidx artists : forall soff idx,
  never_raises (for_artists cfg net fuel token total sidx soff idx artists).
Proof.
  induction artists as [|a rest IH]; intros soff idx; cbn [for_artists].
  - apply never_raises_ret.
  - apply never_raises_bind; [apply never_raises_logging|]. intros _.
    apply never_raises_bind; [|intros so; apply IH].
    apply never_raises_try_except. intros e.
    apply never_raises_bind; [apply never_raises_logging|].
    intros _. apply never_raises_ret.
Qed.


(** Past the creator the run resumed at, a walk starts at offset 0. *)
Lemma for_artists_next cfg net fuel token total sidx soff idx a rest w :
  sidx < idx ->
  for_artists cfg net fuel token total sidx soff idx (a :: rest) w
    = (try_except
         (gallery_loop cfg net fuel token idx a (PInt 0);; mret (PInt 0))
         (fun e => logging ERROR (MsgArtistError a e);; mret soff)
       ≫= fun so => for_artists cfg net fuel token total sidx so (idx + 1) rest)
        (with_events (cons (EvLog INFO (MsgProcessing idx total a))) w).
Proof.
  intros Hlt. cbn [for_artists].
  destruct (Z.eqb_spec idx sidx); [lia|]. reflexivity.
Qed.

(** ** Resuming from the checkpoint (C5) *)

Lemma gallery_loop_S cfg net fuel token idx artist offset :
  gallery_loop cfg net (S fuel) token idx artist offset
    = deviantart_get cfg net gallery_url token (gallery_params token artist offset)
      ≫= after_fetch cfg net fuel token idx artist offset.
Proof. reflexivity. Qed.

(** The loop of the source, with its [start_offset] variable and its
    test on the index, does the walks of the plan: past the creator the
    run resumed at ... *)
Lemma for_artists_walks_after cfg net fuel token total sidx artists :
  forall soff idx w,
    sidx < idx ->
    for_artists cfg net fuel token total sidx soff idx artists w
      = walks cfg net fuel token total (resume_plan idx (PInt 0) artists) w.
Proof.
  induction artists as [|a rest IH]; intros soff idx w Hlt; [reflexivity|].
  cbn [for_artists resume_plan walks walk_one]. munfold. cbn.
  destruct (Z.eqb_spec idx sidx); [lia|].
  destruct (gallery_loop cfg net fuel token idx a (PInt 0) _) as [[[[]|e] w1]|];
    cbn; try reflexivity; apply IH; lia.
Qed.

(** ... and from that creator on. *)
Lemma for_artists_walks cfg net fuel token total sidx soff artists w :
  for_artists cfg net fuel token total sidx soff sidx artists w
    = walks cfg net fuel token total (resume_plan sidx soff artists) w.
Proof.
  destruct artists as [|a rest]; [reflexivity|].
  cbn [for_artists resume_plan walks walk_one]. munfold. cbn.
  rewrite Z.eqb_refl.
  destruct (gallery_loop cfg net fuel token sidx a soff _) as [[[[]|e] w1]|];
    cbn; try reflexivity; apply for_artists_walks_after; lia.
Qed.

Lemma page_requests_all tr params :
  Forall (fun q => req_url q = gallery_url /\ req_params q = params) (requests tr) ->
  page_requests tr = requests tr.
Proof.
  induction tr as [|e tr IH]; [reflexivity|].
  destruct e; cbn; try exact IH.
  intros H. inversion H as [|? ? [Hurl _] Hrest]; subst.
  rewrite Hurl, String.eqb_refl, IH by exact Hrest. reflexivity.
Qed.

(** The first page a walk asks for is the page at its starting offset. *)
Lemma gallery_loop_first_request cfg net fuel token idx artist offset w r w' :
  gallery_loop cfg net fuel token idx artist offset w = Some (r, w') ->
  exists new,
    trace w' = trace w ++ new
    /\ match page_requests new with
       | [] => True
       | q :: _ => req_params q = gallery_params token artist offset
       end.
Proof.
  destruct fuel as [|fuel]; [discriminate|]. rewrite gallery_loop_S.
  unfold mbind, M_bind, bind, deviantart_get.
  destruct (deviantart_get_loop_shape cfg net gallery_url
              (gallery_params token artist offset) (Z.to_nat (MAX_RETRIES cfg)) 0 token w)
    as (r1 & a & t & chron & Hget & Hall & Hne); [lia|].
  rewrite Hget. pose proof (page_requests_all chron _ Hall) as Hpages.
  destruct r1 as [data|e].
  - intros Hrest.
    assert (Hemits : emits (fun _ => True) (advance a t chron w) w').
    { eapply (preserves_after_fetch cfg net (emits (fun _ => True)) (fun _ => True)
                (fun _ => True)); try exact Hrest; emits_side. }
    destruct Hemits as (new2 & E2 & _).
    exists (chron ++ rev new2). split.
    + unfold trace at 1. rewrite E2, rev_app_distr. fold (trace (advance a t chron w)).
      rewrite trace_advance, app_assoc. reflexivity.
    + rewrite page_requests_app, Hpages.
      destruct (requests chron) as [|q qs] eqn:Eq; [destruct (Hne data eq_refl eq_refl)|].
      inversion Hall as [|? ? [_ Hp] _]; subst. exact Hp.
  - intros [= <- <-]. exists chron. split; [apply trace_advance|].
    rewrite Hpages. destruct (requests chron) as [|q qs]; [exact I|].
    inversion Hall as [|? ? [_ Hp] _]; subst. exact Hp.
Qed.

Lemma walk_one_first_request cfg net fuel token total idx a offset w r w' :
  walk_one cfg net fuel token total (idx, a, offset) w = Some (r, w') ->
  exists new,
    trace w' = trace w ++ EvLog INFO (MsgProcessing idx total a) :: new
    /\ match page_requests new with
       | [] => True
       | q :: _ => req_params q = gallery_params token a offset
       end.
Proof.
  unfold walk_one. munfold. cbn.
  destruct (gallery_loop cfg net fuel token idx a offset _) as [[[[]|e] w1]|] eqn:E;
    [| |discriminate];
    destruct (gallery_loop_first_request _ _ _ _ _ _ _ _ _ _ E) as (new & Htr & Hfirst);
    intros [= <- <-].
  - exists new. split; [|exact Hfirst].
    rewrite Htr, trace_with_events, <- app_assoc. reflexivity.
  - exists (new ++ [EvLog ERROR (MsgArtistError a e)]). split.
    + rewrite trace_with_events, Htr, trace_with_events, <- !app_assoc. reflexivity.
    + rewrite page_requests_app. cbn. rewrite app_nil_r. exact Hfirst.
Qed.

Lemma resume_plan_lookup artists : forall idx offset i,
  resume_plan idx offset artists !! i
    = (fun a => (idx + Z.of_nat i, a, if (i =? 0)%nat then offset else PInt 0))
      <$> artists !! i.
Proof.
  induction artists as [|a rest IH]; intros idx offset i; [destruct i; reflexivity|].
  destruct i as [|i]; cbn [resume_plan].
  - cbn. rewrite Z.add_0_r. reflexivity.
  - rewrite !lookup_cons, IH. destruct (rest !! i); cbn; [|reflexivity].
    do 3 f_equal; [lia|]. destruct i; reflexivity.
Qed.

(** Neither the credential exchange nor the enumeration of the
    creators touches the progress file. *)
Lemma startup_keeps_progress cfg net fuel w token w1 r w2 :
  get_access_token net w = Some (Ok token, w1) ->
  get_followed_artists cfg net fuel token w1 = Some (r, w2) ->
  progress_file w2 = progress_file w.
Proof.
  intros Htok Hart.
  assert (H1 : progress_file w1 = progress_file w).
  { eapply (preserves_get_access_token net (fun w w' => progress_file w' = progress_file w)
              (fun _ => True)); try exact Htok;
      first [ intros; reflexivity | intros; exact I | intros; congruence ]. }
  assert (H2 : progress_file w2 = progress_file w1).
  { eapply (preserves_get_followed_artists cfg net
              (fun w w' => progress_file w' = progress_file w)
              (fun _ => True) (fun _ => True)); try exact Hart;
      first [ intros; reflexivity | intros; exact I | intros; congruence ]. }
  congruence.
Qed.

(** C5, as amended. With FORCE_RECHECK off, a run that finds the
    checkpoint (2, 10) and a list of at least three creators does, after
    the enumeration, exactly the walks of its plan and then resets the
    checkpoint.  The plan holds the creators from index 2 on, in order,
    and none before; it starts with the creator at index 2 from offset
    10 and takes every later creator from offset 0; and the first page
    a walk asks for is the page at its starting offset. *)
Theorem resume_from_checkpoint cfg net fuel w token w1 artists w2 :
  FORCE_RECHECK cfg = false ->
  progress_file w = Saved (Some 2) (Some (PInt 10)) ->
  get_access_token net w = Some (Ok token, w1) ->
  get_followed_artists cfg net fuel token w1 = Some (Ok artists, w2) ->
  (3 <= length artists)%nat ->
  let total := length artists in
  let plan := resume_plan 2 (PInt 10) (drop 2 artists) in
  main cfg net fuel w
    = (walks cfg net fuel token total plan;; save_progress 0 (PInt 0))
        (with_events (cons (EvLog INFO (MsgFound total))) w2)
  /\ (forall i step,
        plan !! i = Some step ->
        exists a,
          artists !! (2 + i)%nat = Some a
          /\ step = (2 + Z.of_nat i, a, if (i =? 0)%nat then PInt 10 else PInt 0))
  /\ (exists a rest, artists !! 2%nat = Some a /\ plan = (2, a, PInt 10) :: rest)
  /\ (forall idx a offset w0 r w0',
        walk_one cfg net fuel token total (idx, a, offset) w0 = Some (r, w0') ->
        exists new,
          trace w0' = trace w0 ++ EvLog INFO (MsgProcessing idx total a) :: new
          /\ match page_requests new with
             | [] => True
             | q :: _ => req_params q = gallery_params token a offset
             end).
Proof.
  intros Hforce Hfile Htok Hart Hlen total plan.
  pose proof (startup_keeps_progress cfg net fuel w token w1 _ w2 Htok Hart) as Hkeep.
  split; [|split; [|split]].
  - unfold main, load_progress. munfold. rewrite Htok, Hart. cbn.
    rewrite Hforce, Hkeep, Hfile. cbn.
    rewrite for_artists_walks. reflexivity.
  - intros i step Hstep. subst plan. rewrite resume_plan_lookup, lookup_drop in Hstep.
    destruct (artists !! (2 + i)%nat) as [a|]; [|discriminate].
    exists a. split; [reflexivity|]. injection Hstep as <-. reflexivity.
  - destruct artists as [|a0 [|a1 [|a2 rest]]]; cbn in Hlen; try lia.
    exists a2, (resume_plan (2 + 1) (PInt 0) rest). split; reflexivity.
  - intros idx a offset w0 r w0'. apply walk_one_first_request.
Qed.

Lemma resume_from_checkpoint_witness :
  let cfg := default_config in
  let net := four_friends in
  let artists := [PStr "alice"; PStr "bob"; PStr "carol"; PStr "dave"] in
  let total := length artists in
  let plan := resume_plan 2 (PInt 10) (drop 2 artists) in
  main cfg net 1 interrupted
    = (walks cfg net 1 "fresh" total plan;; save_progress 0 (PInt 0))
        (with_events (cons (EvLog INFO (MsgFound total))) enumerated)
  /\ (forall i step,
        plan !! i = Some step ->
        exists a,
          artists !! (2 + i)%nat = Some a
          /\ step = (2 + Z.of_nat i, a, if (i =? 0)%nat then PInt 10 else PInt 0))
  /\ (exists a rest, artists !! 2%nat = Some a /\ plan = (2, a, PInt 10) :: rest)
  /\ (forall idx a offset w0 r w0',
        walk_one cfg net 1 "fresh" total (idx, a, offset) w0 = Some (r, w0') ->
        exists new,
          trace w0' = trace w0 ++ EvLog INFO (MsgProcessing idx total a) :: new
          /\ match page_requests new with
             | [] => True
             | q :: _ => req_params q = gallery_params "fresh" a offset
             end).
Proof.
  apply (resume_from_checkpoint default_config four_friends 1 interrupted "fresh"
           authenticated [PStr "alice"; PStr "bob"; PStr "carol"; PStr "dave"]
           enumerated).
  - reflexivity.
  - reflexivity.
  - reflexivity.
  - vm_compute. reflexivity.
  - cbn. lia.
Defined.

(** C5, as stated, fails when FORCE_RECHECK is on: the checkpoint
    (2, 10) is on disk and four creators are followed, and the run
    starts over with the creator at index 0, every walk from offset 0. *)
Lemma forced_recheck_ignores_checkpoint :
  progress_file interrupted = Saved (Some 2) (Some (PInt 10))
  /\ exists w',
       main force_recheck four_friends 1 interrupted = Some (Ok tt, w')
       /\ processed (trace w') = [0; 1; 2; 3]
       /\ map (fun q => Py.lookup "offset" (req_params q)) (page_requests (trace w'))
          = [Some (PInt 0); Some (PInt 0); Some (PInt 0); Some (PInt 0)]
       /\ ~ Forall (fun idx => 2 <= idx) (processed (trace w')).
Proof.
  split; [reflexivity|].
  eexists. split; [vm_compute; reflexivity|].
  split; [vm_compute; reflexivity|]. split; [vm_compute; reflexivity|].
  intros H. vm_compute in H. inversion H as [|? ? Hhd _]. apply Hhd. reflexivity.
Qed.

(** ** A whole run *)

(** One creator with one free item: the item is filed as not
    restricted with its tag, its sidecar and its image are on disk, and
    the checkpoint is back at (0, 0). *)
Example run_alice_one_item :
  exists w',
    main default_config alice_one_item 1 empty_world = Some (Ok tt, w')
    /\ downloads w'
       = [{| deviationid := Some "d1"; artist := Some "alice"; title := Some "first";
             url := Some "http://x/d1"; tags := Some "cat"; is_premium := 0;
             downloaded_at := 12 |}]
    /\ files w' !! "./downloads/alice/d1.txt"
       = Some [Fmt "title: " (PStr "first") nl; Fmt "artist: " (PStr "alice") nl;
               Fmt "url: " (PStr "http://x/d1") (nl +:+ nl); Text ("cat" +:+ nl)]
    /\ files w' !! "./downloads/alice/d1.jpg" = Some [Bytes "IMG"]
    /\ progress_file w' = Saved (Some 0) (Some (PInt 0)).
Proof.
  eexists. split; [vm_compute; reflexivity|].
  repeat split; vm_compute; reflexivity.
Qed.

(** * More of the script *)

(** ** Stepping through a computation *)

Lemma bind_ok {A B} (m : M A) (k : A -> M B) w a w1 :
  m w = Some (Ok a, w1) -> (m ≫= k) w = k a w1.
Proof. intros H. unfold mbind, M_bind, bind. rewrite H. reflexivity. Qed.

Lemma bind_raise {A B} (m : M A) (k : A -> M B) w e w1 :
  m w = Some (Raise e, w1) -> (m ≫= k) w = Some (Raise e, w1).
Proof. intros H. unfold mbind, M_bind, bind. rewrite H. reflexivity. Qed.

Lemma bind_inv {A B} (m : M A) (k : A -> M B) w r w' :
  (m ≫= k) w = Some (r, w') ->
  (exists a w1, m w = Some (Ok a, w1) /\ k a w1 = Some (r, w'))
  \/ (exists e, m w = Some (Raise e, w') /\ r = Raise e).
Proof.
  unfold mbind, M_bind, bind.
  destruct (m w) as [[[a|e] w1]|]; [eauto| |discriminate].
  intros [= <- <-]. eauto.
Qed.


Lemma try_raise {A} (body : M A) handler w e w1 :
  body w = Some (Raise e, w1) -> try_except body handler w = handler e w1.
Proof. intros H. unfold try_except. rewrite H. reflexivity. Qed.

(** ** Errors of one creator (C8) *)

Lemma bind_ext {A B} (m : M A) (k1 k2 : A -> M B) w :
  (forall a w1, k1 a w1 = k2 a w1) -> (m ≫= k1) w = (m ≫= k2) w.
Proof.
  intros H. unfold mbind, M_bind, bind.
  destruct (m w) as [[[a|e] w1]|]; [apply H|reflexivity|reflexivity].
Qed.

(** [main] after its two startup steps. *)
Lemma main_from_start cfg net fuel w token w1 artists w2 :
  get_access_token net w = Some (Ok token, w1) ->
  get_followed_artists cfg net fuel token w1 = Some (Ok artists, w2) ->
  main cfg net fuel w
    = (progress ← load_progress cfg;
       match start_position progress artists with
       | Ok (start, start_offset, sliced) =>
           for_artists cfg net fuel token (length artists) start start_offset start
             sliced;;
           save_progress 0 (PInt 0)
       | Raise e => raise e
       end) (with_events (cons (EvLog INFO (MsgFound (length artists)))) w2).
Proof.
  intros Htok Hart. unfold main.
  rewrite (bind_ok _ _ _ _ _ Htok), (bind_ok _ _ _ _ _ Hart).
  rewrite (bind_ok (logging INFO (MsgFound (length artists))) _ w2 tt _ eq_refl).
  apply bind_ext. intros progress w3. unfold start_position.
  destruct (Py.get progress "last_artist_index" (PInt 0)) as [i|e]; [|reflexivity].
  destruct (Py.get progress "last_offset" (PInt 0)) as [o|e]; [|reflexivity].
  unfold lift, Result_bind. munfold. cbn.
  destruct (slice_from_value i artists) as [sliced|e]; [|reflexivity].
  cbn. destruct (index_of i) as [start|e]; reflexivity.
Qed.

(** What [load_progress] returns, and that it only logs. *)
Lemma load_progress_value cfg w :
  exists progress w1,
    load_progress cfg w = Some (Ok progress, w1)
    /\ progress
       = (if FORCE_RECHECK cfg then fresh_progress
          else match progress_file w with
               | Parsed v => v
               | _ => fresh_progress
               end)
    /\ progress_file w1 = progress_file w.
Proof.
  unfold load_progress. munfold.
  destruct (FORCE_RECHECK cfg);
    [eexists _, _; split; [reflexivity|split; reflexivity]|].
  destruct (progress_file w) eqn:E; eexists _, _;
    (split; [reflexivity|split; [reflexivity|exact E]]).
Qed.

(** A usable checkpoint gives a position to start from. *)
Lemma start_position_usable cfg w artists :
  FORCE_RECHECK cfg = true \/ checkpoint_usable (progress_file w) = true ->
  exists position,
    start_position (if FORCE_RECHECK cfg then fresh_progress
                    else match progress_file w with
                         | Parsed v => v
                         | _ => fresh_progress
                         end) artists = Ok position.
Proof.
  intros [->|Hok]; [eexists; reflexivity|].
  destruct (FORCE_RECHECK cfg); [eexists; reflexivity|].
  destruct (progress_file w) as [| |v]; [eexists; reflexivity..|].
  destruct v as [| | | | |d]; try discriminate Hok. cbn in Hok.
  unfold start_position. cbn [Py.get].
  destruct (Py.lookup "last_artist_index" d) as [[|b|n| | |]|]; try discriminate Hok;
    eexists; reflexivity.
Qed.




(** What can make [main] fail: the credential exchange, the
    enumeration of the creators, or a progress file that parses to a
    value [main] cannot start from; in that case it fails right after
    the enumeration. *)
Lemma main_raises_inv cfg net fuel w e w' :
  main cfg net fuel w = Some (Raise e, w') ->
  get_access_token net w = Some (Raise e, w')
  \/ (exists token w1,
        get_access_token net w = Some (Ok token, w1)
        /\ get_followed_artists cfg net fuel token w1 = Some (Raise e, w'))
  \/ (FORCE_RECHECK cfg = false
      /\ checkpoint_usable (progress_file w) = false
      /\ exists token w1 artists w2,
           get_access_token net w = Some (Ok token, w1)
           /\ get_followed_artists cfg net fuel token w1 = Some (Ok artists, w2)
           /\ w' = with_events (cons (EvLog INFO (MsgFound (length artists)))) w2).
Proof.
  intros Hmain.
  destruct (get_access_token net w) as [[[token|e0] w1]|] eqn:Htok.
  2:{ left. unfold main in Hmain. rewrite (bind_raise _ _ _ _ _ Htok) in Hmain.
      injection Hmain as <- <-. reflexivity. }
  2:{ unfold main, mbind, M_bind, bind in Hmain. rewrite Htok in Hmain. discriminate. }
  destruct (get_followed_artists cfg net fuel token w1) as [[[artists|e1] w2]|] eqn:Hart.
  2:{ right. left. exists token, w1. split; [reflexivity|].
      unfold main in Hmain.
      rewrite (bind_ok _ _ _ _ _ Htok), (bind_raise _ _ _ _ _ Hart) in Hmain.
      injection Hmain as <- <-. exact Hart. }
  2:{ unfold main in Hmain. rewrite (bind_ok _ _ _ _ _ Htok) in Hmain.
      unfold mbind, M_bind, bind in Hmain. rewrite Hart in Hmain. discriminate. }
  right. right.
  rewrite (main_from_start _ _ _ _ _ _ _ _ Htok Hart) in Hmain.
  destruct (load_progress_value cfg
              (with_events (cons (EvLog INFO (MsgFound (length artists)))) w2))
    as (progress & w3 & Hload & Hvalue & _).
  rewrite (bind_ok _ _ _ _ _ Hload) in Hmain.
  assert (Hkeep : progress_file
                    (with_events (cons (EvLog INFO (MsgFound (length artists)))) w2)
                  = progress_file w)
    by exact (startup_keeps_progress cfg net fuel w token w1 _ w2 Htok Hart).
  rewrite Hkeep in Hvalue.
  assert (Hstart : forall position, start_position progress artists <> Ok position).
  { intros [[start start_offset] sliced] Hpos. rewrite Hpos in Hmain.
    revert Hmain. intros Hmain.
    assert (Hnr : never_raises
              (for_artists cfg net fuel token (length artists) start start_offset start
                 sliced;;
               save_progress 0 (PInt 0)))
      by (apply never_raises_bind;
          [apply never_raises_for_artists|intros _; apply never_raises_save_progress]).
    destruct (Hnr _ _ _ Hmain) as (x & [=]). }
  assert (Hbad : FORCE_RECHECK cfg = false
                 /\ checkpoint_usable (progress_file w) = false).
  { destruct (FORCE_RECHECK cfg) eqn:Hforce.
    - destruct (start_position_usable cfg w artists) as (position & Hpos);
        [left; exact Hforce|].
      rewrite Hforce in Hpos. rewrite <- Hvalue in Hpos. destruct (Hstart _ Hpos).
    - split; [reflexivity|].
      destruct (checkpoint_usable (progress_file w)) eqn:Hok; [|reflexivity].
      destruct (start_position_usable cfg w artists) as (position & Hpos);
        [right; exact Hok|].
      rewrite Hforce in Hpos. rewrite <- Hvalue in Hpos. destruct (Hstart _ Hpos). }
  destruct Hbad as (Hforce & Hbad). split; [exact Hforce|]. split; [exact Hbad|].
  exists token, w1, artists, w2. split; [reflexivity|]. split; [exact Hart|].
  assert (Hw3 : w3 = with_events (cons (EvLog INFO (MsgFound (length artists)))) w2).
  { revert Hload. unfold load_progress. munfold. rewrite Hforce, Hkeep.
    destruct (progress_file w); try discriminate Hbad. intros [= _ <-]. reflexivity. }
  destruct (start_position progress artists) as [position|e'];
    [destruct (Hstart position eq_refl)|].
  injection Hmain as _ <-. exact Hw3.
Qed.





(** ** Opening the store twice *)

(** X1. A store that [init_db] has opened opens again, unchanged: the
    second ALTER meets the duplicate column, which is logged and passed
    over, and CREATE TABLE IF NOT EXISTS finds the table. *)
Theorem init_db_twice db db' :
  fst (Schema.init_db db) = Ok db' ->
  Schema.init_db db' = (Ok db', [(INFO, MsgColumnExists)]).
Proof.
  destruct db as [|rows|rows]; cbn; [discriminate| |]; intros [= <-]; reflexivity.
Qed.

Lemma init_db_twice_witness :
  Schema.init_db (Schema.Current (map Schema.upgrade [legacy_row]))
    = (Ok (Schema.Current (map Schema.upgrade [legacy_row])), [(INFO, MsgColumnExists)]).
Proof.
  apply (init_db_twice (Schema.Legacy [legacy_row])). reflexivity.
Defined.

Lemma select_row_upgrade key rows :
  select_row key (map Schema.upgrade rows)
    = Schema.upgrade <$> match key with
                         | Some k =>
                             find (fun r => match Schema.l_deviationid r with
                                            | Some k' => String.eqb k k'
                                            | None => false
                                            end) rows
                         | None => None
                         end.
Proof.
  destruct key as [k|]; [|reflexivity]. cbn [select_row].
  induction rows as [|r rows IH]; [reflexivity|].
  cbn [map find]. unfold has_key at 1. cbn [Schema.upgrade deviationid].
  destruct (Schema.l_deviationid r) as [k'|]; [destruct (String.eqb k k')|]; auto.
Qed.

(** X2. The upgrade of a store from before the [is_premium] column
    loses nothing and restricts nothing: afterwards [is_downloaded]
    answers true exactly for the identifiers the old table had a row
    for, and [is_subscription] answers false for every identifier. *)
Theorem upgraded_store_is_unrestricted rows id w :
  fst (Schema.init_db (Schema.Legacy rows)) = Ok (Schema.Current (downloads w)) ->
  is_subscription (PStr id) w = Some (Ok false, w)
  /\ is_downloaded (PStr id) w
     = Some (Ok (existsb (fun r => match Schema.l_deviationid r with
                                   | Some k => String.eqb id k
                                   | None => false
                                   end) rows), w)
  /\ length (downloads w) = length rows.
Proof.
  intros H. cbn in H. injection H as Hrows.
  assert (Hdl : is_downloaded (PStr id) w
                = Some (Ok (match select_row (Some id) (downloads w) with
                            | Some _ => true
                            | None => false
                            end), w)) by reflexivity.
  rewrite is_subscription_str, Hdl, <- Hrows, !select_row_upgrade, length_map.
  split; [|split; [|reflexivity]].
  - destruct (find _ rows); reflexivity.
  - do 3 f_equal. clear. induction rows as [|r rs IH]; [reflexivity|].
    cbn [find existsb].
    destruct (match Schema.l_deviationid r with Some k => String.eqb id k | None => false end);
      [reflexivity|exact IH].
Qed.

Lemma upgraded_store_is_unrestricted_witness :
  let w := with_downloads (fun _ => map Schema.upgrade [legacy_row]) empty_world in
  is_subscription (PStr "d0") w = Some (Ok false, w)
  /\ is_downloaded (PStr "d0") w
     = Some (Ok (existsb (fun r => match Schema.l_deviationid r with
                                   | Some k => String.eqb "d0" k
                                   | None => false
                                   end) [legacy_row]), w)
  /\ length (downloads w) = length [legacy_row].
Proof.
  apply (upgraded_store_is_unrestricted [legacy_row] "d0"
           (with_downloads (fun _ => map Schema.upgrade [legacy_row]) empty_world)).
  reflexivity.
Defined.

(** ** More on the ledger *)

Lemma is_downloaded_str id w :
  is_downloaded (PStr id) w
    = Some (Ok (match select_row (Some id) (downloads w) with
                | Some _ => true
                | None => false
                end), w).
Proof. reflexivity. Qed.

(** X3. What was recorded is known: after [mark_downloaded] or
    [mark_subscription] has stored its row, [is_downloaded] answers
    true for the identifier; and for an identifier that was not on file
    [is_subscription] then answers true after [mark_subscription] and
    false after [mark_downloaded]. *)
Theorem recorded_is_known id c w r :
  row_from id c (length (events w)) = Some r ->
  exists w1,
    record id c w = Some (Ok tt, w1)
    /\ is_downloaded (PStr id) w1 = Some (Ok true, w1)
    /\ (select_row (Some id) (downloads w) = None ->
        is_subscription (PStr id) w1
          = Some (Ok match c with
                     | Restricted _ _ _ => true
                     | Downloaded _ _ _ _ => false
                     end, w1)).
Proof.
  intros Hrow. destruct (record_spec id c w r Hrow) as (Hrec & Hkey).
  exists (with_downloads (insert_or_ignore r) w). split; [exact Hrec|].
  pose proof (insert_or_ignore_select id r (downloads w) Hkey) as Hsel.
  assert (Hdl : downloads (with_downloads (insert_or_ignore r) w)
                = insert_or_ignore r (downloads w)) by (destruct w; reflexivity).
  split.
  - rewrite is_downloaded_str, Hdl, Hsel. reflexivity.
  - intros Hnew. rewrite is_subscription_str, Hdl, Hsel, Hnew.
    destruct c as [a t u tags|a t u]; cbn in Hrow.
    + destruct (Py.join nl tags), (sql_bind a), (sql_bind t), (sql_bind u);
        try discriminate. injection Hrow as <-. reflexivity.
    + destruct (sql_bind a), (sql_bind t), (sql_bind u); try discriminate.
      injection Hrow as <-. reflexivity.
Qed.

Lemma recorded_is_known_witness :
  exists w1,
    record "d1" (Restricted (PStr "alice") (PStr "first") PNone) empty_world
      = Some (Ok tt, w1)
    /\ is_downloaded (PStr "d1") w1 = Some (Ok true, w1)
    /\ (select_row (Some "d1") (downloads empty_world) = None ->
        is_subscription (PStr "d1") w1 = Some (Ok true, w1)).
Proof.
  apply (recorded_is_known "d1" (Restricted (PStr "alice") (PStr "first") PNone)
           empty_world restricted_row).
  reflexivity.
Defined.

Lemma insert_or_ignore_other r t key :
  deviationid r <> key ->
  select_row key (insert_or_ignore r t) = select_row key t.
Proof.
  intros Hne. unfold insert_or_ignore.
  destruct (select_row (deviationid r) t); [reflexivity|].
  destruct key as [k|]; [|reflexivity]. cbn [select_row].
  destruct (find (has_key k) t) as [row|] eqn:E.
  - apply find_app_some. exact E.
  - rewrite find_app_none by exact E. cbn.
    destruct (has_key k r) eqn:Hk; [|reflexivity].
    apply has_key_true in Hk. contradiction.
Qed.

(** Whatever a recording call ends with, the table is as it was or has
    taken the call's row. *)
Lemma record_downloads id c w r w1 :
  record id c w = Some (r, w1) ->
  downloads w1 = downloads w
  \/ exists row, deviationid row = Some id
                 /\ downloads w1 = insert_or_ignore row (downloads w).
Proof.
  destruct c as [a t u tags|a t u]; cbn [record];
    unfold mark_downloaded, mark_subscription; munfold; cbn.
  - destruct (Py.join nl tags); [|intros [= _ <-]; auto].
    destruct (sql_bind a); [|intros [= _ <-]; auto].
    destruct (sql_bind t); [|intros [= _ <-]; auto].
    destruct (sql_bind u); [|intros [= _ <-]; auto].
    intros [= _ <-]. right. eexists. split; [|reflexivity]. reflexivity.
  - destruct (sql_bind a); [|intros [= _ <-]; auto].
    destruct (sql_bind t); [|intros [= _ <-]; auto].
    destruct (sql_bind u); [|intros [= _ <-]; auto].
    intros [= _ <-]. right. eexists. split; [|reflexivity]. reflexivity.
Qed.

(** X4. Recording one identifier tells nothing about another: whatever
    the call ends with, [is_downloaded] and [is_subscription] answer
    for every other identifier as they did before. *)
Theorem recording_leaves_others id id' c w r w1 :
  id' <> id ->
  record id c w = Some (r, w1) ->
  exists known restricted,
    is_downloaded (PStr id') w = Some (Ok known, w)
    /\ is_downloaded (PStr id') w1 = Some (Ok known, w1)
    /\ is_subscription (PStr id') w = Some (Ok restricted, w)
    /\ is_subscription (PStr id') w1 = Some (Ok restricted, w1).
Proof.
  intros Hne Hrec.
  assert (Hsel : select_row (Some id') (downloads w1) = select_row (Some id') (downloads w)).
  { destruct (record_downloads id c w r w1 Hrec) as [->|(row & Hkey & ->)]; [reflexivity|].
    apply insert_or_ignore_other. rewrite Hkey. congruence. }
  eexists _, _. rewrite !is_subscription_str, !is_downloaded_str, Hsel.
  repeat split; reflexivity.
Qed.

Lemma recording_leaves_others_witness :
  exists known restricted,
    is_downloaded (PStr "d2") empty_world = Some (Ok known, empty_world)
    /\ is_downloaded (PStr "d2") (with_downloads (fun _ => [restricted_row]) empty_world)
       = Some (Ok known, with_downloads (fun _ => [restricted_row]) empty_world)
    /\ is_subscription (PStr "d2") empty_world = Some (Ok restricted, empty_world)
    /\ is_subscription (PStr "d2") (with_downloads (fun _ => [restricted_row]) empty_world)
       = Some (Ok restricted, with_downloads (fun _ => [restricted_row]) empty_world).
Proof.
  apply (recording_leaves_others "d1" "d2"
           (Restricted (PStr "alice") (PStr "first") PNone) empty_world (Ok tt)
           (with_downloads (fun _ => [restricted_row]) empty_world)).
  - discriminate.
  - reflexivity.
Defined.

Lemma rows_of_insert_other id r t :
  deviationid r <> Some id ->
  rows_of id (insert_or_ignore r t) = rows_of id t.
Proof.
  intros Hne. unfold insert_or_ignore.
  destruct (select_row (deviationid r) t); [reflexivity|].
  rewrite rows_of_app. unfold rows_of at 2.
  rewrite filter_cons, decide_False; [apply app_nil_r|].
  intros Hk. apply has_key_true in Hk. contradiction.
Qed.

(** [INSERT OR IGNORE] keeps the keys unique. *)
Lemma primary_key_insert r t : primary_key t -> primary_key (insert_or_ignore r t).
Proof.
  intros Hpk id.
  destruct (decide (deviationid r = Some id)) as [Hk|Hne].
  - rewrite (rows_of_insert_or_ignore id r t Hk Hpk). cbn. lia.
  - rewrite rows_of_insert_other by exact Hne. apply Hpk.
Qed.

(** X5. A run keeps the identifiers of the table unique: if no
    identifier has two rows when [main] starts, none has when it ends,
    however it ends. *)
Theorem main_keeps_primary_key cfg net fuel w r w' :
  primary_key (downloads w) ->
  main cfg net fuel w = Some (r, w') ->
  primary_key (downloads w').
Proof.
  intros Hpk Hmain. revert Hpk.
  eapply (preserves_main cfg net
            (fun w w' => primary_key (downloads w) -> primary_key (downloads w'))
            (fun _ => True) (fun _ => True)); try exact Hmain;
    first [ intros; exact I
          | intros ? ? ? H12 H23 H; exact (H23 (H12 H))
          | intros ? ? H; apply primary_key_insert; exact H
          | intros; assumption ].
Qed.

Lemma main_keeps_primary_key_witness :
  exists w',
    main default_config alice_one_item 1 empty_world = Some (Ok tt, w')
    /\ primary_key (downloads w').
Proof.
  eexists. split; [vm_compute; reflexivity|].
  apply (main_keeps_primary_key default_config alice_one_item 1 empty_world (Ok tt)).
  - intros id. cbn. lia.
  - vm_compute. reflexivity.
Defined.

(** X6. An identifier that is null is never known.  [is_downloaded]
    and [is_subscription] answer false for it whatever the table
    holds, and [mark_downloaded] adds a row for it every time: NULL
    equals nothing, so the lookups find no row and INSERT OR IGNORE
    finds no conflict. *)
Theorem null_identifier_is_never_known a t u tags joined a' t' u' w :
  Py.join nl tags = Ok joined ->
  sql_bind a = Ok a' ->
  sql_bind t = Ok t' ->
  sql_bind u = Ok u' ->
  is_downloaded PNone w = Some (Ok false, w)
  /\ is_subscription PNone w = Some (Ok false, w)
  /\ exists w1,
       mark_downloaded PNone a t u tags w = Some (Ok tt, w1)
       /\ length (downloads w1) = S (length (downloads w))
       /\ is_downloaded PNone w1 = Some (Ok false, w1).
Proof.
  intros Hj Ha Ht Hu. split; [reflexivity|]. split; [reflexivity|].
  eexists. split.
  - unfold mark_downloaded. munfold. rewrite Hj. cbn. rewrite Ha, Ht, Hu. reflexivity.
  - split; [|reflexivity].
    cbn [downloads with_downloads]. unfold insert_or_ignore. cbn [deviationid select_row].
    rewrite length_app. cbn. lia.
Qed.

Lemma null_identifier_is_never_known_witness :
  is_downloaded PNone empty_world = Some (Ok false, empty_world)
  /\ is_subscription PNone empty_world = Some (Ok false, empty_world)
  /\ exists w1,
       mark_downloaded PNone (PStr "alice") (PStr "first") PNone [PStr "cat"] empty_world
         = Some (Ok tt, w1)
       /\ length (downloads w1) = S (length (downloads empty_world))
       /\ is_downloaded PNone w1 = Some (Ok false, w1).
Proof.
  apply (null_identifier_is_never_known (PStr "alice") (PStr "first") PNone [PStr "cat"]
           "cat" (SqlText "alice") (SqlText "first") SqlNull empty_world);
    reflexivity.
Defined.

(** ** More on [deviantart_get] *)

Section PlainFailures.

Variable cfg : Config.
Variable net : Network.
Variable url : string.
Variable params : Params.

Hypothesis all_fail : forall n q, plain_failure (api net n q) = true.

Lemma attempt_plain_failure retries token w :
  let q := {| req_url := url; req_token := token; req_params := params |} in
  exists msg,
    attempt cfg net url params retries token w
      = Some (Ok (Continue (retries + 1) token),
              advance 1 0 [EvGet q; EvLog ERROR msg; EvSleep SleepTime] w).
Proof.
  intros q. pose proof (all_fail (n_api w) q) as Hf.
  unfold attempt, requests_get. munfold. cbn. fold q.
  destruct (api net (n_api w) q) as [r|]; cbn in *.
  - destruct (status_code r =? 429); [discriminate|].
    destruct (status_code r =? 401); [discriminate|].
    destruct (ok (status_code r)); [discriminate|]. cbn.
    eexists. destruct w; reflexivity.
  - eexists. destruct w; reflexivity.
Qed.

Lemma deviantart_get_loop_plain_failures fuel : forall retries token w,
  (Z.to_nat (MAX_RETRIES cfg - retries) <= fuel)%nat ->
  exists msgs,
    length msgs = Z.to_nat (MAX_RETRIES cfg - retries)
    /\ deviantart_get_loop cfg net fuel url params retries token w
       = Some (Raise (RuntimeError (MAX_RETRIES cfg) url),
               advance (length msgs) 0
                 (plain_retries {| req_url := url; req_token := token;
                                   req_params := params |} msgs) w).
Proof.
  induction fuel as [|fuel IH]; intros retries token w Hfuel;
    cbn [deviantart_get_loop];
    destruct (Z.ltb_spec retries (MAX_RETRIES cfg)) as [Hlt|Hge]; try lia;
    try (exists []; split; [cbn; lia|]; cbn; rewrite advance_0; reflexivity).
  destruct (attempt_plain_failure retries token w) as (msg & Hatt).
  munfold. rewrite Hatt.
  destruct (IH (retries + 1) token
              (advance 1 0 [EvGet {| req_url := url; req_token := token;
                                     req_params := params |};
                            EvLog ERROR msg; EvSleep SleepTime] w))
    as (msgs & Hlen & Hloop); [lia|].
  rewrite Hloop, advance_advance.
  exists (msg :: msgs). split; [cbn; lia|]. reflexivity.
Qed.

End PlainFailures.

Lemma lookup_repeat {A} (x : A) n i : (i < n)%nat -> repeat x n !! i = Some x.
Proof.
  revert i. induction n as [|n IH]; intros i Hi; [lia|].
  destruct i as [|i]; [reflexivity|]. cbn. apply IH. lia.
Qed.

Lemma requests_plain_retries rq msgs :
  requests (plain_retries rq msgs) = repeat rq (length msgs).
Proof.
  induction msgs as [|msg msgs IH]; [reflexivity|].
  unfold plain_retries in *. cbn. rewrite IH. reflexivity.
Qed.

Lemma waits_after_plain_retries rq msgs :
  waits_after (plain_retries rq msgs) = repeat (Some SleepTime) (length msgs).
Proof.
  induction msgs as [|msg msgs IH]; [reflexivity|].
  unfold plain_retries in *. cbn. rewrite IH. reflexivity.
Qed.

Lemma token_posts_plain_retries rq msgs : token_posts (plain_retries rq msgs) = O.
Proof.
  induction msgs as [|msg msgs IH]; [reflexivity|].
  unfold plain_retries in *. cbn. exact IH.
Qed.

(** X7. A service that is down.  When every request fails plainly (no
    response, or a status that is not ok and is neither 429 nor 401),
    [deviantart_get] makes [MAX_RETRIES] passes, each of which sends
    the request with the token the call was given, logs an error and
    sleeps [SLEEP_TIME] (the last pass as well); it never exchanges
    the credentials, and ends with the [RuntimeError]. *)
Theorem deviantart_get_service_down cfg net url token params w :
  (forall n q, plain_failure (api net n q) = true) ->
  let rq := {| req_url := url; req_token := token; req_params := params |} in
  let attempts := Z.to_nat (MAX_RETRIES cfg) in
  exists msgs,
    let chron := plain_retries rq msgs in
    length msgs = attempts
    /\ deviantart_get cfg net url token params w
       = Some (Raise (RuntimeError (MAX_RETRIES cfg) url), advance attempts 0 chron w)
    /\ requests chron = repeat rq attempts
    /\ (forall k, (1 <= k <= attempts)%nat -> wait_after k chron = Some SleepTime)
    /\ token_posts chron = O.
Proof.
  intros Hfail rq attempts.
  destruct (deviantart_get_loop_plain_failures cfg net url params Hfail
              (Z.to_nat (MAX_RETRIES cfg)) 0 token w) as (msgs & Hlen & Hrun); [lia|].
  rewrite Z.sub_0_r in Hlen. fold attempts in Hlen. fold rq in Hrun.
  exists msgs. cbn zeta. split; [exact Hlen|].
  split; [unfold deviantart_get; rewrite Hrun, Hlen; reflexivity|].
  split; [rewrite requests_plain_retries, Hlen; reflexivity|].
  split; [|apply token_posts_plain_retries].
  intros k Hk. unfold wait_after. destruct k as [|i]; [lia|].
  rewrite waits_after_plain_retries, Hlen.
  rewrite lookup_repeat by lia. reflexivity.
Qed.

Lemma deviantart_get_service_down_witness :
  let net := {| api := fun _ _ => Fails;
                token_endpoint := token_endpoint always_429;
                asset_host := asset_host always_429;
                tagger := tagger always_429 |} in
  let rq := {| req_url := "u"; req_token := "t"; req_params := [] |} in
  let attempts := Z.to_nat (MAX_RETRIES default_config) in
  exists msgs,
    let chron := plain_retries rq msgs in
    length msgs = attempts
    /\ deviantart_get default_config net "u" "t" [] empty_world
       = Some (Raise (RuntimeError (MAX_RETRIES default_config) "u"),
               advance attempts 0 chron empty_world)
    /\ requests chron = repeat rq attempts
    /\ (forall k, (1 <= k <= attempts)%nat -> wait_after k chron = Some SleepTime)
    /\ token_posts chron = O.
Proof.
  intros net.
  apply (deviantart_get_service_down default_config net "u" "t" [] empty_world).
  intros n q. reflexivity.
Defined.

Section AlwaysExpired.

Variable cfg : Config.
Variable net : Network.
Variable url : string.
Variable params : Params.
Variable granted : nat -> string.

Hypothesis all_401 : forall n q, exists r, api net n q = Responds r /\ status_code r = 401.
Hypothesis all_granted :
  forall n, exists status,
    token_endpoint net n = TokenResponds status (granted n) /\ ok status = true.

Lemma deviantart_get_loop_401 fuel : forall retries token w,
  (Z.to_nat (MAX_RETRIES cfg - retries) <= fuel)%nat ->
  let n := Z.to_nat (MAX_RETRIES cfg - retries) in
  deviantart_get_loop cfg net fuel url params retries token w
    = Some (Raise (RuntimeError (MAX_RETRIES cfg) url),
            advance n n
              (refresh_run url params token (map granted (seq (n_token w) n))) w).
Proof.
  induction fuel as [|fuel IH]; intros retries token w Hfuel n; subst n;
    cbn [deviantart_get_loop];
    destruct (Z.ltb_spec retries (MAX_RETRIES cfg)) as [Hlt|Hge]; try lia;
    try (replace (Z.to_nat (MAX_RETRIES cfg - retries)) with O by lia;
         cbn; rewrite advance_0; reflexivity).
  destruct (all_401 (n_api w)
              {| req_url := url; req_token := token; req_params := params |})
    as (r & Hr & Hs).
  destruct (all_granted (n_token w)) as (status & Ht & Hok).
  munfold.
  rewrite (attempt_401_granted cfg net url params retries token w r status _ Hr Hs Ht Hok).
  rewrite IH by lia. rewrite advance_advance.
  replace (Z.to_nat (MAX_RETRIES cfg - retries))
    with (S (Z.to_nat (MAX_RETRIES cfg - (retries + 1)))) by lia.
  reflexivity.
Qed.

End AlwaysExpired.

Lemma requests_refresh_run url params token granted :
  requests (refresh_run url params token granted)
    = map (fun t => {| req_url := url; req_token := t; req_params := params |})
        (removelast (token :: granted)).
Proof.
  revert token. induction granted as [|t granted IH]; intros token; [reflexivity|].
  cbn [refresh_run app requests]. rewrite IH. reflexivity.
Qed.

Lemma token_posts_refresh_run url params token granted :
  token_posts (refresh_run url params token granted) = length granted.
Proof.
  revert token. induction granted as [|t granted IH]; intros token; [reflexivity|].
  cbn [refresh_run app token_posts length]. rewrite IH. reflexivity.
Qed.

Lemma sleeps_refresh_run url params token granted :
  sleeps (refresh_run url params token granted) = [].
Proof.
  revert token. induction granted as [|t granted IH]; intros token; [reflexivity|].
  cbn [refresh_run app sleeps]. apply IH.
Qed.

(** X8. Credentials that keep being rejected.  When every request is
    answered with 401 and every credential exchange grants a token,
    [deviantart_get] makes [MAX_RETRIES] passes, each of which sends a
    request and exchanges the credentials: the first request carries
    the token of the call and every later one the token granted just
    before it; there is no pause anywhere, the token granted last is
    never used, and the call ends with the [RuntimeError]. *)
Theorem deviantart_get_always_401 cfg net url token params granted w :
  (forall n q, exists r, api net n q = Responds r /\ status_code r = 401) ->
  (forall n, exists status,
      token_endpoint net n = TokenResponds status (granted n) /\ ok status = true) ->
  let attempts := Z.to_nat (MAX_RETRIES cfg) in
  let tokens := map granted (seq (n_token w) attempts) in
  let chron := refresh_run url params token tokens in
  deviantart_get cfg net url token params w
    = Some (Raise (RuntimeError (MAX_RETRIES cfg) url), advance attempts attempts chron w)
  /\ requests chron
     = map (fun t => {| req_url := url; req_token := t; req_params := params |})
         (removelast (token :: tokens))
  /\ token_posts chron = attempts
  /\ sleeps chron = [].
Proof.
  intros H401 Hgr attempts tokens chron.
  pose proof (deviantart_get_loop_401 cfg net url params granted H401 Hgr
                (Z.to_nat (MAX_RETRIES cfg)) 0 token w) as Hrun.
  cbn zeta in Hrun. rewrite Z.sub_0_r in Hrun.
  split; [apply Hrun; lia|].
  split; [apply requests_refresh_run|].
  split; [|apply sleeps_refresh_run].
  subst chron tokens. rewrite token_posts_refresh_run, length_map, length_seq. reflexivity.
Qed.

Lemma deviantart_get_always_401_witness :
  let net := {| api := fun _ _ => Responds {| status_code := 401; json := PNone |};
                token_endpoint := fun n => TokenResponds 200 (decimal (Z.of_nat n));
                asset_host := asset_host always_429;
                tagger := tagger always_429 |} in
  let attempts := Z.to_nat (MAX_RETRIES default_config) in
  let tokens := map (fun n => decimal (Z.of_nat n)) (seq 0 attempts) in
  let chron := refresh_run "u" [] "t" tokens in
  deviantart_get default_config net "u" "t" [] empty_world
    = Some (Raise (RuntimeError (MAX_RETRIES default_config) "u"),
            advance attempts attempts chron empty_world)
  /\ requests chron
     = map (fun t => {| req_url := "u"; req_token := t; req_params := [] |})
         (removelast ("t" :: tokens))
  /\ token_posts chron = attempts
  /\ sleeps chron = [].
Proof.
  intros net.
  apply (deviantart_get_always_401 default_config net "u" "t" []
           (fun n => decimal (Z.of_nat n)) empty_world).
  - intros n q. eexists. split; reflexivity.
  - intros n. exists 200. split; reflexivity.
Defined.

(** ** More on the checkpoint and the run *)

Lemma get_access_token_keeps_progress net w r w1 :
  get_access_token net w = Some (r, w1) -> progress_file w1 = progress_file w.
Proof.
  intros Htok.
  eapply (preserves_get_access_token net (fun w w' => progress_file w' = progress_file w)
            (fun _ => True)); try exact Htok;
    first [ intros; reflexivity | intros; exact I | intros; congruence ].
Qed.

(** How [save_progress] ends: the checkpoint is written, or the write
    fails, which is logged and leaves the file as it was. *)
Lemma save_progress_inv i o w r w' :
  save_progress i o w = Some (r, w') ->
  r = Ok tt
  /\ (w' = with_progress_file (Saved (Some i) (Some o)) w
      \/ exists e,
           progress_error (disk w) (length (events w)) = Some e
           /\ w' = with_events (cons (EvLog WARNING (MsgProgressSaveFailed e))) w).
Proof.
  unfold save_progress. munfold.
  destruct (progress_error _ _) as [e|]; intros [= <- <-]; eauto.
Qed.

(** X9. Where a run leaves the checkpoint.  A run that ends normally
    has either reset the checkpoint to creator 0, offset 0, whatever
    happened to the creators on the way, or failed to write it, which
    it logged as its last step; a run that ends with an exception has
    not touched the progress file. *)
Theorem main_leaves_checkpoint cfg net fuel w r w' :
  main cfg net fuel w = Some (r, w') ->
  match r with
  | Ok _ =>
      progress_file w' = Saved (Some 0) (Some (PInt 0))
      \/ exists e w0,
           progress_error (disk w0) (length (events w0)) = Some e
           /\ w' = with_events (cons (EvLog WARNING (MsgProgressSaveFailed e))) w0
  | Raise _ => progress_file w' = progress_file w
  end.
Proof.
  intros Hmain. destruct r as [[]|e].
  - unfold main in Hmain.
    do 9 (apply bind_inv in Hmain as [(? & ? & _ & Hmain)|(? & _ & [=])]).
    apply save_progress_inv in Hmain as [_ [->|(e & He & ->)]].
    + left. reflexivity.
    + right. eauto.
  - destruct (main_raises_inv cfg net fuel w e w' Hmain)
      as [Htok|[(token & w1 & Htok & Hart)
               |(_ & _ & token & w1 & artists & w2 & Htok & Hart & ->)]].
    + exact (get_access_token_keeps_progress net w _ w' Htok).
    + exact (startup_keeps_progress cfg net fuel w token w1 _ w' Htok Hart).
    + exact (startup_keeps_progress cfg net fuel w token w1 _ w2 Htok Hart).
Qed.

Lemma main_leaves_checkpoint_witness :
  exists w',
    main default_config four_friends 1 interrupted = Some (Ok tt, w')
    /\ (progress_file w' = Saved (Some 0) (Some (PInt 0))
        \/ exists e w0,
             progress_error (disk w0) (length (events w0)) = Some e
             /\ w' = with_events (cons (EvLog WARNING (MsgProgressSaveFailed e))) w0).
Proof.
  eexists. split; [vm_compute; reflexivity|].
  apply (main_leaves_checkpoint default_config four_friends 1 interrupted (Ok tt)).
  vm_compute. reflexivity.
Defined.

(** X10. A checkpoint past the end of the list.  When the saved index
    is not below the number of followed creators (the list got
    shorter since the interrupted run), the run announces no creator
    and asks for no gallery: after the enumeration all it does is to
    try to reset the checkpoint. *)
Theorem stale_checkpoint_processes_nobody cfg net fuel w i o token w1 artists w2 :
  FORCE_RECHECK cfg = false ->
  progress_file w = Saved (Some i) o ->
  Z.of_nat (length artists) <= i ->
  get_access_token net w = Some (Ok token, w1) ->
  get_followed_artists cfg net fuel token w1 = Some (Ok artists, w2) ->
  main cfg net fuel w
    = save_progress 0 (PInt 0)
        (with_events (cons (EvLog INFO (MsgFound (length artists)))) w2).
Proof.
  intros Hforce Hfile Hlen Htok Hart.
  pose proof (startup_keeps_progress cfg net fuel w token w1 _ w2 Htok Hart) as Hkeep.
  rewrite (main_from_start _ _ _ _ _ _ _ _ Htok Hart).
  assert (Hload : load_progress cfg
                    (with_events (cons (EvLog INFO (MsgFound (length artists)))) w2)
                  = Some (Ok (PDict (("last_artist_index", PInt i)
                                     :: match o with
                                        | Some o' => [("last_offset", o')]
                                        | None => []
                                        end)),
                          with_events (cons (EvLog INFO (MsgFound (length artists)))) w2)).
  { unfold load_progress. munfold. cbn [progress_file with_events].
    rewrite Hforce, Hkeep, Hfile. reflexivity. }
  rewrite (bind_ok _ _ _ _ _ Hload).
  unfold start_position. cbn.
  unfold slice_from. destruct (Z.ltb_spec i 0) as [Hneg|_]; [lia|].
  rewrite drop_ge by lia. reflexivity.
Qed.

Lemma stale_checkpoint_processes_nobody_witness :
  let w := with_progress_file (Saved (Some 7) (Some (PInt 48))) empty_world in
  exists w2,
    main default_config four_friends 1 w
      = save_progress 0 (PInt 0) (with_events (cons (EvLog INFO (MsgFound 4))) w2).
Proof.
  intros w. eexists.
  apply (stale_checkpoint_processes_nobody default_config four_friends 1 w 7
           (Some (PInt 48)) "fresh"
           (advance 0 1 [EvTokenPost; EvLog INFO MsgAuthenticated] w)
           [PStr "alice"; PStr "bob"; PStr "carol"; PStr "dave"]).
  - reflexivity.
  - reflexivity.
  - cbn. lia.
  - reflexivity.
  - vm_compute. reflexivity.
Defined.

Lemma store_kept_refl w : store_kept w w.
Proof. repeat split. Qed.

Lemma store_kept_trans w1 w2 w3 : store_kept w1 w2 -> store_kept w2 w3 -> store_kept w1 w3.
Proof. intros (? & ? & ?) (? & ? & ?). repeat split; congruence. Qed.

(** X12. The enumeration only reads.  However [get_followed_artists]
    ends, the table, the files and the checkpoint are as they were, and
    all it did was to ask for pages of the friends list, exchange the
    credentials, sleep and log. *)
Theorem enumeration_only_reads cfg net fuel token w r w' :
  get_followed_artists cfg net fuel token w = Some (r, w') ->
  store_kept w w' /\ emits (enumeration_event cfg) w w'.
Proof.
  apply (preserves_get_followed_artists cfg net
           (fun w w' => store_kept w w' /\ emits (enumeration_event cfg) w w')
           (enumeration_event cfg) (fun u => u = friends_url cfg));
    first [ reflexivity
          | exact I
          | intros; exact I
          | intros; assumption
          | intros ?; split; [apply store_kept_refl|apply emits_refl]
          | intros ? ? ? [? ?] [? ?]; split;
            [eapply store_kept_trans|eapply emits_trans]; eassumption
          | intros; split; [repeat split|apply emits_emit; assumption]
          | intros; split; [repeat split|apply emits_same; reflexivity] ].
Qed.

Lemma enumeration_only_reads_witness :
  exists r w',
    get_followed_artists default_config four_friends 1 "fresh" authenticated
      = Some (r, w')
    /\ store_kept authenticated w'
    /\ emits (enumeration_event default_config) authenticated w'.
Proof.
  eexists _, _. split; [vm_compute; reflexivity|].
  eapply (enumeration_only_reads default_config four_friends 1 "fresh" authenticated).
  vm_compute. reflexivity.
Defined.

(** X13. [save_deviation] leaves the checkpoint alone, and of the API
    it only asks for metadata: however it ends, the progress file is
    as it was and every request it sent went to the metadata URL. *)
Theorem save_deviation_asks_metadata_only cfg net token artist deviation w r w' :
  save_deviation cfg net token artist deviation w = Some (r, w') ->
  progress_file w' = progress_file w /\ emits item_event w w'.
Proof.
  apply (preserves_save_deviation cfg net
           (fun w w' => progress_file w' = progress_file w /\ emits item_event w w')
           item_event (fun u => u = metadata_url));
    first [ reflexivity
          | exact I
          | intros; exact I
          | intros; assumption
          | intros ?; split; [reflexivity|apply emits_refl]
          | intros ? ? ? [? ?] [? ?]; split;
            [congruence|eapply emits_trans; eassumption]
          | intros; split; [reflexivity|apply emits_emit; assumption]
          | intros; split; [reflexivity|apply emits_same; reflexivity] ].
Qed.

Lemma save_deviation_asks_metadata_only_witness :
  exists r w',
    save_deviation default_config alice_one_item "fresh" (PStr "alice") free_item
      interrupted = Some (r, w')
    /\ progress_file w' = progress_file interrupted
    /\ emits item_event interrupted w'.
Proof.
  eexists _, _. split; [vm_compute; reflexivity|].
  eapply (save_deviation_asks_metadata_only default_config alice_one_item "fresh"
            (PStr "alice") free_item interrupted).
  vm_compute. reflexivity.
Defined.

(** ** More on [get_followed_artists] *)

Lemma sleeps_app tr1 tr2 : sleeps (tr1 ++ tr2) = sleeps tr1 ++ sleeps tr2.
Proof.
  induction tr1 as [|e tr1 IH]; [reflexivity|].
  destruct e; cbn; rewrite ?IH; reflexivity.
Qed.

(** A request that is answered at once. *)
Lemma deviantart_get_first_try cfg net url token params w body :
  0 < MAX_RETRIES cfg ->
  success_body (api net (n_api w)
                  {| req_url := url; req_token := token; req_params := params |})
    = Some body ->
  deviantart_get cfg net url token params w
    = Some (Ok body,
            advance 1 0 [EvGet {| req_url := url; req_token := token;
                                  req_params := params |}] w).
Proof.
  intros Hmax Hsb. unfold deviantart_get.
  destruct (Z.to_nat (MAX_RETRIES cfg)) as [|fuel] eqn:E; [lia|].
  cbn [deviantart_get_loop].
  destruct (Z.ltb_spec 0 (MAX_RETRIES cfg)); [|lia].
  rewrite (bind_ok _ _ _ _ _ (attempt_success cfg net url params 0 token w body Hsb)).
  reflexivity.
Qed.

(** One pass of the [while True] loop over a page that is served at
    once. *)
Lemma followed_artists_loop_page cfg net fuel token offset acc w data batch more next :
  0 < MAX_RETRIES cfg ->
  success_body (api net (n_api w) (friends_request cfg token offset)) = Some data ->
  is_page data batch more next ->
  let fetched := [EvGet (friends_request cfg token offset);
                  EvLog INFO (MsgFetched (length batch) (length (acc ++ batch)))] in
  followed_artists_loop cfg net (S fuel) token offset acc w
    = if more then
        followed_artists_loop cfg net fuel token next (acc ++ batch)
          (advance 1 0 (fetched ++ [EvSleep SleepTime]) w)
      else Some (Ok (acc ++ batch), advance 1 0 fetched w).
Proof.
  intros Hmax Hsb (results & fs & has_more & Hres & Hfs & Hbatch & Hmore & Htruthy & Hnext)
    fetched.
  cbn [followed_artists_loop].
  rewrite (bind_ok _ _ _ _ _
             (deviantart_get_first_try cfg net (friends_url cfg) token _ w data Hmax Hsb)).
  rewrite Hres. munfold. cbn. rewrite Hfs. cbn. rewrite Hbatch. cbn.
  rewrite Hmore. cbn. rewrite Htruthy.
  destruct more; cbn.
  - rewrite Hnext. cbn. first [reflexivity | f_equal; destruct w; reflexivity].
  - first [reflexivity | do 2 f_equal; destruct w; reflexivity].
Qed.

Lemma followed_artists_loop_pages cfg net token pages :
  0 < MAX_RETRIES cfg ->
  pages <> [] ->
  forall offset acc w,
    serves cfg net token (n_api w) offset pages ->
    exists chron,
      followed_artists_loop cfg net (length pages) token offset acc w
        = Some (Ok (acc ++ concat (map fst pages)),
                advance (length pages) 0 chron w)
      /\ requests chron = friends_requests cfg token offset pages
      /\ sleeps chron = repeat SleepTime (length pages - 1)
      /\ token_posts chron = O.
Proof.
  intros Hmax. induction pages as [|[batch next] rest IH]; [congruence|].
  intros _ offset acc w [(data & Hsb & Hpage) Hrest].
  cbn [length].
  rewrite (followed_artists_loop_page cfg net (length rest) token offset acc w
             data batch _ next Hmax Hsb Hpage).
  destruct rest as [|page rest].
  - eexists. split; [cbn; rewrite app_nil_r; reflexivity|].
    repeat split; reflexivity.
  - destruct (IH ltac:(discriminate) next (acc ++ batch)
                (advance 1 0
                   ([EvGet (friends_request cfg token offset);
                     EvLog INFO (MsgFetched (length batch) (length (acc ++ batch)))]
                    ++ [EvSleep SleepTime]) w) Hrest)
      as (chron & Hloop & Hrq & Hsl & Htp).
    rewrite Hloop, advance_advance. eexists. split.
    + cbn [map fst concat]. rewrite <- app_assoc. reflexivity.
    + rewrite requests_app, sleeps_app, token_posts_app, Hrq, Hsl, Htp.
      cbn [length Nat.sub]. rewrite Nat.sub_0_r.
      repeat split; reflexivity.
Qed.

(** X14. The followed creators, page by page.  When the service
    answers each request for a page at once, [get_followed_artists]
    returns the names of all the pages in the order of the pages; it
    sends one request for each page, the first at offset 0 and each
    later one at the offset the page before it named, sleeps
    [SLEEP_TIME] between two pages and not after the last, and never
    exchanges the credentials. *)
Theorem get_followed_artists_pages cfg net token pages w :
  0 < MAX_RETRIES cfg ->
  pages <> [] ->
  serves cfg net token (n_api w) (PInt 0) pages ->
  exists chron,
    get_followed_artists cfg net (length pages) token w
      = Some (Ok (concat (map fst pages)),
              advance (length pages) 0 (EvLog INFO MsgFetchingArtists :: chron) w)
    /\ requests chron = friends_requests cfg token (PInt 0) pages
    /\ sleeps chron = repeat SleepTime (length pages - 1)
    /\ token_posts chron = O.
Proof.
  intros Hmax Hne Hserves.
  destruct (followed_artists_loop_pages cfg net token pages Hmax Hne (PInt 0) []
              (with_events (cons (EvLog INFO MsgFetchingArtists)) w) Hserves)
    as (chron & Hloop & Hrest).
  exists chron. split; [|exact Hrest].
  unfold get_followed_artists.
  rewrite (bind_ok (logging INFO MsgFetchingArtists) _ w tt
             (with_events (cons (EvLog INFO MsgFetchingArtists)) w) eq_refl).
  rewrite Hloop. cbn [app].
  do 2 f_equal. destruct w; unfold advance; cbn. f_equal; try lia.
  rewrite <- app_assoc. reflexivity.
Qed.

Lemma get_followed_artists_pages_witness :
  let pages := [([PStr "alice"], PInt 24); ([PStr "bob"], PNone)] in
  exists chron,
    get_followed_artists default_config two_pages 2 "fresh" empty_world
      = Some (Ok [PStr "alice"; PStr "bob"],
              advance 2 0 (EvLog INFO MsgFetchingArtists :: chron) empty_world)
    /\ requests chron = friends_requests default_config "fresh" (PInt 0) pages
    /\ sleeps chron = repeat SleepTime 1
    /\ token_posts chron = O.
Proof.
  intros pages.
  apply (get_followed_artists_pages default_config two_pages "fresh" pages empty_world).
  - reflexivity.
  - discriminate.
  - cbn. split; [|split; [|exact I]].
    + eexists. split; [reflexivity|]. eexists _, _, _. repeat split; reflexivity.
    + eexists. split; [reflexivity|]. eexists _, _, _. repeat split; reflexivity.
Defined.

(** X15. A friends list that never says it is complete is read for
    ever: when every request is answered at once with a page that has
    [has_more] set, [get_followed_artists] does not end, whatever the
    number of passes it is given. *)
Theorem get_followed_artists_never_ends cfg net token :
  0 < MAX_RETRIES cfg ->
  (forall n q, exists data batch next,
      success_body (api net n q) = Some data /\ is_page data batch true next) ->
  forall fuel w, get_followed_artists cfg net fuel token w = None.
Proof.
  intros Hmax Hpages fuel w. unfold get_followed_artists. munfold.
  cbn. generalize (with_events (cons (EvLog INFO MsgFetchingArtists)) w).
  generalize (PInt 0). generalize (@nil pyval).
  induction fuel as [|fuel IH]; intros acc offset w0; [reflexivity|].
  destruct (Hpages (n_api w0) (friends_request cfg token offset))
    as (data & batch & next & Hsb & Hpage).
  rewrite (followed_artists_loop_page cfg net fuel token offset acc w0
             data batch true next Hmax Hsb Hpage).
  apply IH.
Qed.

Lemma get_followed_artists_never_ends_witness :
  get_followed_artists default_config endless_friends 1000 "fresh" empty_world = None.
Proof.
  apply (get_followed_artists_never_ends default_config endless_friends "fresh").
  - reflexivity.
  - intros n q. eexists _, _, _. split; [reflexivity|].
    eexists _, _, _. repeat split; reflexivity.
Defined.

(** ** More on [save_deviation] *)

Tactic Notation "ok_step" hyp(H) "as" ident(a) ident(w) ident(Hm) :=
  apply bind_inv in H as [(a & w & Hm & H)|(? & _ & [=])].

Lemma lift_inv {A} (x : Result A) w r w' :
  lift x w = Some (r, w') -> r = x /\ w' = w.
Proof. destruct x; cbn; intros [= <- <-]; auto. Qed.

Lemma logging_inv l m w r w' :
  logging l m w = Some (r, w') -> r = Ok tt /\ w' = with_events (cons (EvLog l m)) w.
Proof. intros [= <- <-]. auto. Qed.

Lemma save_deviation_dict cfg net token artist fields idv w :
  Py.lookup "deviationid" fields = Some idv ->
  save_deviation cfg net token artist (PDict fields) w
    = classify_and_store cfg net token artist (PDict fields) idv
        (field fields "title" (PStr "untitled")) (field fields "content" (PDict []))
        (field fields "url" PNone) w.
Proof.
  intros Hid. unfold save_deviation. cbn [Py.getitem Py.get]. rewrite Hid. reflexivity.
Qed.

Lemma is_subscription_bound idv key w :
  sql_bind idv = Ok key ->
  is_subscription idv w
    = Some (Ok match select_row (text_affinity key) (downloads w) with
               | Some row => is_premium row =? 1
               | None => false
               end, w).
Proof. intros H. unfold is_subscription. munfold. rewrite H. reflexivity. Qed.

Lemma is_downloaded_bound idv key w :
  sql_bind idv = Ok key ->
  is_downloaded idv w
    = Some (Ok match select_row (text_affinity key) (downloads w) with
               | Some _ => true
               | None => false
               end, w).
Proof. intros H. unfold is_downloaded. munfold. rewrite H. reflexivity. Qed.

Lemma is_subscription_unbound idv e w :
  sql_bind idv = Raise e -> is_subscription idv w = Some (Raise e, w).
Proof. intros H. unfold is_subscription. munfold. rewrite H. reflexivity. Qed.

(** A recording call that ends well has done its INSERT OR IGNORE. *)
Lemma mark_downloaded_inv idv a t u tags w w' :
  mark_downloaded idv a t u tags w = Some (Ok tt, w') ->
  exists key row,
    sql_bind idv = Ok key /\ deviationid row = text_affinity key
    /\ w' = with_downloads (insert_or_ignore row) w.
Proof.
  unfold mark_downloaded. munfold.
  destruct (Py.join nl tags); [|discriminate].
  destruct (sql_bind idv) as [key|]; [|discriminate].
  destruct (sql_bind a); [|discriminate].
  destruct (sql_bind t); [|discriminate].
  destruct (sql_bind u); [|discriminate].
  cbn. intros [= <-]. eexists key, _. split; [reflexivity|].
  split; [|reflexivity]; reflexivity.
Qed.

Lemma mark_subscription_inv idv a t u w w' :
  mark_subscription idv a t u w = Some (Ok tt, w') ->
  exists key row,
    sql_bind idv = Ok key /\ deviationid row = text_affinity key
    /\ w' = with_downloads (insert_or_ignore row) w.
Proof.
  unfold mark_subscription. munfold.
  destruct (sql_bind idv) as [key|]; [|discriminate].
  destruct (sql_bind a); [|discriminate].
  destruct (sql_bind t); [|discriminate].
  destruct (sql_bind u); [|discriminate].
  cbn. intros [= <-]. eexists key, _. split; [reflexivity|].
  split; [|reflexivity]; reflexivity.
Qed.

Lemma select_row_inserted k row w :
  deviationid row = Some k ->
  select_row (Some k) (downloads (with_downloads (insert_or_ignore row) w)) <> None.
Proof.
  intros Hk.
  replace (downloads (with_downloads (insert_or_ignore row) w))
    with (insert_or_ignore row (downloads w)) by (destruct w; reflexivity).
  rewrite (insert_or_ignore_select k row _ Hk). discriminate.
Qed.

Lemma ledger_kept_on_file key w w' :
  ledger_kept w w' ->
  select_row key (downloads w) <> None -> select_row key (downloads w') <> None.
Proof.
  intros Hk Hfile. destruct (select_row key (downloads w)) as [row|] eqn:E; [|congruence].
  rewrite (Hk _ _ E). discriminate.
Qed.

Lemma fetch_and_store_keeps_ledger cfg net token a id t c u :
  preserves ledger_kept (fetch_and_store cfg net token a id t c u).
Proof.
  apply (preserves_fetch_and_store cfg net ledger_kept (fun _ => True) (fun _ => True));
    ledger_kept_side.
Qed.

(** A download that ends well has filed the identifier. *)
Lemma fetch_and_store_files cfg net token a idv t c u key k w w1 :
  sql_bind idv = Ok key ->
  text_affinity key = Some k ->
  fetch_and_store cfg net token a idv t c u w = Some (Ok tt, w1) ->
  select_row (Some k) (downloads w1) <> None.
Proof.
  intros Hkey Hk H. unfold fetch_and_store in H.
  ok_step H as metadata w2 H2. ok_step H as tags w3 H3.
  ok_step H as name w4 H4. ok_step H as x0 w0 H0. ok_step H as x5 w5 H5.
  ok_step H as x6 w6 H6. ok_step H as x7 w7 H7.
  ok_step H as x8 w8 H8.
  destruct x8. apply logging_inv in H as [_ ->].
  apply mark_downloaded_inv in H8 as (key' & row & Hkey' & Hrow & ->).
  rewrite Hkey in Hkey'. injection Hkey' as <-. rewrite Hk in Hrow.
  apply (select_row_inserted k row w7 Hrow).
Qed.

(** An item that [save_deviation] has handled is on file. *)
Lemma classify_and_store_files cfg net token artist deviation idv title content url
    key k w w1 :
  sql_bind idv = Ok key ->
  text_affinity key = Some k ->
  classify_and_store cfg net token artist deviation idv title content url w
    = Some (Ok tt, w1) ->
  select_row (Some k) (downloads w1) <> None.
Proof.
  intros Hkey Hk H. unfold classify_and_store in H.
  rewrite (bind_ok _ _ _ _ _ (is_subscription_bound idv key w Hkey)), Hk in H.
  destruct (select_row (Some k) (downloads w)) as [row|] eqn:E.
  - assert (Hw : downloads w1 = downloads w).
    { destruct (is_premium row =? 1).
      - apply logging_inv in H as [_ ->]. reflexivity.
      - rewrite (bind_ok _ _ _ _ _ (is_downloaded_bound idv key w Hkey)), Hk, E in H.
        apply logging_inv in H as [_ ->]. reflexivity. }
    rewrite Hw, E. discriminate.
  - rewrite (bind_ok _ _ _ _ _ (is_downloaded_bound idv key w Hkey)), Hk, E in H.
    ok_step H as premium w2 H2. apply lift_inv in H2 as [_ ->].
    destruct premium.
    + ok_step H as x3 w3 H3. ok_step H as x4 w4 H4. destruct x4.
      apply mark_subscription_inv in H4 as (key' & row & Hkey' & Hrow & ->).
      rewrite Hkey in Hkey'. injection Hkey' as <-. rewrite Hk in Hrow.
      pose proof (select_row_inserted k row w3 Hrow) as Hfile.
      destruct (negb (DOWNLOAD_SUBSCRIPTIONS cfg)).
      * injection H as <-. exact Hfile.
      * ok_step H as x5 w5 H5. apply logging_inv in H5 as [_ ->].
        eapply ledger_kept_on_file; [|exact Hfile].
        intros key0 row0 H0.
        apply (fetch_and_store_keeps_ledger cfg net token artist idv title content url
                 _ _ _ H). exact H0.
    + eapply fetch_and_store_files; eassumption.
Qed.

(** An item on file is passed over with a debug line. *)
Lemma classify_and_store_skips cfg net token artist deviation idv title content url
    key w :
  sql_bind idv = Ok key ->
  select_row (text_affinity key) (downloads w) <> None ->
  exists msg,
    classify_and_store cfg net token artist deviation idv title content url w
      = Some (Ok tt, with_events (cons (EvLog DEBUG msg)) w).
Proof.
  intros Hkey Hfile. unfold classify_and_store.
  rewrite (bind_ok _ _ _ _ _ (is_subscription_bound idv key w Hkey)).
  destruct (select_row (text_affinity key) (downloads w)) as [row|] eqn:E; [|congruence].
  destruct (is_premium row =? 1); [eexists; reflexivity|].
  rewrite (bind_ok _ _ _ _ _ (is_downloaded_bound idv key w Hkey)), E.
  eexists; reflexivity.
Qed.

(** X16. An item is handled once.  After [save_deviation] has ended
    well for an item whose identifier is not null, offering the item
    again, at once or at any later time at which the rows on file are
    still on file, with any token and creator name, only logs a debug
    line: nothing is requested, written or recorded. *)
Theorem save_deviation_once cfg net token artist deviation idv w w1 w2 :
  Py.getitem deviation "deviationid" = Ok idv ->
  idv <> PNone ->
  save_deviation cfg net token artist deviation w = Some (Ok tt, w1) ->
  ledger_kept w1 w2 ->
  forall token' artist',
    exists msg,
      save_deviation cfg net token' artist' deviation w2
        = Some (Ok tt, with_events (cons (EvLog DEBUG msg)) w2).
Proof.
  intros Hid Hnn Hrun Hkept token' artist'.
  destruct deviation as [| | | | |fields]; try discriminate Hid.
  cbn in Hid. destruct (Py.lookup "deviationid" fields) as [idv'|] eqn:Hlook;
    [|discriminate]. injection Hid as ->.
  rewrite (save_deviation_dict _ _ _ _ _ _ _ Hlook) in Hrun.
  rewrite (save_deviation_dict _ _ _ _ _ _ _ Hlook).
  destruct (sql_bind idv) as [key|e] eqn:Hkey.
  2:{ unfold classify_and_store in Hrun.
      rewrite (bind_raise _ _ _ _ _ (is_subscription_unbound idv e w Hkey)) in Hrun.
      discriminate. }
  assert (Hk : exists k, text_affinity key = Some k).
  { destruct idv; cbn in Hkey; try congruence.
    - injection Hkey as <-. eexists; reflexivity.
    - destruct (_ && _); [|discriminate]. injection Hkey as <-. eexists; reflexivity.
    - injection Hkey as <-. eexists; reflexivity. }
  destruct Hk as (k & Hk).
  apply (classify_and_store_skips _ _ _ _ _ _ _ _ _ key w2 Hkey).
  rewrite Hk. eapply ledger_kept_on_file; [exact Hkept|].
  eapply classify_and_store_files; eassumption.
Qed.

Lemma save_deviation_once_witness :
  exists w1,
    save_deviation default_config alice_one_item "fresh" (PStr "alice") free_item
      empty_world = Some (Ok tt, w1)
    /\ forall token' artist',
         exists msg,
           save_deviation default_config alice_one_item token' artist' free_item w1
             = Some (Ok tt, with_events (cons (EvLog DEBUG msg)) w1).
Proof.
  eexists. split; [vm_compute; reflexivity|].
  eapply (save_deviation_once default_config alice_one_item "fresh" (PStr "alice")
            free_item (PStr "d1") empty_world).
  - reflexivity.
  - discriminate.
  - vm_compute. reflexivity.
  - intros key row H. exact H.
Defined.

Lemma is_premium_of_premium_content fields content premium :
  Py.lookup "premium_content" fields = Some premium ->
  Py.truthy premium = true ->
  is_premium_of (PDict fields) content = Ok true.
Proof.
  intros H Ht. unfold is_premium_of. cbn [Py.get]. rewrite H. cbn. rewrite Ht. reflexivity.
Qed.

(** X17. A restricted item that is downloaded stays flagged.  With
    [DOWNLOAD_SUBSCRIPTIONS] on, an item with premium content that is
    not on file is flagged first; however the download that follows
    ends, the row on file is the flagged one, with no tags and
    [is_premium] 1: the row of [mark_downloaded] is ignored, and the
    item is a known subscription from then on. *)
Theorem downloaded_restricted_item_stays_flagged cfg net token artist fields id premium
    w a t u :
  DOWNLOAD_SUBSCRIPTIONS cfg = true ->
  Py.lookup "deviationid" fields = Some (PStr id) ->
  Py.lookup "premium_content" fields = Some premium ->
  Py.truthy premium = true ->
  select_row (Some id) (downloads w) = None ->
  let title := field fields "title" (PStr "untitled") in
  let url := field fields "url" PNone in
  sql_bind artist = Ok a ->
  sql_bind title = Ok t ->
  sql_bind url = Ok u ->
  let row := {| deviationid := Some id; artist := text_affinity a;
                title := text_affinity t; url := text_affinity u;
                tags := Some ""; is_premium := 1;
                downloaded_at := S (length (events w)) |} in
  exists r w',
    save_deviation cfg net token artist (PDict fields) w = Some (r, w')
    /\ select_row (Some id) (downloads w') = Some row
    /\ is_subscription (PStr id) w' = Some (Ok true, w').
Proof.
  intros Hflag Hid Hprem Htruthy Hnew title url Ha Ht Hu row.
  destruct (total_save_deviation cfg net token artist (PDict fields) w) as (r & w' & E).
  exists r, w'. split; [exact E|].
  assert (Hrow : select_row (Some id) (downloads w') = Some row).
  { rewrite (save_deviation_dict _ _ _ _ _ _ _ Hid) in E.
    unfold classify_and_store in E. fold title url in E.
    rewrite (bind_ok _ _ _ _ _ (is_subscription_bound (PStr id) _ w eq_refl)) in E.
    cbn [text_affinity] in E. rewrite Hnew in E.
    rewrite (bind_ok _ _ _ _ _ (is_downloaded_bound (PStr id) _ w eq_refl)) in E.
    cbn [text_affinity] in E. rewrite Hnew in E.
    rewrite (is_premium_of_premium_content fields _ premium Hprem Htruthy) in E.
    rewrite (bind_ok (lift (Ok true)) _ w true w eq_refl) in E.
    rewrite (bind_ok (logging INFO (MsgDetectedSubscription title (PStr id))) _ w tt _
               eq_refl) in E.
    assert (Hmark :
      mark_subscription (PStr id) artist title url
        (with_events (cons (EvLog INFO (MsgDetectedSubscription title (PStr id)))) w)
      = Some (Ok tt,
              with_downloads (insert_or_ignore row)
                (with_events
                   (cons (EvLog INFO (MsgDetectedSubscription title (PStr id)))) w))).
    { apply (record_spec id (Restricted artist title url)).
      cbn [row_from]. rewrite Ha, Ht, Hu. reflexivity. }
    rewrite (bind_ok _ _ _ _ _ Hmark), Hflag in E. cbn [negb] in E.
    assert (Hfile : forall w0,
      ledger_kept
        (with_downloads (insert_or_ignore row)
           (with_events
              (cons (EvLog INFO (MsgDetectedSubscription title (PStr id)))) w)) w0 ->
      select_row (Some id) (downloads w0) = Some row).
    { intros w0 Hk. apply Hk. cbn [downloads with_downloads with_events].
      rewrite (insert_or_ignore_select id row (downloads w) eq_refl), Hnew.
      reflexivity. }
    apply bind_inv in E as [(x & w1 & Hlog & E)|(e & Hlog & _)].
    - apply logging_inv in Hlog as [_ ->]. apply Hfile.
      intros key row0 H0.
      apply (fetch_and_store_keeps_ledger cfg net token artist (PStr id) title _ url
               _ _ _ E). exact H0.
    - apply logging_inv in Hlog as [[=] _]. }
  split; [exact Hrow|]. rewrite is_subscription_str, Hrow. reflexivity.
Qed.

Lemma downloaded_restricted_item_stays_flagged_witness :
  let row := {| deviationid := Some "d1"; artist := Some "alice";
                title := Some "first"; url := None; tags := Some "";
                is_premium := 1; downloaded_at := 1 |} in
  exists r w',
    save_deviation download_anyway always_429 "t0" (PStr "alice")
      (PDict premium_item) empty_world = Some (r, w')
    /\ select_row (Some "d1") (downloads w') = Some row
    /\ is_subscription (PStr "d1") w' = Some (Ok true, w').
Proof.
  apply (downloaded_restricted_item_stays_flagged download_anyway always_429 "t0"
           (PStr "alice") premium_item "d1" (PBool true) empty_world
           (SqlText "alice") (SqlText "first") SqlNull);
    reflexivity.
Defined.

(** ** More on the walk of a gallery *)

Lemma deviantart_get_keeps_progress cfg net url token params w r w' :
  deviantart_get cfg net url token params w = Some (r, w') ->
  progress_file w' = progress_file w.
Proof.
  apply (preserves_deviantart_get cfg net
           (fun w w' => progress_file w' = progress_file w)
           (fun _ => True) (fun _ => True));
    first [ intros; reflexivity | intros; exact I | intros; congruence ].
Qed.

Lemma for_deviations_keeps_progress cfg net token artist results w r w' :
  for_deviations cfg net token artist results w = Some (r, w') ->
  progress_file w' = progress_file w.
Proof.
  apply (preserves_for_deviations cfg net
           (fun w w' => progress_file w' = progress_file w)
           (fun _ => True) (fun _ => True));
    first [ intros; reflexivity | intros; exact I | intros; congruence ].
Qed.

Lemma for_deviations_stops cfg net token artist pre bad rest e : forall w w1,
  for_deviations cfg net token artist pre w = Some (Ok tt, w1) ->
  Py.getitem bad "deviationid" = Raise e ->
  for_deviations cfg net token artist (pre ++ bad :: rest) w = Some (Raise e, w1).
Proof.
  induction pre as [|d pre IH]; intros w w1 Hpre Hbad.
  - injection Hpre as <-. cbn [app for_deviations].
    apply bind_raise. unfold save_deviation. rewrite Hbad. reflexivity.
  - cbn [for_deviations] in Hpre.
    ok_step Hpre as x w2 Hsave. ok_step Hpre as y w3 Hsleep.
    cbn [app for_deviations].
    rewrite (bind_ok _ _ _ _ _ Hsave), (bind_ok _ _ _ _ _ Hsleep).
    apply IH; assumption.
Qed.

(** X18. An item without identifier ends the walk of its creator.
    When a page of a gallery holds an item that has no [deviationid]
    (or is no object at all), the items before it are handled, and
    then the exception of the lookup leaves [gallery_loop]: the item,
    the items after it and the pages after this one are not handled,
    and no checkpoint is written for the page. *)
Theorem item_without_identifier_ends_the_walk cfg net fuel token idx artist offset
    w data w0 pre bad rest e w1 :
  deviantart_get cfg net gallery_url token (gallery_params token artist offset) w
    = Some (Ok data, w0) ->
  Py.get data "results" (PList []) = Ok (PList (pre ++ bad :: rest)) ->
  for_deviations cfg net token artist pre w0 = Some (Ok tt, w1) ->
  Py.getitem bad "deviationid" = Raise e ->
  gallery_loop cfg net (S fuel) token idx artist offset w = Some (Raise e, w1)
  /\ progress_file w1 = progress_file w.
Proof.
  intros Hget Hres Hpre Hbad. split.
  - rewrite gallery_loop_S, (bind_ok _ _ _ _ _ Hget). unfold after_fetch.
    rewrite Hres. rewrite (bind_ok (lift (Ok _)) _ w0 _ w0 eq_refl).
    replace (Py.truthy (PList (pre ++ bad :: rest))) with true
      by (destruct pre; reflexivity).
    cbn [negb Py.iter].
    rewrite (bind_ok (lift (Ok _)) _ w0 _ w0 eq_refl).
    apply bind_raise. apply for_deviations_stops; assumption.
  - rewrite (for_deviations_keeps_progress _ _ _ _ _ _ _ _ Hpre).
    exact (deviantart_get_keeps_progress _ _ _ _ _ _ _ _ Hget).
Qed.

Lemma item_without_identifier_ends_the_walk_witness :
  exists w1,
    gallery_loop default_config page_with_nameless_item 1 "fresh" 0 (PStr "alice")
      (PInt 0) interrupted = Some (Raise (KeyError "deviationid"), w1)
    /\ progress_file w1 = progress_file interrupted.
Proof.
  eexists.
  eapply (item_without_identifier_ends_the_walk default_config page_with_nameless_item
            0 "fresh" 0 (PStr "alice") (PInt 0) interrupted _ _ [free_item]
            nameless_item [free_item]).
  - vm_compute. reflexivity.
  - reflexivity.
  - vm_compute. reflexivity.
  - reflexivity.
Defined.

(** X19. A walk writes checkpoints for its own creator only: however
    [gallery_loop] ends, the progress file is as it was or holds the
    index of the walk, with the offset a page named. *)
Theorem walk_checkpoints_own_index cfg net token idx artist fuel :
  forall offset w r w',
    gallery_loop cfg net fuel token idx artist offset w = Some (r, w') ->
    progress_file w' = progress_file w
    \/ exists next, progress_file w' = Saved (Some idx) (Some next).
Proof.
  induction fuel as [|fuel IH]; intros offset w r w' H; [discriminate|].
  rewrite gallery_loop_S in H.
  apply bind_inv in H as [(data & w0 & Hget & H)|(e & Hget & _)].
  2:{ left. exact (deviantart_get_keeps_progress _ _ _ _ _ _ _ _ Hget). }
  pose proof (deviantart_get_keeps_progress _ _ _ _ _ _ _ _ Hget) as H0.
  unfold after_fetch in H.
  apply bind_inv in H as [(results & w1 & Hres & H)|(e & Hres & _)];
    apply lift_inv in Hres as [_ ->]; [|left; exact H0].
  destruct (negb (Py.truthy results)).
  { apply logging_inv in H as [_ ->]. left. exact H0. }
  apply bind_inv in H as [(ds & w1 & Hit & H)|(e & Hit & _)];
    apply lift_inv in Hit as [_ ->]; [|left; exact H0].
  apply bind_inv in H as [(x & w2 & Hfor & H)|(e & Hfor & _)].
  2:{ left. rewrite (for_deviations_keeps_progress _ _ _ _ _ _ _ _ Hfor). exact H0. }
  pose proof (for_deviations_keeps_progress _ _ _ _ _ _ _ _ Hfor) as H2.
  apply bind_inv in H as [(more & w3 & Hmore & H)|(e & Hmore & _)];
    apply lift_inv in Hmore as [_ ->]; [|left; congruence].
  apply bind_inv in H as [(next & w3 & Hnext & H)|(e & Hnext & _)];
    apply lift_inv in Hnext as [_ ->]; [|left; congruence].
  apply bind_inv in H as [(y & w3 & Hsave & H)|(e & Hsave & _)];
    apply save_progress_inv in Hsave as [Hy Hsave]; [|discriminate].
  assert (Hsaved : progress_file w3 = progress_file w
                   \/ exists next', progress_file w3 = Saved (Some idx) (Some next')).
  { destruct Hsave as [->|(e & _ & ->)]; [right; eexists; reflexivity|].
    left. cbn [progress_file with_events]. congruence. }
  destruct (Py.truthy more).
  - destruct (IH _ _ _ _ H) as [Hsame|Hown]; [rewrite Hsame; exact Hsaved|].
    right. exact Hown.
  - injection H as _ <-. exact Hsaved.
Qed.

Lemma walk_checkpoints_own_index_witness :
  exists w',
    gallery_loop default_config alice_one_item 1 "fresh" 3 (PStr "alice") (PInt 0)
      empty_world = Some (Ok tt, w')
    /\ (progress_file w' = progress_file empty_world
        \/ exists next, progress_file w' = Saved (Some 3) (Some next)).
Proof.
  eexists. split; [vm_compute; reflexivity|].
  apply (walk_checkpoints_own_index default_config alice_one_item "fresh" 3
           (PStr "alice") 1 (PInt 0) empty_world (Ok tt)).
  vm_compute. reflexivity.
Defined.

(** The ledger and the count of image requests are as they were. *)
Lemma run_tagger_ends net p q w :
  exists w',
    run_tagger net p q w = Some (Ok tt, w')
    /\ downloads w' = downloads w /\ n_asset w' = n_asset w.
Proof.
  assert (Htotal : total (run_tagger net p q))
    by (unfold run_tagger, append_file, open_for_writing; repeat total_step).
  destruct (Htotal w) as (r & w' & E).
  assert (Hok : exists a, r = Ok a).
  { revert E. apply never_raises_try_except. intros e. apply never_raises_logging. }
  destruct Hok as ([] & ->). exists w'. split; [exact E|].
  revert E.
  apply (preserves_run_tagger net
           (fun w w' => downloads w' = downloads w /\ n_asset w' = n_asset w)
           (fun _ => True));
    first [ intros; exact I
          | intros ?; split; reflexivity
          | intros ? ? ? [? ?] [? ?]; split; congruence
          | intros; split; reflexivity ].
Qed.

(** An item that is not classified as restricted has content with a
    source. *)
Lemma is_premium_of_false deviation content :
  is_premium_of deviation content = Ok false ->
  exists src, Py.getitem content "src" = Ok src.
Proof.
  unfold is_premium_of.
  destruct deviation as [| | | | |fields]; try discriminate. cbn.
  destruct (Py.truthy _); [discriminate|]. cbn.
  destruct (Py.truthy _); [discriminate|]. cbn.
  destruct (Py.is_False _); [discriminate|].
  destruct (Py.truthy content) eqn:Hc; [|discriminate]. cbn.
  destruct content as [| | | | |cf]; try discriminate. cbn.
  destruct (Py.lookup "src" cf) as [src|]; [|discriminate].
  intros _. exists src. reflexivity.
Qed.

Section Down.

Variable cfg : Config.
Variable net : Network.

Hypothesis api_down : forall n q, plain_failure (api net n q) = true.
Hypothesis assets_down : forall n src, asset_host net n src = AssetFails.

Lemma metadata_when_down token params idv w :
  exists w0,
    try_except (deviantart_get cfg net metadata_url token params)
      (fun e => logging ERROR (MsgMetadataFailed idv e);; mret (PDict [])) w
      = Some (Ok (PDict []), w0)
    /\ downloads w0 = downloads w /\ n_asset w0 = n_asset w /\ disk w0 = disk w.
Proof.
  destruct (deviantart_get_loop_plain_failures cfg net metadata_url params api_down
              (Z.to_nat (MAX_RETRIES cfg)) 0 token w) as (msgs & _ & Hrun); [lia|].
  unfold deviantart_get. rewrite (try_raise _ _ _ _ _ Hrun).
  eexists. split; [reflexivity|]. repeat split.
Qed.

Lemma write_sidecar_no_tags p t a u w :
  open_error (disk w) (length (events w)) p = None ->
  exists w',
    write_sidecar p t a u [] w = Some (Ok tt, w')
    /\ downloads w' = downloads w /\ n_asset w' = n_asset w.
Proof.
  intros Hopen. unfold write_sidecar, open_for_writing, write_file. munfold.
  rewrite Hopen. cbn. eexists. repeat split.
Qed.

Lemma save_image_when_down p title content src w :
  Py.getitem content "src" = Ok src ->
  exists w',
    save_image net p title content w = Some (Ok tt, w')
    /\ downloads w' = downloads w /\ n_asset w' = S (n_asset w).
Proof.
  intros Hsrc. unfold save_image. munfold. rewrite Hsrc. cbn. rewrite assets_down. cbn.
  eexists. split; [reflexivity|]. split; reflexivity.
Qed.

Lemma fetch_and_store_when_down token name id title content url src t u w :
  (forall n, makedirs_error (disk w) n (path_join (SAVE_DIR cfg) name) = None) ->
  (forall n, open_error (disk w) n
               (path_join (path_join (SAVE_DIR cfg) name) (id +:+ ".txt")) = None) ->
  Py.getitem content "src" = Ok src ->
  sql_bind title = Ok t ->
  sql_bind url = Ok u ->
  select_row (Some id) (downloads w) = None ->
  exists w' now,
    fetch_and_store cfg net token (PStr name) (PStr id) title content url w
      = Some (Ok tt, w')
    /\ downloads w'
       = downloads w
         ++ [{| deviationid := Some id; artist := Some name;
                title := text_affinity t; url := text_affinity u;
                tags := Some ""; is_premium := 0; downloaded_at := now |}]
    /\ n_asset w' = S (n_asset w).
Proof.
  intros Hdir Hopen Hsrc Ht Hu Hnew. unfold fetch_and_store.
  destruct (metadata_when_down token
              [("access_token", PStr token); ("deviationids[]", PStr id);
               ("mature_content", PStr "true")] (PStr id) w)
    as (w1 & H1 & Hd1 & Ha1 & Hdisk1).
  rewrite (bind_ok _ _ _ _ _ H1).
  rewrite (bind_ok (lift (tags_of (PDict []))) _ w1 [] w1 eq_refl).
  rewrite (bind_ok (lift (Ok name)) _ w1 name w1 eq_refl).
  cbv zeta.
  assert (Hmk : os_makedirs (path_join (SAVE_DIR cfg) name) w1 = Some (Ok tt, w1)).
  { unfold os_makedirs. munfold. rewrite Hdisk1, Hdir. reflexivity. }
  rewrite (bind_ok _ _ _ _ _ Hmk).
  match goal with
  | |- context [write_sidecar ?p ?a ?b ?c ?d] =>
      destruct (write_sidecar_no_tags p a b c w1) as (w2 & H2 & Hd2 & Ha2);
        [rewrite Hdisk1; apply Hopen|]
  end.
  rewrite (bind_ok _ _ _ _ _ H2).
  match goal with
  | |- context [(save_image _ ?p ?a ?b ≫= _) ?w] =>
      destruct (save_image_when_down p a b src w Hsrc) as (w3 & H3 & Hd3 & Ha3)
  end.
  rewrite (bind_ok _ _ _ _ _ H3).
  match goal with
  | |- context [(run_tagger _ ?p ?q ≫= _) ?w] =>
      destruct (run_tagger_ends net p q w) as (w4 & H4 & Hd4 & Ha4)
  end.
  rewrite (bind_ok _ _ _ _ _ H4).
  assert (Hd : downloads w4 = downloads w).
  { rewrite Hd4, Hd3, Hd2. exact Hd1. }
  assert (Hmark : record id (Downloaded (PStr name) title url []) w4
                  = Some (Ok tt,
                          with_downloads
                            (insert_or_ignore
                               {| deviationid := Some id; artist := Some name;
                                  title := text_affinity t; url := text_affinity u;
                                  tags := Some ""; is_premium := 0;
                                  downloaded_at := length (events w4) |}) w4)).
  { apply record_spec. cbn [row_from]. rewrite Ht, Hu. reflexivity. }
  cbn [record] in Hmark. rewrite (bind_ok _ _ _ _ _ Hmark).
  eexists _, _. split; [reflexivity|].
  cbn [downloads with_downloads with_events n_asset].
  unfold insert_or_ignore. cbn [deviationid]. rewrite Hd, Hnew.
  split; [reflexivity|]. rewrite Ha4, Ha3, Ha2, Ha1. reflexivity.
Qed.

End Down.

(** X20. An image that cannot be fetched is recorded as downloaded.
    When the API and the asset host both fail, while the directory of
    the creator can be made and the sidecar can be created in it, an
    item that is not on file and is not classified as restricted
    still runs through [save_deviation] to the end: the image is asked
    for once, and the item is recorded with no tags and [is_premium]
    0, so that [is_downloaded] answers true for it from then on and it
    is never tried again. *)
Theorem unreachable_image_is_recorded cfg net token name fields id t u w :
  (forall n q, plain_failure (api net n q) = true) ->
  (forall n src, asset_host net n src = AssetFails) ->
  (forall n, makedirs_error (disk w) n (path_join (SAVE_DIR cfg) name) = None) ->
  (forall n, open_error (disk w) n
               (path_join (path_join (SAVE_DIR cfg) name) (id +:+ ".txt")) = None) ->
  Py.lookup "deviationid" fields = Some (PStr id) ->
  select_row (Some id) (downloads w) = None ->
  is_premium_of (PDict fields) (field fields "content" (PDict [])) = Ok false ->
  sql_bind (field fields "title" (PStr "untitled")) = Ok t ->
  sql_bind (field fields "url" PNone) = Ok u ->
  exists w' now,
    save_deviation cfg net token (PStr name) (PDict fields) w = Some (Ok tt, w')
    /\ downloads w'
       = downloads w
         ++ [{| deviationid := Some id; artist := Some name;
                title := text_affinity t; url := text_affinity u;
                tags := Some ""; is_premium := 0; downloaded_at := now |}]
    /\ n_asset w' = S (n_asset w)
    /\ is_downloaded (PStr id) w' = Some (Ok true, w').
Proof.
  intros Hapi Hassets Hdir Hopen Hid Hnew Hfree Ht Hu.
  destruct (is_premium_of_false _ _ Hfree) as (src & Hsrc).
  destruct (fetch_and_store_when_down cfg net Hapi Hassets token name id _ _ _ src t u w
              Hdir Hopen Hsrc Ht Hu Hnew) as (w' & now & Hrun & Hrows & Hasset).
  exists w', now. split; [|split; [exact Hrows|split; [exact Hasset|]]].
  - rewrite (save_deviation_dict _ _ _ _ _ _ _ Hid). unfold classify_and_store.
    rewrite (bind_ok _ _ _ _ _ (is_subscription_bound (PStr id) _ w eq_refl)).
    cbn [text_affinity]. rewrite Hnew.
    rewrite (bind_ok _ _ _ _ _ (is_downloaded_bound (PStr id) _ w eq_refl)).
    cbn [text_affinity]. rewrite Hnew, Hfree.
    rewrite (bind_ok (lift (Ok false)) _ w false w eq_refl). exact Hrun.
  - rewrite is_downloaded_str, Hrows. cbn [select_row].
    rewrite find_app_none by exact Hnew. cbn.
    rewrite String.eqb_refl. reflexivity.
Qed.

Lemma unreachable_image_is_recorded_witness :
  exists w' now,
    save_deviation default_config all_down "fresh" (PStr "alice") free_item empty_world
      = Some (Ok tt, w')
    /\ downloads w'
       = downloads empty_world
         ++ [{| deviationid := Some "d1"; artist := Some "alice";
                title := Some "first"; url := Some "http://x/d1";
                tags := Some ""; is_premium := 0; downloaded_at := now |}]
    /\ n_asset w' = S (n_asset empty_world)
    /\ is_downloaded (PStr "d1") w' = Some (Ok true, w').
Proof.
  apply (unreachable_image_is_recorded default_config all_down "fresh" "alice"
           [("deviationid", PStr "d1"); ("title", PStr "first");
            ("url", PStr "http://x/d1"); ("premium_content", PBool false);
            ("content", PDict [("src", PStr "http://x/img")])]
           "d1" (SqlText "first") (SqlText "http://x/d1") empty_world);
    first [reflexivity | intros; reflexivity].
Defined.

(** ** More on the credentials *)

Lemma get_access_token_refused net w :
  token_refused (token_endpoint net (n_token w)) = true ->
  exists e,
    get_access_token net w
      = Some (Raise e, tick_token (with_events (cons EvTokenPost) w))
    /\ is_request_exception e = true.
Proof.
  intros H. unfold get_access_token. munfold. cbn.
  destruct (token_endpoint net (n_token w)) as [status token|]; cbn in *.
  - destruct (ok status); [discriminate|]. eexists. split; reflexivity.
  - eexists. split; reflexivity.
Qed.

(** X21. Credentials that are refused at startup stop the run.  When
    the first credential exchange does not grant a token, [main] ends
    with the exception of the exchange right after it: the exchange is
    not tried again, nothing is asked of the API, and nothing is
    written. *)
Theorem refused_credentials_stop_the_run cfg net fuel w :
  token_refused (token_endpoint net (n_token w)) = true ->
  exists e,
    main cfg net fuel w
      = Some (Raise e, tick_token (with_events (cons EvTokenPost) w))
    /\ is_request_exception e = true.
Proof.
  intros H. destruct (get_access_token_refused net w H) as (e & Htok & He).
  exists e. split; [|exact He]. unfold main. apply bind_raise. exact Htok.
Qed.

Lemma refused_credentials_stop_the_run_witness :
  exists e,
    main default_config all_down 1 interrupted
      = Some (Raise e, tick_token (with_events (cons EvTokenPost) interrupted))
    /\ is_request_exception e = true.
Proof.
  apply (refused_credentials_stop_the_run default_config all_down 1 interrupted).
  reflexivity.
Defined.

(** X22. A refresh that is refused is passed over.  When a request is
    answered with 401 and the credential exchange that follows does
    not grant a token, [deviantart_get] logs the exception of the
    exchange, sleeps [SLEEP_TIME] and sends the request again with the
    token it had; if that request is answered, its body is returned. *)
Theorem refused_refresh_is_passed_over cfg net url token params w r1 body :
  2 <= MAX_RETRIES cfg ->
  let rq := {| req_url := url; req_token := token; req_params := params |} in
  api net (n_api w) rq = Responds r1 ->
  status_code r1 = 401 ->
  token_refused (token_endpoint net (n_token w)) = true ->
  success_body (api net (S (n_api w)) rq) = Some body ->
  exists e,
    deviantart_get cfg net url token params w
      = Some (Ok body,
              advance 2 1 [EvGet rq; EvLog WARNING MsgTokenExpired; EvTokenPost;
                           EvLog ERROR (MsgRequestException e); EvSleep SleepTime;
                           EvGet rq] w)
    /\ is_request_exception e = true.
Proof.
  intros Hmax rq Hr Hs Href Hsb.
  assert (Hatt : exists e,
    attempt cfg net url params 0 token w
      = Some (Ok (Continue (0 + 1) token),
              advance 1 1 [EvGet rq; EvLog WARNING MsgTokenExpired; EvTokenPost;
                           EvLog ERROR (MsgRequestException e); EvSleep SleepTime] w)
    /\ is_request_exception e = true).
  { unfold attempt, requests_get, get_access_token. munfold. cbn. fold rq.
    rewrite Hr, Hs. cbn.
    destruct (token_endpoint net (n_token w)) as [status token'|]; cbn in *.
    - destruct (ok status); [discriminate|]. cbn.
      eexists. split; [destruct w; reflexivity|reflexivity].
    - eexists. split; [destruct w; reflexivity|reflexivity]. }
  destruct Hatt as (e & Hatt & He). exists e. split; [|exact He].
  unfold deviantart_get.
  destruct (Z.to_nat (MAX_RETRIES cfg)) as [|[|fuel]] eqn:E; [lia|lia|].
  cbn [deviantart_get_loop].
  destruct (Z.ltb_spec 0 (MAX_RETRIES cfg)); [|lia].
  rewrite (bind_ok _ _ _ _ _ Hatt).
  destruct (Z.ltb_spec (0 + 1) (MAX_RETRIES cfg)); [|lia].
  rewrite (bind_ok _ _ _ _ _
             (attempt_success cfg net url params (0 + 1) token
                (advance 1 1 [EvGet rq; EvLog WARNING MsgTokenExpired; EvTokenPost;
                              EvLog ERROR (MsgRequestException e); EvSleep SleepTime] w)
                body Hsb)).
  rewrite advance_advance. reflexivity.
Qed.

Lemma refused_refresh_is_passed_over_witness :
  let rq := {| req_url := "u"; req_token := "t"; req_params := [] |} in
  exists e,
    deviantart_get default_config refresh_down "u" "t" [] empty_world
      = Some (Ok (PDict [("results", PList [])]),
              advance 2 1 [EvGet rq; EvLog WARNING MsgTokenExpired; EvTokenPost;
                           EvLog ERROR (MsgRequestException e); EvSleep SleepTime;
                           EvGet rq] empty_world)
    /\ is_request_exception e = true.
Proof.
  intros rq.
  apply (refused_refresh_is_passed_over default_config refresh_down "u" "t" []
           empty_world {| status_code := 401; json := PNone |}
           (PDict [("results", PList [])]));
    first [reflexivity | cbn; lia].
Defined.

(** ** More on the classification and the tagger *)

(** X23. What counts as a free item.  [save_deviation] classifies an
    item as not restricted exactly when [premium_content] and
    [premium_folder_data] are absent or falsy, [is_downloadable] is
    not [False], and [content] is an object with a truthy [src]. *)
Theorem is_premium_of_free fields content :
  is_premium_of (PDict fields) content = Ok false
  <-> Py.truthy (field fields "premium_content" PNone) = false
      /\ Py.truthy (field fields "premium_folder_data" PNone) = false
      /\ Py.is_False (field fields "is_downloadable" PNone) = false
      /\ exists cf src,
           content = PDict cf /\ Py.lookup "src" cf = Some src
           /\ Py.truthy src = true.
Proof.
  unfold is_premium_of, field. cbn.
  destruct (Py.truthy match Py.lookup "premium_content" fields with
                      | Some x => x | None => PNone end); cbn.
  { split; [discriminate|intros [[=] _]]. }
  destruct (Py.truthy match Py.lookup "premium_folder_data" fields with
                      | Some x => x | None => PNone end); cbn.
  { split; [discriminate|intros (_ & [=] & _)]. }
  destruct (Py.is_False match Py.lookup "is_downloadable" fields with
                        | Some x => x | None => PNone end); cbn.
  { split; [discriminate|intros (_ & _ & [=] & _)]. }
  destruct content as [|b|n|s|l|cf]; cbn.
  - split; [discriminate|intros (_ & _ & _ & cf & src & [=] & _)].
  - split; [destruct b; discriminate|intros (_ & _ & _ & cf & src & [=] & _)].
  - split; [destruct (negb (n =? 0)); discriminate
           |intros (_ & _ & _ & cf & src & [=] & _)].
  - split; [destruct (negb (String.eqb s "")); discriminate
           |intros (_ & _ & _ & cf & src & [=] & _)].
  - split; [destruct l; discriminate|intros (_ & _ & _ & cf & src & [=] & _)].
  - destruct (Py.lookup "src" cf) as [src|] eqn:E.
    + assert (Hcf : match cf with [] => false | _ => true end = true)
        by (destruct cf; [discriminate|reflexivity]).
      rewrite Hcf. cbn.
      destruct (Py.truthy src) eqn:Hsrc; cbn.
      * split; [intros _; repeat split; eauto|reflexivity].
      * split; [discriminate|].
        intros (_ & _ & _ & cf0 & src' & [= <-] & Hl & Ht). congruence.
    + split.
      * destruct cf; cbn; discriminate.
      * intros (_ & _ & _ & cf0 & src' & [= <-] & Hl & _). congruence.
Qed.

(** X24. The tagger only adds to the sidecar.  [run_tagger] never
    lets an exception out; it leaves the ledger and every file but the
    sidecar as they were; and when there is no image file it does not
    contact the tagger at all: it logs the warning and returns. *)
Theorem run_tagger_touches_sidecar_only net img_path txt_path w r w' :
  run_tagger net img_path txt_path w = Some (r, w') ->
  r = Ok tt
  /\ downloads w' = downloads w
  /\ (forall p, p <> txt_path -> files w' !! p = files w !! p)
  /\ (files w !! img_path = None ->
      w' = with_events
             (cons (EvLog WARNING
                      (MsgTaggerFailed img_path (FileNotFoundError img_path)))) w).
Proof.
  unfold run_tagger, append_file. munfold.
  destruct (files w !! img_path) as [img_file|] eqn:Himg; cbn.
  2:{ intros [= <- <-]. repeat split. }
  destruct (tagger net (n_tagger w) img_file) as [response|]; cbn.
  2:{ intros [= <- <-]. repeat split; discriminate. }
  destruct (ok (status_code response)); cbn.
  2:{ intros [= <- <-]. repeat split; discriminate. }
  destruct (ai_tags_of (json response)) as [[|tag ai_tags]|e]; cbn.
  - intros [= <- <-]. repeat split; discriminate.
  - unfold open_for_writing. munfold. cbn.
    destruct (open_error _ _ _) as [e|]; cbn.
    { intros [= <- <-]. repeat split; discriminate. }
    destruct (Py.join nl (tag :: ai_tags)) as [joined|e]; cbn;
      intros [= <- <-]; (split; [reflexivity|]); (split; [reflexivity|]);
      (split; [|discriminate]); intros p Hp; cbn;
      rewrite ?lookup_insert_ne by congruence; reflexivity.
  - intros [= <- <-]. repeat split; discriminate.
Qed.

Lemma run_tagger_touches_sidecar_only_witness :
  let img := "./downloads/alice/d1.jpg" in
  let txt := "./downloads/alice/d1.txt" in
  exists w',
    run_tagger all_down img txt empty_world = Some (Ok tt, w')
    /\ downloads w' = downloads empty_world
    /\ (forall p, p <> txt -> files w' !! p = files empty_world !! p)
    /\ (files empty_world !! img = None ->
        w' = with_events
               (cons (EvLog WARNING (MsgTaggerFailed img (FileNotFoundError img))))
               empty_world).
Proof.
  intros img txt. eexists. split; [vm_compute; reflexivity|].
  pose proof (run_tagger_touches_sidecar_only all_down img txt empty_world (Ok tt) _
                eq_refl) as (_ & H).
  exact H.
Defined.
